(** * bio-hack backend: the de-identification and record-linkage pipeline

    A shallow embedding of [backend/main.py]: the identity extractor
    ([_extract_name], [_extract_dob]), the token deriver
    ([_stable_patient_token]), the redactor ([scrub_pii]), the date
    resolver ([_parse_date_string], [extract_lab_date],
    [extract_date_from_filename]) and the history handling of [analyze]
    and [get_history].

    Python text is modelled as a list of code points below 256 (the
    Latin-1 block, one [ascii] each).  The parts of the Python library
    the program calls ([re], [str], [int], [datetime], [hmac],
    [hashlib], [os.path]) are modelled in the modules below, on that
    range of code points.  What [json.loads] returns, from the store
    and from the analysis service, is a value of any JSON shape; the
    operations the program applies to it raise as Python's do. *)

From stdpp Require Import gmap strings.
From Stdlib Require Import ZArith Lia Ascii.

#[local] Open Scope nat_scope.
#[local] Open Scope list_scope.

(** ** Text *)

Definition str := list ascii.

Abbreviation py s := (String.list_ascii_of_string s%string) (only parsing).

Definition ord (c : ascii) : nat := nat_of_ascii c.
Definition chr (n : nat) : ascii := ascii_of_nat n.

Definition between (lo n hi : nat) : bool := (lo <=? n) && (n <=? hi).

(** [str.isspace] on one character, which is also the class [\s] of a
    text pattern: the characters 9-13, 28-32, 133 and 160. *)
Definition isspace (c : ascii) : bool :=
  let n := ord c in
  between 9 n 13 || between 28 n 32 || (n =? 133) || (n =? 160).

(** The class [\d]: the decimal digits, below 256 only 0-9. *)
Definition isdecimal (c : ascii) : bool := between 48 (ord c) 57.

Definition is_upper (c : ascii) : bool := between 65 (ord c) 90.
Definition is_lower (c : ascii) : bool := between 97 (ord c) 122.
Definition is_letter (c : ascii) : bool := is_upper c || is_lower c.

(** The class [\w], which decides [\b]: alphanumeric characters and the
    underscore.  Above 127 these are the Latin-1 letters and the numeric
    characters (superscripts and vulgar fractions). *)
Definition isword (c : ascii) : bool :=
  let n := ord c in
  isdecimal c || is_letter c || (n =? 95)
  || (n =? 170) || (n =? 178) || (n =? 179) || (n =? 181) || (n =? 185)
  || (n =? 186) || between 188 n 190 || between 192 n 214
  || between 216 n 246 || between 248 n 255.

(** Case mapping on the ASCII letters.  The patterns of the program
    hold ASCII characters only, and the case mappings of the code points
    128-255 stay above 127, so they never meet a literal or a set of
    these patterns. *)
Definition lower (c : ascii) : ascii := if is_upper c then chr (ord c + 32) else c.
Definition upper (c : ascii) : ascii := if is_lower c then chr (ord c - 32) else c.

Definition ascii_eqb (a b : ascii) : bool := Ascii.eqb a b.

Fixpoint str_eqb (a b : str) : bool :=
  match a, b with
  | [], [] => true
  | x :: a', y :: b' => ascii_eqb x y && str_eqb a' b'
  | _, _ => false
  end.

Fixpoint startswith (p s : str) : bool :=
  match p, s with
  | [], _ => true
  | x :: p', y :: s' => ascii_eqb x y && startswith p' s'
  | _ :: _, [] => false
  end.

(** [sub in s]: substring test. *)
Fixpoint contains (sub s : str) : bool :=
  startswith sub s || match s with [] => false | _ :: s' => contains sub s' end.

(** The slice [s[i:j]]. *)
Definition slice (s : str) (i j : nat) : str := firstn (j - i) (skipn i s).

Fixpoint lstrip (s : str) : str :=
  match s with
  | c :: s' => if isspace c then lstrip s' else s
  | [] => []
  end.

Definition rstrip (s : str) : str := rev (lstrip (rev s)).

(** [str.strip()] with no argument. *)
Definition strip (s : str) : str := rstrip (lstrip s).

(** Truth value of a string and of an optional string ([None] and [""]
    are false). *)
Definition truthy (s : str) : bool := match s with [] => false | _ => true end.
Definition truthy_opt (o : option str) : bool :=
  match o with Some s => truthy s | None => false end.

(** [str.replace(old, new)] for a non-empty [old]: the occurrences are
    replaced left to right, without overlap.  [skip] counts the
    characters of the current occurrence still to drop. *)
Fixpoint replace_from (old new : str) (skip : nat) (s : str) : str :=
  match s with
  | [] => []
  | c :: s' =>
      match skip with
      | S n => replace_from old new n s'
      | O => if startswith old s
             then new ++ replace_from old new (length old - 1) s'
             else c :: replace_from old new 0 s'
      end
  end.

Definition str_replace (s old new : str) : str :=
  match old with
  | [] => s  (* not reached: the program guards every call with [if dob:] *)
  | _ => replace_from old new 0 s
  end.

(** [int(s)] on text: surrounding whitespace is dropped, one sign is
    allowed, then decimal digits, with single underscores allowed between
    digits.  [None] stands for [ValueError]. *)
Definition digit_val (c : ascii) : Z := Z.of_nat (ord c - 48).

Fixpoint int_digits (acc : Z) (after_digit : bool) (s : str) : option Z :=
  match s with
  | [] => if after_digit then Some acc else None
  | c :: s' =>
      if isdecimal c then int_digits (10 * acc + digit_val c)%Z true s'
      else if ascii_eqb c "_" && after_digit
           then match s' with
                | d :: _ => if isdecimal d then int_digits acc false s' else None
                | [] => None
                end
           else None
  end.

Definition py_int (s : str) : option Z :=
  match strip s with
  | c :: s' =>
      if ascii_eqb c "-" then option_map Z.opp (int_digits 0 false s')
      else if ascii_eqb c "+" then int_digits 0 false s'
      else int_digits 0 false (c :: s')
  | [] => None
  end.

(** Decimal text of a natural number, zero-padded to [width] digits
    (the [%04d] and [%02d] of [date.isoformat] and [time.strftime]). *)
Fixpoint digits_rev (fuel n : nat) : str :=
  match fuel with
  | O => []
  | S f => chr (48 + n mod 10) :: (if n / 10 =? 0 then [] else digits_rev f (n / 10))
  end.

Definition zfill (width : nat) (s : str) : str := repeat "0"%char (width - length s) ++ s.

Definition pad_num (width : nat) (n : Z) : str :=
  zfill width (rev (digits_rev (S (Z.to_nat n)) (Z.to_nat n))).

(** ** Regular expressions: the part of [re] the program uses

    The patterns of [main.py] and of [datetime.strptime] are built from
    literals, sets, greedy repetition of a one-character atom,
    concatenation, alternation, capturing groups and [\b].  [rmatch]
    lists, in the order in which the backtracking matcher of [re] tries
    them, the ways a pattern matches from a position: the head of the
    list is the match that [re] reports. *)
Module Re.

Inductive item : Type :=
| Ch (c : ascii)            (* a character of a set *)
| Range (lo hi : ascii)     (* lo-hi *)
| Space                     (* \s *)
| Digit.                    (* \d *)

Inductive regex : Type :=
| Eps
| Lit (c : ascii)
| OneOf (set : list item)
| Repeat (set : list item) (lo : nat) (hi : option nat)
| Seq (a b : regex)
| Alt (a b : regex)
| Group (n : nat) (a : regex)
| WordBoundary.

Definition item_match (c : ascii) (it : item) : bool :=
  match it with
  | Ch x => ascii_eqb c x
  | Range lo hi => between (ord lo) (ord c) (ord hi)
  | Space => isspace c
  | Digit => isdecimal c
  end.

(** Membership in a set; with IGNORECASE a character also belongs
    when its lower-case or its upper-case form does. *)
Definition in_set (icase : bool) (set : list item) (c : ascii) : bool :=
  existsb (item_match c) set
  || (icase && (existsb (item_match (lower c)) set || existsb (item_match (upper c)) set)).

Definition lit_match (icase : bool) (p c : ascii) : bool :=
  if icase then ascii_eqb (lower c) (lower p) else ascii_eqb c p.

(** [\b] at position [i]: exactly one of the characters before and
    after the position is a word character (the ends of the text count
    as non-word). *)
Definition word_at (s : str) (i : nat) : bool :=
  match nth_error s i with Some c => isword c | None => false end.

Definition boundary (s : str) (i : nat) : bool :=
  xorb (match i with O => false | S j => word_at s j end) (word_at s i).

(** Number of leading characters of [rest] in the set, at most [hi]. *)
Fixpoint run (ok : ascii -> bool) (hi : option nat) (rest : str) : nat :=
  match rest with
  | c :: rest' =>
      if ok c then
        match hi with
        | Some O => O
        | Some (S h) => S (run ok (Some h) rest')
        | None => S (run ok None rest')
        end
      else O
  | [] => O
  end.

(** The repetition counts a greedy [X{lo,hi}] tries: the longest run
    first, then one character less at a time, never fewer than [lo]. *)
Definition counts (lo m : nat) : list nat :=
  if lo <=? m then rev (seq lo (S m - lo)) else [].

(** Group spans, the latest binding of a group first. *)
Definition caps := list (nat * (nat * nat)).

Fixpoint rmatch (icase : bool) (s : str) (r : regex) (st : nat * caps) : list (nat * caps) :=
  match r with
  | Eps => [st]
  | Lit p =>
      match nth_error s (fst st) with
      | Some c => if lit_match icase p c then [(S (fst st), snd st)] else []
      | None => []
      end
  | OneOf set =>
      match nth_error s (fst st) with
      | Some c => if in_set icase set c then [(S (fst st), snd st)] else []
      | None => []
      end
  | Repeat set lo hi =>
      map (fun n => (fst st + n, snd st))
          (counts lo (run (in_set icase set) hi (skipn (fst st) s)))
  | Seq a b => flat_map (rmatch icase s b) (rmatch icase s a st)
  | Alt a b => rmatch icase s a st ++ rmatch icase s b st
  | Group n a =>
      map (fun e => (fst e, (n, (fst st, fst e)) :: snd e)) (rmatch icase s a st)
  | WordBoundary => if boundary s (fst st) then [st] else []
  end.

(** A match object: the text, the span of the whole match, the groups. *)
Record Match : Type := mkMatch {
  m_string : str;
  m_start : nat;
  m_end : nat;
  m_caps : caps
}.

Definition match_at (icase : bool) (r : regex) (s : str) (i : nat) : option Match :=
  match rmatch icase s r (i, ([] : caps)) with
  | (j, c) :: _ => Some (mkMatch s i j c)
  | [] => None
  end.

(** The first position among [starts] where the pattern matches. *)
Fixpoint first_match (icase : bool) (r : regex) (s : str) (starts : list nat) : option Match :=
  match starts with
  | [] => None
  | i :: rest =>
      match match_at icase r s i with
      | Some m => Some m
      | None => first_match icase r s rest
      end
  end.

(** [re.search(r, s, flags)]. *)
Definition search (icase : bool) (r : regex) (s : str) : option Match :=
  first_match icase r s (seq 0 (S (length s))).

(** [re.match(r, s, flags)]: a match at position 0 only. *)
Definition match_ (icase : bool) (r : regex) (s : str) : option Match :=
  match_at icase r s 0.

Fixpoint span_of (n : nat) (c : caps) : option (nat * nat) :=
  match c with
  | [] => None
  | (k, sp) :: c' => if k =? n then Some sp else span_of n c'
  end.

(** [m.group(n)]; group 0 is the whole match, [None] a group that took
    no part in the match. *)
Definition group (m : Match) (n : nat) : option str :=
  match n with
  | O => Some (slice (m_string m) (m_start m) (m_end m))
  | _ => match span_of n (m_caps m) with
         | Some (i, j) => Some (slice (m_string m) i j)
         | None => None
         end
  end.

(** The successive non-overlapping matches from position [i] on, as
    [re.findall] and [re.sub] scan them.  The patterns the program
    scans with ([\d{6}], [\s+], an escaped non-empty name) never match
    the empty text; should a match be empty the scan moves on by one
    character. *)
Fixpoint scan (icase : bool) (r : regex) (s : str) (fuel i : nat) : list Match :=
  match fuel with
  | O => []
  | S f =>
      if length s <? i then []
      else match match_at icase r s i with
           | Some m => m :: scan icase r s f (Nat.max (m_end m) (S i))
           | None => scan icase r s f (S i)
           end
  end.

Definition finditer (icase : bool) (r : regex) (s : str) : list Match :=
  scan icase r s (S (length s)) 0.

(** [re.findall(r, s)] for a pattern without groups. *)
Definition findall (icase : bool) (r : regex) (s : str) : list str :=
  map (fun m => slice s (m_start m) (m_end m)) (finditer icase r s).

(** [re.sub(r, repl, s)] where [expand] gives the replacement text of
    a match. *)
Fixpoint splice (s : str) (expand : Match -> str) (pos : nat) (ms : list Match) : str :=
  match ms with
  | [] => skipn pos s
  | m :: ms' => slice s pos (m_start m) ++ expand m ++ splice s expand (m_end m) ms'
  end.

Definition sub_with (icase : bool) (r : regex) (expand : Match -> str) (s : str) : str :=
  splice s expand 0 (finditer icase r s).

(** [re.escape(s)] read as a pattern: the literal text [s]. *)
Fixpoint escape (s : str) : regex :=
  match s with
  | [] => Eps
  | c :: s' => Seq (Lit c) (escape s')
  end.

(** Literal text in a pattern. *)
Definition literal (s : String.string) : regex := escape (String.list_ascii_of_string s).

Definition star (set : list item) : regex := Repeat set 0 None.
Definition plus (set : list item) : regex := Repeat set 1 None.
Definition opt (set : list item) : regex := Repeat set 0 (Some 1).
Definition times (set : list item) (lo hi : nat) : regex := Repeat set lo (Some hi).

Fixpoint alts (rs : list regex) : regex :=
  match rs with
  | [] => OneOf []
  | [r] => r
  | r :: rs' => Alt r (alts rs')
  end.

Fixpoint seqs (rs : list regex) : regex :=
  match rs with
  | [] => Eps
  | [r] => r
  | r :: rs' => Seq r (seqs rs')
  end.

End Re.

Import Re.

(** ** Calendar dates: [datetime] *)

Definition is_leap (y : Z) : bool :=
  ((y mod 4 =? 0) && negb (y mod 100 =? 0) || (y mod 400 =? 0))%Z.

Definition days_in_month (y m : Z) : Z :=
  (if m =? 2 then (if is_leap y then 29 else 28)
   else if (m =? 4) || (m =? 6) || (m =? 9) || (m =? 11) then 30
   else 31)%Z.

(** The check of the [datetime(y, m, d)] and [date(y, m, d)]
    constructors: MINYEAR is 1, MAXYEAR is 9999. *)
Definition valid_date (y m d : Z) : bool :=
  ((1 <=? y) && (y <=? 9999) && (1 <=? m) && (m <=? 12)
   && (1 <=? d) && (d <=? days_in_month y m))%Z.

(** [date.isoformat()]: ["%04d-%02d-%02d"]. *)
Definition isoformat (y m d : Z) : str :=
  pad_num 4 y ++ py "-" ++ pad_num 2 m ++ py "-" ++ pad_num 2 d.

(** [datetime(y, m, d).date().isoformat()] inside [try: ... except
    Exception: pass]: [None] when the constructor raises. *)
Definition date_iso (y m d : Z) : option str :=
  if valid_date y m d then Some (isoformat y m d) else None.

(** ** [datetime.strptime] for the directives the program uses

    [_strptime] turns a format into a pattern (white space becomes
    [\s+], a directive a named group), matches it with IGNORECASE at the
    start of the text, refuses unconverted text after the match, and
    builds the date from the groups.  The month names are those of the C
    locale; the pattern lists them by decreasing length. *)
Module Strptime.

Inductive directive : Type :=
| DY | Dm | Dd | DB | Db      (* %Y %m %d %B %b *)
| DChar (c : ascii)            (* an ordinary character *)
| DSpace.                      (* white space in the format *)

Definition gY := 1.
Definition gm := 2.
Definition gd := 3.
Definition gB := 4.
Definition gb := 5.

Definition f_month : list String.string :=
  ["january"; "february"; "march"; "april"; "may"; "june"; "july";
   "august"; "september"; "october"; "november"; "december"]%string.

Definition a_month : list String.string :=
  ["jan"; "feb"; "mar"; "apr"; "may"; "jun"; "jul"; "aug"; "sep";
   "oct"; "nov"; "dec"]%string.

Definition d19 : list item := [Range "1" "9"].

Definition directive_re (d : directive) : regex :=
  match d with
  | DY => Group gY (seqs [OneOf [Digit]; OneOf [Digit]; OneOf [Digit]; OneOf [Digit]])
  | Dm => Group gm (alts [Seq (Lit "1") (OneOf [Range "0" "2"]);
                          Seq (Lit "0") (OneOf d19);
                          OneOf d19])
  | Dd => Group gd (alts [Seq (Lit "3") (OneOf [Range "0" "1"]);
                          Seq (OneOf [Range "1" "2"]) (OneOf [Digit]);
                          Seq (Lit "0") (OneOf d19);
                          OneOf d19;
                          Seq (Lit " ") (OneOf d19)])
  | DB => Group gB (alts (map literal
            ["september"; "february"; "november"; "december"; "january";
             "october"; "august"; "march"; "april"; "june"; "july"; "may"]%string))
  | Db => Group gb (alts (map literal a_month))
  | DChar c => Lit c
  | DSpace => plus [Space]
  end.

Definition pattern (fmt : list directive) : regex := seqs (map directive_re fmt).

(** [names.index(s.lower())], counted from 1 as [f_month] and
    [a_month] hold an empty entry at index 0. *)
Fixpoint month_index (names : list String.string) (s : str) : option Z :=
  match names with
  | [] => None
  | n :: names' =>
      if str_eqb (map lower s) (String.list_ascii_of_string n) then Some 1%Z
      else option_map Z.succ (month_index names' s)
  end.

(** The month of a match: [%m] as a number, else [%B], else [%b] by
    name. *)
Definition month_of (m : Match) : option Z :=
  match group m gm with
  | Some t => py_int t
  | None =>
      match group m gB with
      | Some t => month_index f_month t
      | None =>
          match group m gb with
          | Some t => month_index a_month t
          | None => Some 1%Z
          end
      end
  end.

(** A numeric field of a match, or its default when the format holds
    no such directive. *)
Definition int_field (m : Match) (g : nat) (default : Z) : option Z :=
  match group m g with
  | Some t => py_int t
  | None => Some default
  end.

(** [datetime.strptime(s, fmt)] as (year, month, day); [None] stands
    for [ValueError]: no match, unconverted text left, or a date that
    [datetime_date(year, month, day)] refuses. *)
Definition strptime (s : str) (fmt : list directive) : option (Z * Z * Z) :=
  match match_ true (pattern fmt) s with
  | None => None
  | Some m =>
      if negb (m_end m =? length s) then None
      else
        match int_field m gY 1900%Z, month_of m, int_field m gd 1%Z with
        | Some y, Some mo, Some d =>
            if valid_date y mo d then Some (y, mo, d) else None
        | _, _, _ => None
        end
  end.

End Strptime.

(** ** [os.path] (POSIX) *)

(** [s.rfind(c)]: the last index of [c], or -1. *)
Fixpoint rfind_from (c : ascii) (s : str) (i : Z) (last : Z) : Z :=
  match s with
  | [] => last
  | x :: s' => rfind_from c s' (i + 1)%Z (if ascii_eqb x c then i else last)
  end.

Definition rfind (c : ascii) (s : str) : Z := rfind_from c s 0%Z (-1)%Z.

(** [os.path.basename(p)]: [p[p.rfind('/') + 1:]]. *)
Definition basename (p : str) : str := skipn (Z.to_nat (rfind "/" p + 1)) p.

(** [os.path.splitext(p)]: split at the last dot, unless only dots
    stand between the last separator and it. *)
Definition splitext (p : str) : str * str :=
  let sepIndex := rfind "/" p in
  let dotIndex := rfind "." p in
  if (sepIndex <? dotIndex)%Z then
    let between_ := slice p (Z.to_nat (sepIndex + 1)) (Z.to_nat dotIndex) in
    if forallb (fun c => ascii_eqb c ".") between_ then (p, [])
    else (firstn (Z.to_nat dotIndex) p, skipn (Z.to_nat dotIndex) p)
  else (p, []).

(** ** The identity extractor and the date resolver *)

Import Strptime.

Definition letters : list item := [Range "A" "Z"; Range "a" "z"].
Definition name_chars : list item := [Range "A" "Z"; Range "a" "z"; Ch "'"; Ch "-"].
Definition colon_dash : list item := [Ch ":"; Ch "-"].
Definition slash_dash : list item := [Ch "/"; Ch "-"].

(** [[A-Za-z][A-Za-z'\-]+\s+[A-Za-z][A-Za-z'\-]+] *)
Definition two_tokens : regex :=
  seqs [OneOf letters; plus name_chars; plus [Space]; OneOf letters; plus name_chars].

(** [(?:Patient Name|Name)\s*[:\-]?\s*([A-Za-z][A-Za-z'\-]+\s+[A-Za-z][A-Za-z'\-]+)] *)
Definition name_re : regex :=
  seqs [alts [literal "Patient Name"; literal "Name"];
        star [Space]; opt colon_dash; star [Space];
        Group 1 two_tokens].

(** [[A-Za-z]{3,9}\s+\d{1,2},\s+\d{4}] *)
Definition long_date : regex :=
  seqs [times letters 3 9; plus [Space]; times [Digit] 1 2; Lit ",";
        plus [Space]; times [Digit] 4 4].

(** [\d{1,2}[\/\-]\d{1,2}[\/\-]\d{2,4}] *)
Definition short_date : regex :=
  seqs [times [Digit] 1 2; OneOf slash_dash; times [Digit] 1 2; OneOf slash_dash;
        times [Digit] 2 4].

(** [\d{4}[\/\-]\d{1,2}[\/\-]\d{1,2}] *)
Definition ymd_date : regex :=
  seqs [times [Digit] 4 4; OneOf slash_dash; times [Digit] 1 2; OneOf slash_dash;
        times [Digit] 1 2].

(** [\d{1,2}[\/\-]\d{1,2}[\/\-]\d{4}] *)
Definition dmy_date : regex :=
  seqs [times [Digit] 1 2; OneOf slash_dash; times [Digit] 1 2; OneOf slash_dash;
        times [Digit] 4 4].

(** [(?:DOB|Date of Birth)\s*[:\-]?\s*(<long date>|<short date>)] *)
Definition dob_re : regex :=
  seqs [alts [literal "DOB"; literal "Date of Birth"];
        star [Space]; opt colon_dash; star [Space];
        Group 1 (Alt long_date short_date)].

Definition _extract_name (text : str) : option str :=
  match search true name_re text with
  | Some m => option_map strip (group m 1)
  | None => None
  end.

(** The formats of [_parse_date_string], in the order of the list. *)
Definition date_formats : list (list directive) :=
  [ [DY; DChar "-"; Dm; DChar "-"; Dd];            (* %Y-%m-%d *)
    [DY; DChar "/"; Dm; DChar "/"; Dd];            (* %Y/%m/%d *)
    [Dm; DChar "/"; Dd; DChar "/"; DY];            (* %m/%d/%Y *)
    [Dd; DChar "/"; Dm; DChar "/"; DY];            (* %d/%m/%Y *)
    [Dm; DChar "-"; Dd; DChar "-"; DY];            (* %m-%d-%Y *)
    [Dd; DChar "-"; Dm; DChar "-"; DY];            (* %d-%m-%Y *)
    [DB; DSpace; Dd; DChar ","; DSpace; DY];       (* %B %d, %Y *)
    [Db; DSpace; Dd; DChar ","; DSpace; DY] ].     (* %b %d, %Y *)

(** The loop of [_parse_date_string]: the first format that parses. *)
Fixpoint parse_with (fmts : list (list directive)) (s : str) : option str :=
  match fmts with
  | [] => None
  | fmt :: fmts' =>
      match strptime (strip s) fmt with
      | Some (y, m, d) => Some (isoformat y m d)
      | None => parse_with fmts' s
      end
  end.

Definition _parse_date_string (s : str) : option str := parse_with date_formats s.

(** [a or b] on optional text. *)
Definition or_else (a : option str) (b : option str) : option str :=
  if truthy_opt a then a else b.

Definition _extract_dob (text : str) : option str :=
  match search true dob_re text with
  | Some m =>
      match group m 1 with
      | Some g => or_else (_parse_date_string g) (Some g)
      | None => None
      end
  | None => None
  end.

Definition date_labels : list String.string :=
  ["Report Date"; "Collection Date"; "Collected"; "Sample Date";
   "Date of Service"; "Order Date"; "Specimen Date"; "Date"]%string.

(** The first pattern of [extract_lab_date] also lists "Report
    Generated". *)
Definition date_labels_long : list String.string :=
  ["Report Date"; "Collection Date"; "Collected"; "Sample Date";
   "Date of Service"; "Report Generated"; "Order Date"; "Specimen Date";
   "Date"]%string.

Definition labeled (labels : list String.string) (date : regex) : regex :=
  seqs [alts (map literal labels); star [Space]; opt colon_dash; star [Space];
        Group 1 date].

Definition month_abbrevs : list String.string :=
  ["Jan"; "Feb"; "Mar"; "Apr"; "May"; "Jun"; "Jul"; "Aug"; "Sep"; "Sept";
   "Oct"; "Nov"; "Dec"]%string.

(** The three labeled patterns of [extract_lab_date]. *)
Definition labeled_patterns : list regex :=
  [ labeled date_labels_long
      (seqs [times letters 3 9; plus [Space]; times [Digit] 1 2; Lit ",";
             plus [Space]; times [Digit] 4 4]);
    labeled date_labels ymd_date;
    labeled date_labels dmy_date ].

(** Its three bare patterns. *)
Definition bare_patterns : list regex :=
  [ seqs [WordBoundary; ymd_date; WordBoundary];
    seqs [WordBoundary; dmy_date; WordBoundary];
    seqs [WordBoundary; alts (map literal month_abbrevs); star [Range "a" "z"];
          plus [Space]; times [Digit] 1 2; Lit ","; plus [Space];
          times [Digit] 4 4; WordBoundary] ].

Definition patterns : list regex := labeled_patterns ++ bare_patterns.

(** Number of capturing groups of a pattern ([len(m.groups())]). *)
Fixpoint ngroups (r : regex) : nat :=
  match r with
  | Seq a b | Alt a b => ngroups a + ngroups b
  | Group _ a => S (ngroups a)
  | _ => 0
  end.

(** The loop of [extract_lab_date] over a list of patterns: the first
    pattern whose first match in the text parses as a date. *)
Fixpoint first_date (pats : list regex) (text : str) : option str :=
  match pats with
  | [] => None
  | pat :: pats' =>
      match search true pat text with
      | Some m =>
          let candidate := if 0 <? ngroups pat then group m 1 else group m 0 in
          match candidate with
          | Some c =>
              match _parse_date_string c with
              | Some iso => if truthy iso then Some iso else first_date pats' text
              | None => first_date pats' text
              end
          | None => first_date pats' text
          end
      | None => first_date pats' text
      end
  end.

Definition extract_lab_date (text : str) : option str := first_date patterns text.

(** ** [hashlib.sha256] and [hmac] (FIPS 180-4, RFC 2104)

    Bytes and 32-bit words are integers; the additions wrap around at
    2^32. *)
Module Sha256.
#[local] Open Scope Z_scope.

(** The first 64 primes.  The round constants are the first 32 bits of
    the fractional parts of their cube roots, the initial hash value
    those of the square roots of the first 8. *)
Definition primes : list Z :=
  [2; 3; 5; 7; 11; 13; 17; 19; 23; 29; 31; 37; 41; 43; 47; 53; 59; 61; 67; 71;
   73; 79; 83; 89; 97; 101; 103; 107; 109; 113; 127; 131; 137; 139; 149; 151;
   157; 163; 167; 173; 179; 181; 191; 193; 197; 199; 211; 223; 227; 229; 233;
   239; 241; 251; 257; 263; 269; 271; 277; 281; 283; 293; 307; 311].

(** The integer cube root, bit by bit from bit [k - 1] down. *)
Fixpoint cbrt_bits (k : nat) (acc n : Z) : Z :=
  match k with
  | O => acc
  | S k' =>
      let cand := acc + 2 ^ Z.of_nat k' in
      if cand * cand * cand <=? n then cbrt_bits k' cand n else cbrt_bits k' acc n
  end.

Definition frac_cbrt32 (p : Z) : Z := cbrt_bits 40 0 (p * 2 ^ 96) mod 2 ^ 32.
Definition frac_sqrt32 (p : Z) : Z := Z.sqrt (p * 2 ^ 64) mod 2 ^ 32.

Definition K : list Z := Eval vm_compute in map frac_cbrt32 primes.

Definition H0 : list Z := Eval vm_compute in map frac_sqrt32 (firstn 8 primes).

Definition w32 (x : Z) : Z := x mod 2 ^ 32.
Definition add32 (x y : Z) : Z := w32 (x + y).
Definition rotr (n x : Z) : Z := w32 (Z.lor (Z.shiftr x n) (Z.shiftl x (32 - n))).
Definition not32 (x : Z) : Z := Z.lxor x 0xffffffff.
Definition xor3 (x y z : Z) : Z := Z.lxor (Z.lxor x y) z.

Definition ssig0 (x : Z) : Z := xor3 (rotr 7 x) (rotr 18 x) (Z.shiftr x 3).
Definition ssig1 (x : Z) : Z := xor3 (rotr 17 x) (rotr 19 x) (Z.shiftr x 10).
Definition bsig0 (x : Z) : Z := xor3 (rotr 2 x) (rotr 13 x) (rotr 22 x).
Definition bsig1 (x : Z) : Z := xor3 (rotr 6 x) (rotr 11 x) (rotr 25 x).
Definition ch (x y z : Z) : Z := Z.lxor (Z.land x y) (Z.land (not32 x) z).
Definition maj (x y z : Z) : Z := xor3 (Z.land x y) (Z.land x z) (Z.land y z).

(** Padding: a 1 bit, zeros up to 56 modulo 64, the bit length on 8
    bytes. *)
Definition be_bytes (n : nat) (x : Z) : list Z :=
  map (fun i => Z.shiftr x (8 * Z.of_nat i) mod 256) (rev (seq 0 n)).

Definition pad (msg : list Z) : list Z :=
  let len := Z.of_nat (length msg) in
  let zeros := Z.to_nat ((55 - len) mod 64) in
  msg ++ [0x80] ++ repeat 0 zeros ++ be_bytes 8 (8 * len).

Fixpoint words (fuel : nat) (bs : list Z) : list Z :=
  match fuel, bs with
  | S f, b0 :: b1 :: b2 :: b3 :: bs' =>
      (((b0 * 256 + b1) * 256 + b2) * 256 + b3) :: words f bs'
  | _, _ => []
  end.

Definition at_ (w : list Z) (i : nat) : Z := nth i w 0.

(** The message schedule: 16 words of the block, extended to 64. *)
Fixpoint schedule (n : nat) (w : list Z) : list Z :=
  match n with
  | O => w
  | S n' =>
      let t := length w in
      schedule n' (w ++ [add32 (add32 (ssig1 (at_ w (t - 2))) (at_ w (t - 7)))
                               (add32 (ssig0 (at_ w (t - 15))) (at_ w (t - 16)))])
  end.

Record regs : Type := mkRegs { ra : Z; rb : Z; rc : Z; rd : Z; re : Z; rf : Z; rg : Z; rh : Z }.

Definition round (s : regs) (kw : Z * Z) : regs :=
  let t1 := add32 (add32 (add32 (rh s) (bsig1 (re s))) (ch (re s) (rf s) (rg s)))
                  (add32 (fst kw) (snd kw)) in
  let t2 := add32 (bsig0 (ra s)) (maj (ra s) (rb s) (rc s)) in
  mkRegs (add32 t1 t2) (ra s) (rb s) (rc s) (add32 (rd s) t1) (re s) (rf s) (rg s).

Definition compress (h : regs) (block : list Z) : regs :=
  let w := schedule 48 (words 16 block) in
  let s := fold_left round (combine K w) h in
  mkRegs (add32 (ra h) (ra s)) (add32 (rb h) (rb s)) (add32 (rc h) (rc s))
         (add32 (rd h) (rd s)) (add32 (re h) (re s)) (add32 (rf h) (rf s))
         (add32 (rg h) (rg s)) (add32 (rh h) (rh s)).

Fixpoint blocks (fuel : nat) (h : regs) (bs : list Z) : regs :=
  match fuel, bs with
  | S f, _ :: _ => blocks f (compress h (firstn 64 bs)) (skipn 64 bs)
  | _, _ => h
  end.

Definition init : regs :=
  mkRegs (at_ H0 0) (at_ H0 1) (at_ H0 2) (at_ H0 3)
         (at_ H0 4) (at_ H0 5) (at_ H0 6) (at_ H0 7).

(** The digest, 32 bytes. *)
Definition sha256 (msg : list Z) : list Z :=
  let p := pad msg in
  let h := blocks (length p) init p in
  flat_map (be_bytes 4) [ra h; rb h; rc h; rd h; re h; rf h; rg h; rh h].

(** [hmac.new(key, msg, hashlib.sha256).digest()]. *)
Definition hmac (key msg : list Z) : list Z :=
  let key := if 64 <? Z.of_nat (length key) then sha256 key else key in
  let key := key ++ repeat 0 (64 - length key)%nat in
  let ipad := map (Z.lxor 0x36) key in
  let opad := map (Z.lxor 0x5c) key in
  sha256 (opad ++ sha256 (ipad ++ msg)).

Definition hex_digit (n : Z) : ascii :=
  if n <? 10 then chr (48 + Z.to_nat n) else chr (87 + Z.to_nat n).

(** [hexdigest()]: two lower-case hexadecimal digits per byte. *)
Definition hex (bs : list Z) : str :=
  flat_map (fun b => [hex_digit (b / 16); hex_digit (b mod 16)]) bs.

(** [s.encode("utf-8")] for code points below 256. *)
Definition utf8 (s : str) : list Z :=
  flat_map (fun c =>
    let n := Z.of_nat (ord c) in
    if n <? 128 then [n]
    else [Z.lor 0xC0 (Z.shiftr n 6); Z.lor 0x80 (Z.land n 0x3F)]) s.

Definition hmac_hexdigest (key msg : str) : str := hex (hmac (utf8 key) (utf8 msg)).

End Sha256.

(** ** Filename inference *)

Definition seps : list item := [Ch "."; Ch "_"; Ch "-"; Ch " "].
Definition d2 : regex := times [Digit] 2 2.

(** [\b(\d{4})[._\- ]?(\d{2})[._\- ]?(\d{2})\b] *)
Definition re_4_2_2 : regex :=
  seqs [WordBoundary; Group 1 (times [Digit] 4 4); opt seps; Group 2 d2; opt seps;
        Group 3 d2; WordBoundary].

(** [\b(\d{2})[._\- ](\d{2})[._\- ](\d{2})\b] *)
Definition re_2_2_2 : regex :=
  seqs [WordBoundary; Group 1 d2; OneOf seps; Group 2 d2; OneOf seps; Group 3 d2; WordBoundary].

(** [\b(\d{2})(\d{2})(\d{2})\b] *)
Definition re_6 : regex :=
  seqs [WordBoundary; Group 1 d2; Group 2 d2; Group 3 d2; WordBoundary].

(** Outcome of a computation that may raise. *)
Inductive exn : Type :=
| ValueError | ReError | RedisError | JSONDecodeError | ServiceError (what : str)
| KeyError | TypeError | AttributeError | IndexError.

Inductive outcome (A : Type) : Type :=
| Ok (a : A)
| Raise (e : exn).
Arguments Ok {A} a.
Arguments Raise {A} e.

(** The three groups of a match, through [int]. *)
Definition int_groups (m : Match) : option (Z * Z * Z) :=
  match group m 1, group m 2, group m 3 with
  | Some t1, Some t2, Some t3 =>
      match py_int t1, py_int t2, py_int t3 with
      | Some a, Some b, Some c => Some (a, b, c)
      | _, _, _ => None
      end
  | _, _, _ => None
  end.

(** The two trials the program runs on three two-digit numbers: DDMMYY
    first, then YYMMDD, each year read as [2000 + yy]. *)
Definition ddmmyy_or_yymmdd (a b c : Z) : option str :=
  match date_iso (2000 + c) b a with
  | Some iso => Some iso
  | None => date_iso (2000 + a) b c
  end.

(** Step 1: the explicit 4-2-2 form; the conversion and the
    constructor both stand inside the [try]. *)
Definition step_4_2_2 (name_norm : str) : option str :=
  match search false re_4_2_2 name_norm with
  | Some m =>
      match int_groups m with
      | Some (y, mo, d) => date_iso y mo d
      | None => None
      end
  | None => None
  end.

(** Steps 2 and 3: a 2-2-2 form, separated or compact.  [int] is applied
    outside any [try] here: [Raise] if it fails, [Ok None] when the step
    resolves nothing. *)
Definition step_2_2_2 (r : regex) (name_norm : str) : outcome (option str) :=
  match search false r name_norm with
  | Some m =>
      match int_groups m with
      | Some (a, b, c) => Ok (ddmmyy_or_yymmdd a b c)
      | None => Raise ValueError
      end
  | None => Ok None
  end.

(** Step 4: the 6-digit chunks, left to right. *)
Fixpoint step_chunks (chunks : list str) : option str :=
  match chunks with
  | [] => None
  | chunk :: rest =>
      match py_int (slice chunk 0 2), py_int (slice chunk 2 4), py_int (slice chunk 4 6) with
      | Some a, Some b, Some c =>
          match ddmmyy_or_yymmdd a b c with
          | Some iso => Some iso
          | None => step_chunks rest
          end
      | _, _, _ => step_chunks rest
      end
  end.

(** [name_norm]: the base name without its extension, each run of white
    space replaced by one space. *)
Definition name_norm_of (filename : str) : str :=
  sub_with false (plus [Space]) (fun _ => py " ") (fst (splitext (basename filename))).

Definition extract_date_from_filename (filename : str) : outcome (option str) :=
  let name_norm := name_norm_of filename in
  match step_4_2_2 name_norm with
  | Some iso => Ok (Some iso)
  | None =>
      match step_2_2_2 re_2_2_2 name_norm with
      | Raise e => Raise e
      | Ok (Some iso) => Ok (Some iso)
      | Ok None =>
          match step_2_2_2 re_6 name_norm with
          | Raise e => Raise e
          | Ok (Some iso) => Ok (Some iso)
          | Ok None => Ok (step_chunks (findall false (times [Digit] 6 6) name_norm))
          end
      end
  end.

(** ** Replacement templates of [re.sub]

    A replacement holding a backslash is parsed for escapes before any
    substitution (CPython 3.11, [parse_template]); the patterns the
    program substitutes with have no group, so the only reference that
    parses is the whole match, [\g<0>]. *)
Module Template.

Inductive piece : Type :=
| PChar (c : ascii)
| PWhole.                       (* \g<0> *)

Definition is_octal (c : ascii) : bool := between 48 (ord c) 55.
Definition oct (c : ascii) : nat := ord c - 48.

(** The text up to the first [>], and what follows it. *)
Fixpoint until_gt (s : str) : option (str * str) :=
  match s with
  | [] => None
  | c :: s' =>
      if ascii_eqb c ">" then Some ([], s')
      else match until_gt s' with
           | Some (name, rest) => Some (c :: name, rest)
           | None => None
           end
  end.

Definition simple_escape (c : ascii) : option ascii :=
  if ascii_eqb c "a" then Some (chr 7)
  else if ascii_eqb c "b" then Some (chr 8)
  else if ascii_eqb c "f" then Some (chr 12)
  else if ascii_eqb c "n" then Some (chr 10)
  else if ascii_eqb c "r" then Some (chr 13)
  else if ascii_eqb c "t" then Some (chr 9)
  else if ascii_eqb c "v" then Some (chr 11)
  else if ascii_eqb c "\" then Some "\"%char
  else None.

Fixpoint parse (fuel : nat) (s : str) : outcome (list piece) :=
  let cons_ (ps : list piece) (rest : str) (f : nat) :=
    match parse f rest with
    | Ok qs => Ok (ps ++ qs)
    | Raise e => Raise e
    end in
  match fuel with
  | O => Ok []
  | S f =>
      match s with
      | [] => Ok []
      | c :: rest =>
          if negb (ascii_eqb c "\") then cons_ [PChar c] rest f
          else
            match rest with
            | [] => Raise ReError                      (* bad escape (end of pattern) *)
            | e :: rest1 =>
                if ascii_eqb e "g" then
                  match rest1 with
                  | lt :: rest2 =>
                      if ascii_eqb lt "<" then
                        match until_gt rest2 with
                        | Some (name, rest3) =>
                            match py_int name with
                            | Some 0%Z => cons_ [PWhole] rest3 f
                            | _ => Raise ReError      (* unknown or invalid group *)
                            end
                        | None => Raise ReError
                        end
                      else Raise ReError               (* missing < *)
                  | [] => Raise ReError
                  end
                else if ascii_eqb e "0" then
                  match rest1 with
                  | o1 :: o2 :: rest3 =>
                      if is_octal o1 && is_octal o2
                      then cons_ [PChar (chr ((8 * oct o1 + oct o2) mod 256))] rest3 f
                      else if is_octal o1 then cons_ [PChar (chr (oct o1))] (o2 :: rest3) f
                      else cons_ [PChar (chr 0)] rest1 f
                  | [o1] =>
                      if is_octal o1 then cons_ [PChar (chr (oct o1))] [] f
                      else cons_ [PChar (chr 0)] rest1 f
                  | [] => cons_ [PChar (chr 0)] [] f
                  end
                else if isdecimal e then
                  match rest1 with
                  | o1 :: o2 :: rest3 =>
                      if is_octal e && is_octal o1 && is_octal o2 then
                        let v := 64 * oct e + 8 * oct o1 + oct o2 in
                        if 255 <? v then Raise ReError else cons_ [PChar (chr v)] rest3 f
                      else Raise ReError               (* invalid group reference *)
                  | _ => Raise ReError
                  end
                else
                  match simple_escape e with
                  | Some x => cons_ [PChar x] rest1 f
                  | None =>
                      if is_letter e then Raise ReError  (* bad escape *)
                      else cons_ [PChar c; PChar e] rest1 f
                  end
            end
      end
  end.

Definition parse_template (repl : str) : outcome (list piece) :=
  parse (S (length repl)) repl.

Definition expand (ps : list piece) (m : Match) : str :=
  flat_map (fun p => match p with
                     | PChar c => [c]
                     | PWhole => slice (m_string m) (m_start m) (m_end m)
                     end) ps.

(** [re.sub(re.escape(old), repl, s)]. *)
Definition sub_escaped (old repl s : str) : outcome str :=
  match parse_template repl with
  | Ok ps => Ok (sub_with false (escape old) (expand ps) s)
  | Raise e => Raise e
  end.

End Template.

(** ** JSON values

    What [json.loads] returns: [None], a [bool], an [int], a [float], a
    [str], a [list], or a [dict] whose keys are [str].  A [float] is kept
    as the text of its [repr] (the program only tests, prints and dumps
    it); a [dict] keeps its members in insertion order, each key once. *)

Unset Elimination Schemes.
Inductive JSON : Type :=
| JNull
| JBool (b : bool)
| JInt (n : Z)
| JFloat (repr : str)
| JStr (s : str)
| JArr (items : list JSON)
| JObj (members : list (str * JSON)).
Set Elimination Schemes.

(** Lookup and assignment on the members of a [dict]: an assignment to
    a key already there keeps its place, a new key goes last. *)
Fixpoint dict_get (o : list (str * JSON)) (k : str) : option JSON :=
  match o with
  | [] => None
  | (k', v) :: o' => if str_eqb k' k then Some v else dict_get o' k
  end.

Fixpoint dict_set (o : list (str * JSON)) (k : str) (v : JSON) : list (str * JSON) :=
  match o with
  | [] => [(k, v)]
  | (k', v') :: o' => if str_eqb k' k then (k', v) :: o' else (k', v') :: dict_set o' k v
  end.

(** Truth value: [None], [False], zero and the empty text, list and
    dict are false. *)
Definition truthy_json (x : JSON) : bool :=
  match x with
  | JNull => false
  | JBool b => b
  | JInt n => negb (n =? 0)%Z
  | JFloat r => negb (str_eqb r (py "0.0") || str_eqb r (py "-0.0"))
  | JStr s => truthy s
  | JArr l => match l with [] => false | _ => true end
  | JObj o => match o with [] => false | _ => true end
  end.

(** [x[-1]]. *)
Definition subscript_last (x : JSON) : outcome JSON :=
  match x with
  | JArr l => match last l with Some e => Ok e | None => Raise IndexError end
  | JStr s => match last s with Some c => Ok (JStr [c]) | None => Raise IndexError end
  | JObj _ => Raise KeyError
  | _ => Raise TypeError
  end.

(** [x[k]] for a text [k]. *)
Definition subscript (x : JSON) (k : str) : outcome JSON :=
  match x with
  | JObj o => match dict_get o k with Some v => Ok v | None => Raise KeyError end
  | _ => Raise TypeError
  end.

(** [x.get(k, default)]: a method of [dict] only. *)
Definition get_method (x : JSON) (k : str) (default : JSON) : outcome JSON :=
  match x with
  | JObj o => Ok (match dict_get o k with Some v => v | None => default end)
  | _ => Raise AttributeError
  end.

(** [x[k] = v] for a text [k]. *)
Definition setitem (x : JSON) (k : str) (v : JSON) : outcome JSON :=
  match x with
  | JObj o => Ok (JObj (dict_set o k v))
  | _ => Raise TypeError
  end.

(** The items [for item in x] visits: the elements of a list, the keys
    of a dict, the characters of a text. *)
Definition iterate (x : JSON) : outcome (list JSON) :=
  match x with
  | JArr l => Ok l
  | JObj o => Ok (map (fun kv => JStr (fst kv)) o)
  | JStr s => Ok (map (fun c => JStr [c]) s)
  | _ => Raise TypeError
  end.

(** [x.append(e)]: a method of [list] only. *)
Definition append_method (x e : JSON) : outcome JSON :=
  match x with
  | JArr l => Ok (JArr (l ++ [e]))
  | _ => Raise AttributeError
  end.

(** [x in ['HIGH', 'LOW']]: only a text equals a text. *)
Definition is_text (x : JSON) (s : str) : bool :=
  match x with JStr t => str_eqb t s | _ => false end.

Definition high_or_low (x : JSON) : bool := is_text x (py "HIGH") || is_text x (py "LOW").

(** [str(x)], as an f-string formats [x]: a text is itself, anything
    else is its [repr]. *)
Fixpoint decimal_rev (fuel : nat) (n : Z) : str :=
  match fuel with
  | O => []
  | S f => chr (48 + Z.to_nat (n mod 10))
           :: (if (n / 10 =? 0)%Z then [] else decimal_rev f (n / 10)%Z)
  end.

Definition int_str (n : Z) : str :=
  let digits := rev (decimal_rev (S (Z.to_nat (Z.log2 (Z.abs n)))) (Z.abs n)) in
  if (n <? 0)%Z then "-"%char :: digits else digits.

Definition isprintable (c : ascii) : bool :=
  negb (ord c <? 32) && negb (between 127 (ord c) 160) && negb (ord c =? 173).

Definition double_quote : ascii := chr 34.

Definition quote_of (s : str) : ascii :=
  if existsb (ascii_eqb "'") s && negb (existsb (ascii_eqb double_quote) s)
  then double_quote else "'"%char.

Definition repr_char (quote c : ascii) : str :=
  if ascii_eqb c quote || ascii_eqb c "\" then ["\"%char; c]
  else if ord c =? 9 then py "\t"
  else if ord c =? 10 then py "\n"
  else if ord c =? 13 then py "\r"
  else if isprintable c then [c]
  else py "\x" ++ Sha256.hex [Z.of_nat (ord c)].

Definition str_repr (s : str) : str :=
  quote_of s :: flat_map (repr_char (quote_of s)) s ++ [quote_of s].

Fixpoint join (sep : str) (parts : list str) : str :=
  match parts with
  | [] => []
  | p :: ps => match ps with [] => p | _ => p ++ sep ++ join sep ps end
  end.

Fixpoint py_repr (x : JSON) : str :=
  match x with
  | JNull => py "None"
  | JBool true => py "True"
  | JBool false => py "False"
  | JInt n => int_str n
  | JFloat r => r
  | JStr s => str_repr s
  | JArr l => py "[" ++ join (py ", ") (map py_repr l) ++ py "]"
  | JObj o =>
      py "{" ++ join (py ", ") (map (fun '(k, v) => str_repr k ++ py ": " ++ py_repr v) o)
      ++ py "}"
  end.

Definition py_str (x : JSON) : str :=
  match x with JStr s => s | _ => py_repr x end.

(** ** The world: configuration, external services, store, clock *)

(** A text held by the store, by what [json.loads] makes of it:
    [Dump x] is a text that decodes to [x] ([json.dumps(x)] is one, and
    [json.loads(json.dumps(x))] is [x] for the values above);
    [Undecodable s] is a text [s] that [json.loads] rejects. *)
Inductive RedisText : Type :=
| Dump (x : JSON)
| Undecodable (s : str).

(** The optional vault client, by the method it offers.  [insert]
    receives the name and date-of-birth fields of the payload and
    answers with the token the response holds for the name field, if
    any. *)
Inductive Vault : Type :=
| VaultInsert (insert : str -> str -> outcome (option str))
| VaultTokenize (tokenize : str -> str -> outcome unit)
| VaultOther.

Record struct_time : Type := mkTime {
  tm_year : Z; tm_mon : Z; tm_mday : Z; tm_hour : Z; tm_min : Z; tm_sec : Z
}.

(** The lines the program prints. *)
Inductive LogLine : Type :=
| LogScrubbed (patient_token : str)
| LogRedisUnavailable (e : exn)
| LogSending
| LogAnalysisUnavailable (e : exn)
| LogSearching (biomarker : str)
| LogSaveSkipped (e : exn)
| LogSkyflowSkipped (e : exn).

Record World : Type := mkWorld {
  (* configuration, read from the environment at start-up or per call *)
  PATIENT_TOKEN_SALT : option str;
  PARALLEL_API_KEY : option str;
  SKYFLOW_ENABLED : bool;
  skyflow_client : option Vault;
  (* the analysis service, from the sanitized text and the previous
     biomarkers of the message to what [json.loads] makes of the reply;
     it raises when the call or the decoding does *)
  anthropic : str -> option JSON -> outcome JSON;
  (* the store, and whether its n-th call fails *)
  redis_data : gmap (list ascii) RedisText;
  redis_fault : nat -> bool;
  redis_calls : nat;
  (* the clock: the n-th reading of [time.gmtime()] *)
  clock : nat -> struct_time;
  clock_reads : nat;
  (* the random source: the n-th [uuid.uuid4()] as text *)
  uuid_source : nat -> str;
  uuid_draws : nat;
  stdout : list LogLine
}.

(** Computations on the world that may raise. *)
Definition M (A : Type) : Type := World -> outcome A * World.

Definition ret {A : Type} (a : A) : M A := fun w => (Ok a, w).

Definition bind {A B : Type} (m : M A) (k : A -> M B) : M B :=
  fun w => match m w with
           | (Ok a, w') => k a w'
           | (Raise e, w') => (Raise e, w')
           end.

Definition lift {A : Type} (o : outcome A) : M A := fun w => (o, w).

(** [try: body except Exception as e: handler]. *)
Definition try_except {A : Type} (body : M A) (handler : exn -> M A) : M A :=
  fun w => match body w with
           | (Ok a, w') => (Ok a, w')
           | (Raise e, w') => handler e w'
           end.

Notation "x <- m ;; k" := (bind m (fun x => k))
  (at level 100, m at next level, right associativity).
Notation "m ;; k" := (bind m (fun _ => k))
  (at level 100, right associativity).

Definition print (l : LogLine) : M unit :=
  fun w => (Ok tt, mkWorld (PATIENT_TOKEN_SALT w) (PARALLEL_API_KEY w) (SKYFLOW_ENABLED w)
                      (skyflow_client w) (anthropic w) (redis_data w) (redis_fault w)
                      (redis_calls w) (clock w) (clock_reads w) (uuid_source w)
                      (uuid_draws w) (stdout w ++ [l])).

(** [str(uuid.uuid4())]. *)
Definition uuid4 : M str :=
  fun w => (Ok (uuid_source w (uuid_draws w)),
            mkWorld (PATIENT_TOKEN_SALT w) (PARALLEL_API_KEY w) (SKYFLOW_ENABLED w)
              (skyflow_client w) (anthropic w) (redis_data w) (redis_fault w)
              (redis_calls w) (clock w) (clock_reads w) (uuid_source w)
              (S (uuid_draws w)) (stdout w)).

(** [time.gmtime()]. *)
Definition gmtime : M struct_time :=
  fun w => (Ok (clock w (clock_reads w)),
            mkWorld (PATIENT_TOKEN_SALT w) (PARALLEL_API_KEY w) (SKYFLOW_ENABLED w)
              (skyflow_client w) (anthropic w) (redis_data w) (redis_fault w)
              (redis_calls w) (clock w) (S (clock_reads w)) (uuid_source w)
              (uuid_draws w) (stdout w)).

(** One call to the store: it fails when the fault oracle says so. *)
Definition redis_call {A : Type} (f : gmap (list ascii) RedisText -> A * gmap (list ascii) RedisText) : M A :=
  fun w =>
    let n := redis_calls w in
    let w1 d := mkWorld (PATIENT_TOKEN_SALT w) (PARALLEL_API_KEY w) (SKYFLOW_ENABLED w)
                  (skyflow_client w) (anthropic w) d (redis_fault w)
                  (S n) (clock w) (clock_reads w) (uuid_source w)
                  (uuid_draws w) (stdout w) in
    if redis_fault w n then (Raise RedisError, w1 (redis_data w))
    else let '(a, d) := f (redis_data w) in (Ok a, w1 d).

(** [r.get(key)] and [r.set(key, value)]. *)
Definition redis_get (key : str) : M (option RedisText) :=
  redis_call (fun d => (d !! key, d)).

Definition redis_set (key : str) (value : RedisText) : M unit :=
  redis_call (fun d => (tt, <[key := value]> d)).

(** A text that decodes is not empty. *)
Definition truthy_text (t : RedisText) : bool :=
  match t with Dump _ => true | Undecodable s => truthy s end.

Definition json_loads (t : RedisText) : outcome JSON :=
  match t with Dump x => Ok x | Undecodable _ => Raise JSONDecodeError end.

Definition json_dumps (x : JSON) : RedisText := Dump x.

(** [time.strftime("%Y-%m-%dT%H:%M:%SZ", t)] and
    [time.strftime("%Y-%m-%d", t)]. *)
Definition strftime_date (t : struct_time) : str :=
  pad_num 4 (tm_year t) ++ py "-" ++ pad_num 2 (tm_mon t) ++ py "-" ++ pad_num 2 (tm_mday t).

Definition strftime_stamp (t : struct_time) : str :=
  strftime_date t ++ py "T" ++ pad_num 2 (tm_hour t) ++ py ":" ++ pad_num 2 (tm_min t)
  ++ py ":" ++ pad_num 2 (tm_sec t) ++ py "Z".

(** ** The token deriver and the redactor *)

Definition ask : M World := fun w => (Ok w, w).

(** [os.getenv("PATIENT_TOKEN_SALT", "bio-hacker-salt")]. *)
Definition getenv_salt : M str :=
  w <- ask ;;
  ret (match PATIENT_TOKEN_SALT w with Some s => s | None => py "bio-hacker-salt" end).

(** [x or ''] for an optional text. *)
Definition or_empty (o : option str) : str :=
  match o with Some s => s | None => [] end.

(** The composite key [f"{name or ''}|{dob or ''}".strip()]. *)
Definition composite_key (name dob : option str) : str :=
  strip (or_empty name ++ py "|" ++ or_empty dob).

Definition _stable_patient_token (name dob : option str) : M str :=
  let key := composite_key name dob in
  base <- (if truthy key then ret key else uuid4) ;;
  salt <- getenv_salt ;;
  let digest := Sha256.hmac_hexdigest salt base in
  ret (py "PT_" ++ firstn 24 digest).

(** The vault block of [scrub_pii]: the outer [try] logs and skips, the
    inner one passes silently. *)
Definition vault_path (client : Vault) (name dob : option str) (scrubbed : str) : M str :=
  try_except
    (match client with
     | VaultInsert insert =>
         tname <- lift (insert (or_empty name) (or_empty dob)) ;;
         match tname, name with
         | Some t, Some n =>
             if truthy t && truthy n then
               match Template.sub_escaped n t scrubbed with
               | Ok s => ret s
               | Raise _ => ret scrubbed
               end
             else ret scrubbed
         | _, _ => ret scrubbed
         end
     | VaultTokenize tokenize =>
         lift (tokenize (or_empty name) (or_empty dob)) ;; ret scrubbed
     | VaultOther => ret scrubbed
     end)
    (fun e => print (LogSkyflowSkipped e) ;; ret scrubbed).

Definition scrub_pii (text : str) : M (str * str) :=
  let name := _extract_name text in
  let dob := _extract_dob text in
  patient_token <- _stable_patient_token name dob ;;
  scrubbed <- match name with
              | Some n => if truthy n then lift (Template.sub_escaped n patient_token text)
                          else ret text
              | None => ret text
              end ;;
  let scrubbed := match dob with
                  | Some d => if truthy d then str_replace scrubbed d (py "DOB_REDACTED")
                              else scrubbed
                  | None => scrubbed
                  end in
  w <- ask ;;
  scrubbed <- match skyflow_client w with
              | Some client =>
                  if SKYFLOW_ENABLED w then vault_path client name dob scrubbed
                  else ret scrubbed
              | None => ret scrubbed
              end ;;
  ret (scrubbed, patient_token).

(** ** The request handlers *)

(** The research notes of one biomarker: a text when no API key is
    configured, a list of one text otherwise.  The query, built from
    [direction], is sent nowhere; [value] is not used. *)
Definition search_medical_advice (biomarker value direction : JSON) : M JSON :=
  w <- ask ;;
  if negb (truthy_opt (PARALLEL_API_KEY w))
  then ret (JStr (py "Parallel.ai API Key missing - skipping live search."))
  else
    print (LogSearching (py_str biomarker)) ;;
    ret (JArr [JStr (py "Recent 2025 study suggests increasing magnesium intake for "
                     ++ py_str biomarker ++ py ".")]).

(** The body of the loop of step E on one item: an item flagged HIGH
    or LOW gets research notes.  The item is whatever the iteration
    yields; [item.get] raises on anything but a dict, [item['name']]
    and [item['value']] on a dict without the key. *)
Definition annotate (item : JSON) : M JSON :=
  flag <- lift (get_method item (py "flag") JNull) ;;
  if high_or_low flag then
    name <- lift (subscript item (py "name")) ;;
    value <- lift (subscript item (py "value")) ;;
    direction <- lift (subscript item (py "flag")) ;;
    advice <- search_medical_advice name value direction ;;
    lift (setitem item (py "research_notes") advice)
  else ret item.

Fixpoint for_each {A B : Type} (f : A -> M B) (l : list A) : M (list B) :=
  match l with
  | [] => ret []
  | x :: l' => y <- f x ;; ys <- for_each f l' ;; ret (y :: ys)
  end.

(** The analysis once the loop has run: the loop assigns into the items
    the list under ["biomarkers"] holds, so the analysis shows the
    notes.  Without the key, or with an empty dict or text under it,
    there was nothing to assign to. *)
Definition with_items (analysis : JSON) (items : list JSON) : JSON :=
  match analysis with
  | JObj o =>
      match dict_get o (py "biomarkers") with
      | Some (JArr _) => JObj (dict_set o (py "biomarkers") (JArr items))
      | _ => analysis
      end
  | _ => analysis
  end.

(** Step E of [analyze], the loop over
    [analysis.get('biomarkers', [])]. *)
Definition research (analysis : JSON) : M JSON :=
  biomarkers <- lift (get_method analysis (py "biomarkers") (JArr [])) ;;
  items <- lift (iterate biomarkers) ;;
  items <- for_each annotate items ;;
  ret (with_items analysis items).

(** The fixed analysis used when the analysis service fails. *)
Definition mock_analysis : JSON :=
  JObj [(py "biomarkers",
         JArr [JObj [(py "name", JStr (py "Vitamin D")); (py "value", JInt 20);
                     (py "unit", JStr (py "ng/mL")); (py "flag", JStr (py "LOW"))];
               JObj [(py "name", JStr (py "Ferritin")); (py "value", JInt 15);
                     (py "unit", JStr (py "ng/mL")); (py "flag", JStr (py "LOW"))]])].

Record Response : Type := mkResponse {
  r_patient : str;
  r_analysis : JSON;
  r_status : str;
  r_original_filename : str;
  r_uploaded_at : str;
  r_lab_date : str;
  r_file_url : str
}.

Definition history_key_of (patient_token : str) : str :=
  py "patient:" ++ patient_token ++ py ":history".

(** Step C of [analyze], and the body of [get_history]: what the
    stored text decodes to, or the empty list on a missing key, an empty
    text, a text that does not decode, or a failing store. *)
Definition read_history (history_key : str) : M JSON :=
  try_except
    (history_json <- redis_get history_key ;;
     match history_json with
     | Some t => if truthy_text t then lift (json_loads t) else ret (JArr [])
     | None => ret (JArr [])
     end)
    (fun e => print (LogRedisUnavailable e) ;; ret (JArr [])).

(** The biomarkers of the most recent prior entry, for the message:
    [history_list[-1]["biomarkers"] if history_list else None].  It is
    outside every [try]. *)
Definition previous_biomarkers (history_list : JSON) : outcome (option JSON) :=
  if truthy_json history_list then
    match subscript_last history_list with
    | Ok entry =>
        match subscript entry (py "biomarkers") with
        | Ok b => Ok (Some b)
        | Raise e => Raise e
        end
    | Raise e => Raise e
    end
  else Ok None.

(** [lab_date or time.strftime("%Y-%m-%d", time.gmtime())]: the clock
    is read only when no date was resolved. *)
Definition lab_date_or_today (lab_date : option str) : M str :=
  match lab_date with
  | Some d => if truthy d then ret d else t <- gmtime ;; ret (strftime_date t)
  | None => t <- gmtime ;; ret (strftime_date t)
  end.

(** The end of step F: append the entry and write the list back; the
    append is outside the [try], a failing store is logged and
    skipped. *)
Definition save_history (history_key : str) (history_list new_entry : JSON) : M JSON :=
  history_list <- lift (append_method history_list new_entry) ;;
  try_except (redis_set history_key (json_dumps history_list))
             (fun e => print (LogSaveSkipped e)) ;;
  ret history_list.

(** The variables of [analyze] that step F reads. *)
Record Analyzed : Type := mkAnalyzed {
  an_lab_date : option str;
  an_uploaded_at : str;
  an_original_filename : str;
  an_patient_token : str;
  an_history_list : JSON;
  an_analysis : JSON
}.

(** [analyze] from the point where the upload is stored and its text
    extracted as [raw_text] ([file_filename] is [file.filename]), up to
    the end of step E: the date, the redaction, the recall of the
    history, the analysis and the research notes. *)
Definition analyze_A_to_E (file_filename : option str) (raw_text : str) : M Analyzed :=
  let original_filename :=
    if truthy_opt file_filename then or_empty file_filename else py "report.pdf" in
  let lab_date := extract_lab_date raw_text in
  lab_date <- (if negb (truthy_opt lab_date)
               then lift (extract_date_from_filename original_filename)
               else ret lab_date) ;;
  t <- gmtime ;;
  let uploaded_at := strftime_stamp t in
  (* B. scrub *)
  scrubbed <- scrub_pii raw_text ;;
  let safe_text := fst scrubbed in
  let patient_token := snd scrubbed in
  print (LogScrubbed patient_token) ;;
  (* C. memory recall *)
  history_list <- read_history (history_key_of patient_token) ;;
  previous <- lift (previous_biomarkers history_list) ;;
  (* D. analyze *)
  print LogSending ;;
  analysis <- try_except (w <- ask ;; lift (anthropic w safe_text previous))
                         (fun e => print (LogAnalysisUnavailable e) ;; ret mock_analysis) ;;
  (* E. research notes *)
  analysis <- research analysis ;;
  ret (mkAnalyzed lab_date uploaded_at original_filename patient_token history_list analysis).

(** Step F of [analyze] and its answer; the upload is stored under
    [stored_filename]. *)
Definition analyze_F (stored_filename : str) (a : Analyzed) : M Response :=
  entry_date <- lab_date_or_today (an_lab_date a) ;;
  biomarkers <- lift (get_method (an_analysis a) (py "biomarkers") (JArr [])) ;;
  let new_entry :=
    JObj [(py "lab_date", JStr entry_date);
          (py "uploaded_at", JStr (an_uploaded_at a));
          (py "original_filename", JStr (an_original_filename a));
          (py "file_url", JStr (py "/files/" ++ stored_filename));
          (py "biomarkers", biomarkers)] in
  save_history (history_key_of (an_patient_token a)) (an_history_list a) new_entry ;;
  response_date <- lab_date_or_today (an_lab_date a) ;;
  ret (mkResponse (an_patient_token a) (an_analysis a) (py "Report Generated & Encrypted")
                  (an_original_filename a) (an_uploaded_at a) response_date
                  (py "/files/" ++ stored_filename)).

Definition analyze (file_filename : option str) (stored_filename raw_text : str) : M Response :=
  a <- analyze_A_to_E file_filename raw_text ;;
  analyze_F stored_filename a.

(** [GET /history/{patient_token}]. *)
Definition get_history (patient_token : str) : M (str * JSON) :=
  history <- read_history (history_key_of patient_token) ;;
  ret (patient_token, history).

(** ** Start-up: the flag [SKYFLOW_ENABLED] and [init_skyflow] *)

(** [os.getenv(name, "false").lower() in ("1", "true", "yes", "on")]. *)
Definition env_flag (value : option str) : bool :=
  let v := map lower (match value with Some s => s | None => py "false" end) in
  str_eqb v (py "1") || str_eqb v (py "true") || str_eqb v (py "yes") || str_eqb v (py "on").

Inductive Credentials : Type :=
| CredApiKey (s : str)
| CredString (s : str)
| CredPath (s : str)
| CredToken (s : str).

Inductive SkyflowEnv : Type := PROD | SANDBOX.

(** The settings read from the environment at start-up; [cfg_env] is
    [os.getenv("SKYFLOW_ENV", "SANDBOX").upper()]. *)
Record SkyflowSettings : Type := mkSettings {
  cfg_vault_id : option str;
  cfg_cluster_id : option str;
  cfg_env : str;
  cfg_api_key : option str;
  cfg_credentials_string : option str;
  cfg_credentials_path : option str;
  cfg_bearer_token : option str
}.

(** The SDK, when it is installed: building a client from the vault
    configuration may raise. *)
Definition SkyflowSdk : Type :=
  str -> str -> SkyflowEnv -> Credentials -> outcome Vault.

Inductive InitLog : Type :=
| InitDisabled
| InitNoSdk
| InitMissing
| InitDone
| InitFailed (e : exn).

(** The first credential that is set, in the order of the [if] chain. *)
Definition pick_credentials (cfg : SkyflowSettings) : option Credentials :=
  if truthy_opt (cfg_api_key cfg) then Some (CredApiKey (or_empty (cfg_api_key cfg)))
  else if truthy_opt (cfg_credentials_string cfg)
       then Some (CredString (or_empty (cfg_credentials_string cfg)))
  else if truthy_opt (cfg_credentials_path cfg)
       then Some (CredPath (or_empty (cfg_credentials_path cfg)))
  else if truthy_opt (cfg_bearer_token cfg)
       then Some (CredToken (or_empty (cfg_bearer_token cfg)))
  else None.

(** [init_skyflow]: the value it leaves in the global [skyflow_client]
    (which starts as [None]) and the line it prints. *)
Definition init_skyflow (enabled : bool) (sdk : option SkyflowSdk) (cfg : SkyflowSettings)
    : option Vault * InitLog :=
  match enabled, sdk with
  | false, _ => (None, InitDisabled)
  | true, None => (None, InitNoSdk)
  | true, Some build =>
      match pick_credentials cfg with
      | Some credentials =>
          if truthy_opt (cfg_vault_id cfg) && truthy_opt (cfg_cluster_id cfg) then
            let env_enum := if str_eqb (cfg_env cfg) (py "PROD") then PROD else SANDBOX in
            match build (or_empty (cfg_vault_id cfg)) (or_empty (cfg_cluster_id cfg))
                        env_enum credentials with
            | Ok client => (Some client, InitDone)
            | Raise e => (None, InitFailed e)
            end
          else (None, InitMissing)
      | None => (None, InitMissing)
      end
  end.

(** ** Specification side *)

(** Declarative reading of a pattern: [matches icase s r i c j c'] says
    that [r] matches the text [s] from position [i] to position [j],
    taking the group spans [c] to [c']. *)
Definition within (hi : option nat) (n : nat) : Prop :=
  match hi with Some h => n <= h | None => True end.

Inductive matches (icase : bool) (s : str) : regex -> nat -> caps -> nat -> caps -> Prop :=
| M_empty i c : matches icase s Eps i c i c
| M_lit p x i c :
    nth_error s i = Some x -> lit_match icase p x = true ->
    matches icase s (Lit p) i c (S i) c
| M_in set x i c :
    nth_error s i = Some x -> in_set icase set x = true ->
    matches icase s (OneOf set) i c (S i) c
| M_repeat set lo hi i c n :
    lo <= n -> within hi n ->
    (forall k, k < n -> exists x, nth_error s (i + k) = Some x /\ in_set icase set x = true) ->
    matches icase s (Repeat set lo hi) i c (i + n) c
| M_seq a b i c j c' k c'' :
    matches icase s a i c j c' -> matches icase s b j c' k c'' ->
    matches icase s (Seq a b) i c k c''
| M_alt_l a b i c j c' :
    matches icase s a i c j c' -> matches icase s (Alt a b) i c j c'
| M_alt_r a b i c j c' :
    matches icase s b i c j c' -> matches icase s (Alt a b) i c j c'
| M_group n a i c j c' :
    matches icase s a i c j c' ->
    matches icase s (Group n a) i c j ((n, (i, j)) :: c')
| M_boundary i c :
    boundary s i = true -> matches icase s WordBoundary i c i c.

(** The texts a pattern without [\b] matches, whatever surrounds them. *)
Fixpoint lang (icase : bool) (r : regex) (w : str) : Prop :=
  match r with
  | Eps => w = []
  | Lit p => exists x, w = [x] /\ lit_match icase p x = true
  | OneOf set => exists x, w = [x] /\ in_set icase set x = true
  | Repeat set lo hi =>
      lo <= length w /\ within hi (length w)
      /\ Forall (fun x => in_set icase set x = true) w
  | Seq a b => exists u v, w = u ++ v /\ lang icase a u /\ lang icase b v
  | Alt a b => lang icase a w \/ lang icase b w
  | Group _ a => lang icase a w
  | WordBoundary => False
  end.

Fixpoint boundary_free (r : regex) : bool :=
  match r with
  | Seq a b | Alt a b => boundary_free a && boundary_free b
  | Group _ a => boundary_free a
  | WordBoundary => false
  | _ => true
  end.

(** The shape of an extracted name, in the words of the pattern: two
    tokens separated by white space, each a letter of either case
    followed by one or more letters, apostrophes or hyphens. *)
Definition name_char (c : ascii) : bool :=
  is_letter c || ascii_eqb c "'" || ascii_eqb c "-".

Definition name_token (w : str) : Prop :=
  exists c rest, w = c :: rest /\ is_letter c = true /\ rest <> []
                 /\ Forall (fun x => name_char x = true) rest.

Definition whitespace (w : str) : Prop := Forall (fun x => isspace x = true) w.

Definition two_token_name (n : str) : Prop :=
  exists a ws b, n = a ++ ws ++ b /\ name_token a /\ ws <> [] /\ whitespace ws
                 /\ name_token b.

(** A label of the name field, in any case. *)
Definition name_label (l : str) : Prop :=
  map lower l = py "patient name" \/ map lower l = py "name".

(** The optional separator: white space, at most one of [:] and [-],
    white space. *)
Definition separator (sep : str) : Prop :=
  exists a b c, sep = a ++ b ++ c /\ whitespace a /\ whitespace c
                /\ (b = [] \/ b = py ":" \/ b = py "-").

(** A labeled name at offset [length pre] of the text. *)
Definition labeled_name_at (text pre name : str) : Prop :=
  exists label sep post,
    text = pre ++ label ++ sep ++ name ++ post
    /\ name_label label /\ separator sep /\ two_token_name name.

(** The first character of a text is an upper-case letter. *)
Definition starts_upper (w : str) : bool :=
  match w with c :: _ => is_upper c | [] => false end.

(** A date whose year was read from two digits [yy] as [2000 + yy]. *)
Definition two_digit_year_date (iso : str) : Prop :=
  exists yy mo d : Z,
    (0 <= yy <= 99)%Z /\ valid_date (2000 + yy) mo d = true
    /\ iso = isoformat (2000 + yy) mo d.

(** The ISO text of a valid calendar date. *)
Definition iso_date (iso : str) : Prop :=
  exists y mo d : Z, valid_date y mo d = true /\ iso = isoformat y mo d.

(** A byte. *)
Definition byte (b : Z) : Prop := (0 <= b < 256)%Z.

(** Two decimal digits; six decimal digits. *)
Definition two_digits (t : str) : Prop :=
  exists x y, t = [x; y] /\ isdecimal x = true /\ isdecimal y = true.

Definition six_digits (t : str) : Prop :=
  length t = 6 /\ Forall (fun x => isdecimal x = true) t.

(** The shape [dddd-dd-dd] of an ISO date. *)
Definition iso_shape (s : str) : bool :=
  match s with
  | [y1; y2; y3; y4; h1; m1; m2; h2; d1; d2] =>
      forallb isdecimal [y1; y2; y3; y4; m1; m2; d1; d2]
      && ascii_eqb h1 "-" && ascii_eqb h2 "-"
  | _ => false
  end.

(** [pad_num] gives exactly [width] decimal digits. *)
Definition padded (width : nat) (n : Z) : bool :=
  (length (pad_num width n) =? width) && forallb isdecimal (pad_num width n).

(** The redaction of the date of birth in [scrub_pii]. *)
Definition redact_dob (dob : option str) (scrubbed : str) : str :=
  match dob with
  | Some d => if truthy d then str_replace scrubbed d (py "DOB_REDACTED") else scrubbed
  | None => scrubbed
  end.

(** The salt in force in a world. *)
Definition salt_of (w : World) : str :=
  match PATIENT_TOKEN_SALT w with Some s => s | None => py "bio-hacker-salt" end.

(** A lower-case hexadecimal digit. *)
Definition is_hex (c : ascii) : bool := isdecimal c || between 97 (ord c) 102.

(** The shape of a patient token: [PT_] and 24 hexadecimal digits. *)
Definition token_shape (t : str) : Prop :=
  exists h, t = py "PT_" ++ h /\ length h = 24 /\ Forall (fun c => is_hex c = true) h.

(** The world [w] after some steps: the configuration and the oracles
    stay, the store, the counters and the output are as given. *)
Definition with_state (w : World) (data : gmap (list ascii) RedisText)
    (calls reads draws : nat) (out : list LogLine) : World :=
  mkWorld (PATIENT_TOKEN_SALT w) (PARALLEL_API_KEY w) (SKYFLOW_ENABLED w)
    (skyflow_client w) (anthropic w) data (redis_fault w) calls (clock w) reads
    (uuid_source w) draws out.

(** The world [w] after printing the lines [l]. *)
Definition log_more (w : World) (l : list LogLine) : World :=
  with_state w (redis_data w) (redis_calls w) (clock_reads w) (uuid_draws w)
    (stdout w ++ l).

(** The token [scrub_pii] derives for a text in a world. *)
Definition patient_token_of (w : World) (text : str) : str :=
  py "PT_" ++ firstn 24 (Sha256.hmac_hexdigest (salt_of w)
                           (composite_key (_extract_name text) (_extract_dob text))).

(** [file.filename or "report.pdf"]. *)
Definition original_filename_of (file_filename : option str) : str :=
  if truthy_opt file_filename then or_empty file_filename else py "report.pdf".

(** The date the text yields, else the date the filename yields. *)
Definition text_or_filename_date (raw_text filename : str) : option str :=
  match extract_lab_date raw_text with
  | Some d => Some d
  | None => match extract_date_from_filename filename with
            | Ok r => r
            | Raise _ => None
            end
  end.

(** The store answers the calls numbered [n], [n+1], ..., [n+k-1]. *)
Definition redis_up (w : World) (k : nat) : Prop :=
  forall i, i < k -> redis_fault w (redis_calls w + i) = false.

(** What [read_history] makes of the text stored under a key. *)
Definition stored_history (w : World) (history_key : str) : JSON :=
  match redis_data w !! history_key with
  | Some (Dump h) => h
  | _ => JArr []
  end.

(** The entries of a history that is a list, and a member of an entry. *)
Definition is_list (x : JSON) : bool :=
  match x with JArr _ => true | _ => false end.

Definition entries (x : JSON) : list JSON :=
  match x with JArr l => l | _ => [] end.

Definition field (k : String.string) (x : JSON) : option JSON :=
  match x with JObj o => dict_get o (String.list_ascii_of_string k) | _ => None end.

(** A history [analyze] can work with: a list that is empty or ends
    with a dict that has biomarkers (the persisted layout, a list of
    entries, is one). *)
Definition history_usable (h : JSON) : bool :=
  match h with
  | JArr l =>
      match last l with
      | None => true
      | Some e => match field "biomarkers" e with Some _ => true | None => false end
      end
  | _ => false
  end.

(** An item the research loop can work with: a dict that, when flagged
    HIGH or LOW, has a name and a value. *)
Definition item_usable (item : JSON) : bool :=
  match item with
  | JObj o =>
      if high_or_low (default JNull (field "flag" item))
      then match field "name" item, field "value" item with
           | Some _, Some _ => true
           | _, _ => false
           end
      else true
  | _ => false
  end.

(** An analysis the research loop can work with: a dict in which
    ["biomarkers"] is missing, or a list of usable items, or an empty
    dict or text. *)
Definition analysis_usable (analysis : JSON) : bool :=
  match analysis with
  | JObj o =>
      match dict_get o (py "biomarkers") with
      | None => true
      | Some (JArr items) => forallb item_usable items
      | Some (JObj []) => true
      | Some (JStr []) => true
      | Some _ => false
      end
  | _ => false
  end.

(** What the research step makes of a usable item and of a usable
    analysis in a world. *)
Definition advice_of (w : World) (name : JSON) : JSON :=
  if truthy_opt (PARALLEL_API_KEY w)
  then JArr [JStr (py "Recent 2025 study suggests increasing magnesium intake for "
                   ++ py_str name ++ py ".")]
  else JStr (py "Parallel.ai API Key missing - skipping live search.").

Definition with_notes (w : World) (item : JSON) : JSON :=
  match item with
  | JObj o =>
      if high_or_low (default JNull (field "flag" item))
      then JObj (dict_set o (py "research_notes")
                   (advice_of w (default JNull (field "name" item))))
      else item
  | _ => item
  end.

Definition researched (w : World) (analysis : JSON) : JSON :=
  with_items analysis (map (with_notes w) (entries (default (JArr []) (field "biomarkers" analysis)))).

(** The analysis step D hands to step E: the reply of the service, or
    the fixed analysis when the service raises. *)
Definition reply_of (w : World) (safe_text : str) (previous : option JSON) : JSON :=
  match anthropic w safe_text previous with
  | Ok a => a
  | Raise _ => mock_analysis
  end.

(** Every reply of the service is usable. *)
Definition replies_usable (w : World) : Prop :=
  forall safe_text previous, analysis_usable (reply_of w safe_text previous) = true.

(** The local redaction of [scrub_pii]: the name replaced by the
    derived token, then the date of birth by the sentinel. *)
Definition locally_redacted (w : World) (text : str) : str :=
  redact_dob (_extract_dob text)
    (match _extract_name text with
     | Some n =>
         if truthy n
         then sub_with false (escape n) (fun _ => patient_token_of w text) text
         else text
     | None => text
     end).

(** The vault is out of play: no client, the switch off, or a client
    whose call raises or answers without a token for the name. *)
Definition vault_silent (w : World) (text : str) : Prop :=
  match skyflow_client w with
  | None => True
  | Some client =>
      SKYFLOW_ENABLED w = false
      \/ match client with
         | VaultInsert insert =>
             match insert (or_empty (_extract_name text)) (or_empty (_extract_dob text)) with
             | Ok (Some t) => truthy t = false
             | _ => True
             end
         | _ => True
         end
  end.

(** The world once start-up has run: the switch is the parsed
    environment flag, the client what [init_skyflow] left. *)
Definition started (w : World) (flag : option str) (sdk : option SkyflowSdk)
    (cfg : SkyflowSettings) : World :=
  mkWorld (PATIENT_TOKEN_SALT w) (PARALLEL_API_KEY w) (env_flag flag)
    (fst (init_skyflow (env_flag flag) sdk cfg)) (anthropic w) (redis_data w)
    (redis_fault w) (redis_calls w) (clock w) (clock_reads w) (uuid_source w)
    (uuid_draws w) (stdout w).

(** Something the vault needs is missing: the flag is not one of 1,
    true, yes, on; the SDK is not installed; no credential, vault id or
    cluster id is set. *)
Definition vault_unconfigured (flag : option str) (sdk : option SkyflowSdk)
    (cfg : SkyflowSettings) : Prop :=
  env_flag flag = false \/ sdk = None \/ pick_credentials cfg = None
  \/ truthy_opt (cfg_vault_id cfg) = false \/ truthy_opt (cfg_cluster_id cfg) = false.

(** The append of the history adapter: steps C and F of [analyze] on
    one key, the current list read and the entry appended to it. *)
Definition append_entry (patient_token : str) (new_entry : JSON) : M JSON :=
  history_list <- read_history (history_key_of patient_token) ;;
  save_history (history_key_of patient_token) history_list new_entry.

(** A sample world: default configuration, no vault, an analysis
    service that is down, an empty store that answers, and a clock that
    passes midnight between its first and second reading. *)
Definition sample_world : World :=
  mkWorld None None false None
    (fun _ _ => Raise (ServiceError (py "down")))
    ∅ (fun _ => false) 0
    (fun n => match n with
              | O => mkTime 2024 3 5 23 59 59
              | _ => mkTime 2024 3 6 0 0 1
              end) 0
    (fun n => py "00000000-0000-4000-8000-00000000000" ++ [chr (48 + n mod 10)]) 0
    [].


(** * Proofs *)

(** * Facts about text *)

Lemma lstrip_keeps (c : ascii) (s : str) :
  In c s -> isspace c = false -> In c (lstrip s).
Proof.
  induction s as [|x s IH]; simpl; intros Hin Hc; [easy|].
  destruct (isspace x) eqn:Hx.
  - destruct Hin as [->|Hin]; [congruence | auto].
  - exact Hin.
Qed.

Lemma strip_keeps (c : ascii) (s : str) :
  In c s -> isspace c = false -> In c (strip s).
Proof.
  intros Hin Hc. unfold strip, rstrip.
  apply in_rev. rewrite rev_involutive.
  apply lstrip_keeps; [|exact Hc].
  rewrite <- in_rev. now apply lstrip_keeps.
Qed.

Lemma composite_key_truthy (name dob : option str) :
  truthy (composite_key name dob) = true.
Proof.
  assert (H : In "|"%char (composite_key name dob)).
  { apply strip_keeps; [|reflexivity].
    apply in_or_app. right. now left. }
  destruct (composite_key name dob); [destruct H | reflexivity].
Qed.

(** The token is a function of the pair and of the salt; the world is
    left as it was, so no random value is drawn. *)
Lemma token_eq (name dob : option str) (w : World) :
  _stable_patient_token name dob w
  = (Ok (py "PT_" ++ firstn 24 (Sha256.hmac_hexdigest (salt_of w) (composite_key name dob))), w).
Proof.
  unfold _stable_patient_token.
  rewrite composite_key_truthy.
  cbv [bind ret getenv_salt ask salt_of].
  reflexivity.
Qed.

(** * The redactor *)

Lemma vault_path_no_name (client : Vault) (dob : option str) (scrubbed : str) (w : World) :
  exists w', vault_path client None dob scrubbed w = (Ok scrubbed, w').
Proof.
  unfold vault_path, try_except, bind, lift, ret.
  destruct client as [insert|tokenize|]; simpl.
  - destruct (insert [] (or_empty dob)) as [[t|]|e]; simpl; eauto.
  - destruct (tokenize [] (or_empty dob)) as [[]|e]; simpl; eauto.
  - eauto.
Qed.

(** Without a name the redactor only redacts the date of birth it was
    given, whatever the vault does. *)
Lemma scrub_pii_no_name (text : str) (w : World) :
  _extract_name text = None ->
  exists tok w',
    scrub_pii text w = (Ok (redact_dob (_extract_dob text) text, tok), w').
Proof.
  intros Hn. unfold scrub_pii. rewrite Hn.
  unfold bind at 1. rewrite token_eq.
  unfold bind, ret, ask.
  fold (redact_dob (_extract_dob text) text).
  destruct (skyflow_client w) as [client|]; [|eauto].
  destruct (SKYFLOW_ENABLED w); [|eauto].
  destruct (vault_path_no_name client (_extract_dob text)
              (redact_dob (_extract_dob text) text) w) as [w' Hv].
  rewrite Hv. eauto.
Qed.

Lemma startswith_contains (old s : str) :
  startswith old s = true -> contains old s = true.
Proof. intros H. destruct s; simpl in *; rewrite H; reflexivity. Qed.

Lemma replace_from_absent (old new s : str) :
  contains old s = false -> replace_from old new 0 s = s.
Proof.
  induction s as [|c s IH]; [reflexivity|].
  intros H. simpl in H. apply orb_false_iff in H as [H1 H2].
  cbn [replace_from]. rewrite H1. f_equal. auto.
Qed.

Lemma str_replace_absent (s old new : str) :
  contains old s = false -> str_replace s old new = s.
Proof.
  intros H. unfold str_replace. destruct old; [reflexivity|].
  now apply replace_from_absent.
Qed.

Lemma redact_dob_absent (dob : option str) (s : str) :
  match dob with Some d => contains d s = false | None => True end ->
  redact_dob dob s = s.
Proof.
  destruct dob as [d|]; simpl; [|reflexivity].
  intros H. destruct (truthy d); [|reflexivity].
  now apply str_replace_absent.
Qed.

(** * The matcher against the declarative reading of patterns *)

Lemma run_spec (ok : ascii -> bool) (rest : str) :
  forall hi n,
    n <= run ok hi rest
    <-> within hi n
        /\ forall k, k < n -> exists x, nth_error rest k = Some x /\ ok x = true.
Proof.
  induction rest as [|c rest IH]; intros hi n.
  - simpl. split.
    + intros Hn. assert (n = 0) as -> by lia. split; [destruct hi; simpl; lia | intros k Hk; lia].
    + intros [_ H]. destruct n; [lia|]. destruct (H 0) as (x & Hx & _); [lia | discriminate].
  - cbn [run]. destruct (ok c) eqn:Hc.
    + destruct hi as [[|h]|].
      * split.
        -- intros Hn. assert (n = 0) as -> by lia. split; [simpl; lia | intros k Hk; lia].
        -- intros [Hw _]. simpl in Hw. lia.
      * destruct n as [|n].
        -- split; [intros _; split; [simpl; lia | intros k Hk; lia] | lia].
        -- rewrite <- Nat.succ_le_mono. rewrite (IH (Some h) n). simpl. split.
           ++ intros [Hw H]. split; [lia|]. intros [|k] Hk; [exists c; auto|].
              apply H. lia.
           ++ intros [Hw H]. split; [lia|]. intros k Hk. apply (H (S k)). lia.
      * destruct n as [|n].
        -- split; [intros _; split; [exact I | intros k Hk; lia] | lia].
        -- rewrite <- Nat.succ_le_mono. rewrite (IH None n). simpl. split.
           ++ intros [_ H]. split; [exact I|]. intros [|k] Hk; [exists c; auto|].
              apply H. lia.
           ++ intros [_ H]. split; [exact I|]. intros k Hk. apply (H (S k)). lia.
    + split.
      * intros Hn. assert (n = 0) as -> by lia.
        split; [destruct hi; simpl; lia | intros k Hk; lia].
      * intros [_ H]. destruct n; [lia|].
        destruct (H 0) as (x & Hx & Hok); [lia|]. simpl in Hx. congruence.
Qed.

Lemma counts_spec (lo m n : nat) : In n (counts lo m) <-> lo <= n <= m.
Proof.
  unfold counts. destruct (lo <=? m) eqn:E.
  - apply Nat.leb_le in E. rewrite <- in_rev, in_seq. lia.
  - apply Nat.leb_gt in E. simpl. lia.
Qed.

Lemma nth_error_skipn_add (s : str) (i k : nat) :
  nth_error (skipn i s) k = nth_error s (i + k).
Proof.
  revert s. induction i as [|i IH]; intros s; [reflexivity|].
  destruct s; simpl; [now destruct k | apply IH].
Qed.

Lemma rmatch_sound (icase : bool) (s : str) (r : regex) :
  forall i c j c', In (j, c') (rmatch icase s r (i, c)) -> matches icase s r i c j c'.
Proof.
  induction r as [|p|set|set lo hi|a IHa b IHb|a IHa b IHb|n a IHa|]; intros i c j c' H;
    cbn [rmatch fst snd] in H.
  - destruct H as [H|[]]. inversion H; subst. constructor.
  - destruct (nth_error s i) as [x|] eqn:Hx; [|destruct H].
    destruct (lit_match icase p x) eqn:Hp; [|destruct H].
    destruct H as [H|[]]. inversion H; subst. econstructor; eauto.
  - destruct (nth_error s i) as [x|] eqn:Hx; [|destruct H].
    destruct (in_set icase set x) eqn:Hp; [|destruct H].
    destruct H as [H|[]]. inversion H; subst. econstructor; eauto.
  - apply in_map_iff in H as (n & Hn & Hin). inversion Hn; subst.
    apply counts_spec in Hin as [Hlo Hm].
    apply run_spec in Hm as [Hw Hall].
    constructor; [exact Hlo | exact Hw |].
    intros k Hk. destruct (Hall k Hk) as (x & Hx & Hok).
    exists x. split; [|exact Hok]. now rewrite <- nth_error_skipn_add.
  - apply in_flat_map in H as ([j0 c0] & H1 & H2).
    econstructor; eauto.
  - apply in_app_iff in H as [H|H]; [apply M_alt_l | apply M_alt_r]; auto.
  - apply in_map_iff in H as ([j0 c0] & Heq & Hin). cbn [fst snd] in Heq.
    inversion Heq; subst. constructor. auto.
  - destruct (boundary s i) eqn:Hb; [|destruct H].
    destruct H as [H|[]]. inversion H; subst. now constructor.
Qed.

Lemma rmatch_complete (icase : bool) (s : str) (r : regex) :
  forall i c j c', matches icase s r i c j c' -> In (j, c') (rmatch icase s r (i, c)).
Proof.
  intros i c j c' H. induction H; cbn [rmatch fst snd].
  - now left.
  - rewrite H, H0. now left.
  - rewrite H, H0. now left.
  - apply in_map_iff. exists n. split; [reflexivity|].
    apply counts_spec. split; [assumption|].
    apply run_spec. split; [assumption|].
    intros k Hk. destruct (H1 k Hk) as (x & Hx & Hok).
    exists x. split; [|exact Hok]. now rewrite nth_error_skipn_add.
  - apply in_flat_map. exists (j, c'). split; assumption.
  - apply in_app_iff. now left.
  - apply in_app_iff. now right.
  - apply in_map_iff. exists (j, c'). split; [reflexivity | assumption].
  - rewrite H. now left.
Qed.

Lemma nth_error_Some_lt (s : str) (i : nat) (x : ascii) :
  nth_error s i = Some x -> i < length s.
Proof. intros H. apply nth_error_Some. congruence. Qed.

(** A match moves forward and stays inside the text. *)
Lemma matches_bounds (icase : bool) (s : str) (r : regex) i c j c' :
  matches icase s r i c j c' -> i <= length s -> i <= j <= length s.
Proof.
  induction 1; intros Hi;
    try match goal with H : nth_error _ _ = Some _ |- _ => apply nth_error_Some_lt in H end;
    try lia; auto.
  - destruct n as [|n]; [lia|].
    destruct (H1 n) as (x & Hx & _); [lia|].
    apply nth_error_Some_lt in Hx. lia.
Qed.

(** * [search], [findall] and the groups of a match *)

Lemma match_at_Some (icase : bool) (r : regex) (s : str) (i : nat) (m : Match) :
  match_at icase r s i = Some m ->
  m_string m = s /\ m_start m = i
  /\ matches icase s r i [] (m_end m) (m_caps m).
Proof.
  unfold match_at. destruct (rmatch icase s r (i, ([] : caps))) as [|[j c] rest] eqn:E; [discriminate|].
  intros H. inversion H; subst; cbn. repeat split.
  apply rmatch_sound. rewrite E. now left.
Qed.

Lemma match_at_None (icase : bool) (r : regex) (s : str) (i : nat) :
  match_at icase r s i = None ->
  forall j c, ~ matches icase s r i [] j c.
Proof.
  unfold match_at. destruct (rmatch icase s r (i, ([] : caps))) as [|[j0 c0] rest] eqn:E; [|discriminate].
  intros _ j c H. apply rmatch_complete in H. rewrite E in H. destruct H.
Qed.

Lemma first_match_seq_Some (icase : bool) (r : regex) (s : str) :
  forall n a m,
    first_match icase r s (seq a n) = Some m ->
    a <= m_start m < a + n
    /\ match_at icase r s (m_start m) = Some m
    /\ forall i, a <= i < m_start m -> match_at icase r s i = None.
Proof.
  induction n as [|n IH]; intros a m H; [discriminate|].
  cbn [seq first_match] in H.
  destruct (match_at icase r s a) as [m0|] eqn:E.
  - inversion H; subst m0.
    destruct (match_at_Some _ _ _ _ _ E) as (_ & Hs & _).
    rewrite Hs. repeat split; [lia | lia | exact E | intros i Hi; lia].
  - destruct (IH (S a) m H) as (Hr & Hm & Hl).
    repeat split; [lia | lia | exact Hm |].
    intros i Hi. destruct (Nat.eq_dec i a) as [->|Hne]; [exact E | apply Hl; lia].
Qed.

Lemma first_match_seq_None (icase : bool) (r : regex) (s : str) :
  forall n a,
    first_match icase r s (seq a n) = None ->
    forall i, a <= i < a + n -> match_at icase r s i = None.
Proof.
  induction n as [|n IH]; intros a H i Hi; [lia|].
  cbn [seq first_match] in H.
  destruct (match_at icase r s a) as [m0|] eqn:E; [discriminate|].
  destruct (Nat.eq_dec i a) as [->|Hne]; [exact E | apply (IH (S a) H); lia].
Qed.

(** [re.search] reports a match of the pattern, and the leftmost one. *)
Lemma search_Some (icase : bool) (r : regex) (s : str) (m : Match) :
  search icase r s = Some m ->
  m_string m = s /\ m_start m <= length s
  /\ matches icase s r (m_start m) [] (m_end m) (m_caps m)
  /\ forall i j c, i < m_start m -> ~ matches icase s r i [] j c.
Proof.
  intros H. apply first_match_seq_Some in H as (Hr & Hm & Hl).
  destruct (match_at_Some _ _ _ _ _ Hm) as (Hs & _ & Hmt).
  repeat split; [exact Hs | lia | exact Hmt |].
  intros i j c Hi. apply match_at_None. apply Hl. lia.
Qed.

(** It reports nothing only when the pattern matches nowhere. *)
Lemma search_None (icase : bool) (r : regex) (s : str) :
  search icase r s = None ->
  forall i j c, i <= length s -> ~ matches icase s r i [] j c.
Proof.
  intros H i j c Hi. apply match_at_None.
  apply (first_match_seq_None _ _ _ _ _ H). lia.
Qed.

Lemma scan_In (icase : bool) (r : regex) (s : str) (m : Match) :
  forall fuel i, In m (scan icase r s fuel i) -> match_at icase r s (m_start m) = Some m.
Proof.
  induction fuel as [|f IH]; intros i H; [destruct H|].
  cbn [scan] in H. destruct (length s <? i); [destruct H|].
  destruct (match_at icase r s i) as [m0|] eqn:E.
  - destruct H as [->|H]; [|eauto].
    destruct (match_at_Some _ _ _ _ _ E) as (_ & Hs & _). now rewrite Hs.
  - eauto.
Qed.

(** * Slices *)

Lemma slice_run (P : ascii -> Prop) (s : str) (i n : nat) :
  (forall k, k < n -> exists x, nth_error s (i + k) = Some x /\ P x) ->
  length (slice s i (i + n)) = n /\ Forall P (slice s i (i + n)).
Proof.
  unfold slice. replace (i + n - i) with n by lia.
  revert i. induction n as [|n IH]; intros i H.
  - simpl. split; [reflexivity | constructor].
  - destruct (H 0) as (x & Hx & Px); [lia|]. rewrite Nat.add_0_r in Hx.
    rewrite <- (Nat.add_0_r i), <- nth_error_skipn_add in Hx.
    destruct (skipn i s) as [|y rest] eqn:E; [discriminate|].
    simpl in Hx. inversion Hx; subst y.
    assert (Hrest : rest = skipn (S i) s).
    { replace (S i) with (1 + i) by lia. rewrite <- skipn_skipn, E. reflexivity. }
    destruct (IH (S i)) as [Hl Hf].
    { intros k Hk. destruct (H (S k)) as (z & Hz & Pz); [lia|].
      exists z. split; [|exact Pz]. now replace (S i + k) with (i + S k) by lia. }
    rewrite <- Hrest in Hl, Hf. simpl. split; [now rewrite Hl | now constructor].
Qed.

Lemma slice_app (pre w post : str) :
  slice (pre ++ w ++ post) (length pre) (length pre + length w) = w.
Proof.
  unfold slice. replace (length pre + length w - length pre) with (length w) by lia.
  rewrite drop_app_length, take_app_length. reflexivity.
Qed.

Lemma slice_split (s : str) (i j : nat) :
  i <= j <= length s ->
  s = firstn i s ++ slice s i j ++ skipn j s.
Proof.
  intros H. unfold slice.
  rewrite <- (firstn_skipn i s) at 1. f_equal.
  rewrite <- (firstn_skipn (j - i) (skipn i s)) at 1. f_equal.
  rewrite skipn_skipn. f_equal. lia.
Qed.

Lemma slice_length (s : str) (i j : nat) :
  i <= j <= length s -> length (slice s i j) = j - i.
Proof. intros H. unfold slice. rewrite length_firstn, length_skipn. lia. Qed.

Lemma slice_cat (s : str) (i j k : nat) :
  i <= j <= k -> slice s i k = slice s i j ++ slice s j k.
Proof.
  intros H. unfold slice.
  replace (k - i) with ((j - i) + (k - j)) by lia.
  rewrite <- take_take_drop. f_equal.
  rewrite drop_drop. do 2 f_equal. lia.
Qed.

(** * Characters, by enumeration of the 256 code points *)

Ltac each_char c :=
  destruct c as [[] [] [] [] [] [] [] []]; vm_compute; try discriminate; try reflexivity;
  try (intuition (discriminate || reflexivity || auto)).

Lemma digit_facts (c : ascii) :
  isdecimal c = true ->
  isspace c = false /\ ascii_eqb c "-" = false /\ ascii_eqb c "+" = false
  /\ ascii_eqb c "_" = false /\ (0 <=? digit_val c)%Z = true /\ (digit_val c <=? 9)%Z = true.
Proof. each_char c. Qed.

Lemma digit_in_set (c : ascii) : in_set false [Digit] c = true -> isdecimal c = true.
Proof. unfold in_set. simpl. rewrite !orb_false_r. auto. Qed.

Lemma rstrip_nonspace (s : str) (c : ascii) :
  isspace c = false -> rstrip (s ++ [c]) = s ++ [c].
Proof.
  intros H. unfold rstrip. rewrite rev_unit. cbn [lstrip]. rewrite H.
  cbn [rev]. now rewrite rev_involutive.
Qed.

Lemma strip_nonspace (a : ascii) (s : str) (c : ascii) :
  isspace a = false -> isspace c = false ->
  strip (a :: s ++ [c]) = a :: s ++ [c].
Proof.
  intros Ha Hc. unfold strip. cbn [lstrip]. rewrite Ha.
  change (a :: s ++ [c]) with ((a :: s) ++ [c]). now apply rstrip_nonspace.
Qed.

(** [int] on two decimal digits. *)
Lemma py_int_two_digits (x y : ascii) :
  isdecimal x = true -> isdecimal y = true ->
  exists v, py_int [x; y] = Some v /\ (0 <= v <= 99)%Z.
Proof.
  intros Hx Hy.
  destruct (digit_facts x Hx) as (Sx & Mx & Px & _ & Lx & Ux).
  destruct (digit_facts y Hy) as (Sy & _ & _ & _ & Ly & Uy).
  exists (10 * (10 * 0 + digit_val x) + digit_val y)%Z. split.
  - pose proof (strip_nonspace x [] y Sx Sy) as Hst. cbn [app] in Hst.
    unfold py_int. rewrite Hst.
    rewrite Mx, Px. cbn [int_digits]. rewrite Hx, Hy. reflexivity.
  - apply Z.leb_le in Lx, Ux, Ly, Uy. lia.
Qed.

Lemma digits_slice (s : str) (i n : nat) :
  (forall k, k < n ->
     exists x, nth_error s (i + k) = Some x /\ in_set false [Digit] x = true) ->
  length (slice s i (i + n)) = n
  /\ Forall (fun x => isdecimal x = true) (slice s i (i + n)).
Proof.
  intros H. apply slice_run. intros k Hk. destruct (H k Hk) as (x & Hx & Hd).
  exists x. split; [exact Hx | now apply digit_in_set].
Qed.

Lemma group_d2 (s : str) (n i j : nat) (c c' : caps) :
  matches false s (Group n d2) i c j c' ->
  c' = (n, (i, j)) :: c /\ two_digits (slice s i j).
Proof.
  intros H. inversion H as [| | | | | | |? ? ? ? ? ? H1|]; subst.
  inversion H1 as [| | |? ? ? ? ? k Hlo Hhi Hall| | | | |]; subst.
  split; [reflexivity|]. simpl in Hhi. assert (k = 2) as -> by lia.
  destruct (digits_slice s i 2 Hall) as [Hl Hf].
  destruct (slice s i (i + 2)) as [|x [|y [|z t]]]; try discriminate.
  exists x, y. inversion Hf as [|? ? Hx Hf']. inversion Hf' as [|? ? Hy _]. auto.
Qed.

Lemma two_digits_int (t : str) :
  two_digits t -> exists v, py_int t = Some v /\ (0 <= v <= 99)%Z.
Proof. intros (x & y & -> & Hx & Hy). now apply py_int_two_digits. Qed.

(** * Filename inference *)

Lemma date_iso_Some (y m d : Z) (iso : str) :
  date_iso y m d = Some iso -> valid_date y m d = true /\ iso = isoformat y m d.
Proof. unfold date_iso. destruct (valid_date y m d); [|discriminate]. intros H. now inversion H. Qed.

Lemma ddmmyy_or_yymmdd_Some (a b c : Z) (iso : str) :
  (0 <= a <= 99)%Z -> (0 <= c <= 99)%Z ->
  ddmmyy_or_yymmdd a b c = Some iso -> two_digit_year_date iso.
Proof.
  intros Ha Hc. unfold ddmmyy_or_yymmdd.
  destruct (date_iso (2000 + c) b a) as [i1|] eqn:E1.
  - intros H. inversion H; subst. apply date_iso_Some in E1 as [Hv ->].
    now exists c, b, a.
  - intros H. apply date_iso_Some in H as [Hv ->]. now exists a, b, c.
Qed.

(** The groups of a 2-2-2 match are three two-digit numbers. *)
Lemma int_groups_2_2_2 (r : regex) (s : str) (m : Match) :
  r = re_2_2_2 \/ r = re_6 ->
  search false r s = Some m ->
  exists a b c, int_groups m = Some (a, b, c)
                /\ (0 <= a <= 99)%Z /\ (0 <= b <= 99)%Z /\ (0 <= c <= 99)%Z.
Proof.
  intros Hr Hs. apply search_Some in Hs as (Hstr & _ & Hm & _).
  destruct m as [ms i j cs]. cbn [m_string m_start m_end m_caps] in *. subst ms.
  assert (exists i1 j1 i2 j2 i3 j3,
            cs = [(3, (i3, j3)); (2, (i2, j2)); (1, (i1, j1))]
            /\ two_digits (slice s i1 j1) /\ two_digits (slice s i2 j2)
            /\ two_digits (slice s i3 j3)) as (i1 & j1 & i2 & j2 & i3 & j3 & -> & D1 & D2 & D3).
  { destruct Hr as [-> | ->]; cbv [re_2_2_2 re_6 seqs] in Hm;
      repeat match goal with
             | H : matches _ _ (Seq _ _) _ _ _ _ |- _ => inversion H; clear H; subst
             | H : matches _ _ WordBoundary _ _ _ _ |- _ => inversion H; clear H; subst
             | H : matches _ _ (OneOf _) _ _ _ _ |- _ => inversion H; clear H; subst
             | H : matches _ _ (Group _ d2) _ _ _ _ |- _ =>
                 apply group_d2 in H; destruct H as [? ?]; subst
             end;
      do 6 eexists; eauto. }
  destruct (two_digits_int _ D1) as (a & Ea & Ha).
  destruct (two_digits_int _ D2) as (b & Eb & Hb).
  destruct (two_digits_int _ D3) as (c & Ec & Hc).
  exists a, b, c. split; [|auto].
  unfold int_groups, group. cbn [span_of Nat.eqb m_caps m_string].
  now rewrite Ea, Eb, Ec.
Qed.

Lemma step_2_2_2_spec (r : regex) (s : str) :
  r = re_2_2_2 \/ r = re_6 ->
  exists res, step_2_2_2 r s = Ok res
              /\ forall iso, res = Some iso -> two_digit_year_date iso.
Proof.
  intros Hr. unfold step_2_2_2.
  destruct (search false r s) as [m|] eqn:Hs.
  - destruct (int_groups_2_2_2 r s m Hr Hs) as (a & b & c & -> & Ha & _ & Hc).
    eexists. split; [reflexivity|]. intros iso H.
    now apply (ddmmyy_or_yymmdd_Some a b c).
  - exists None. split; [reflexivity | discriminate].
Qed.

Lemma findall_six_digits (s chunk : str) :
  In chunk (findall false (times [Digit] 6 6) s) -> six_digits chunk.
Proof.
  unfold findall, finditer. intros H.
  apply in_map_iff in H as (m & <- & Hin).
  apply scan_In, match_at_Some in Hin as (_ & _ & Hm).
  cbv [times] in Hm.
  inversion Hm as [| | |? ? ? ? ? k Hlo Hhi Hall| | | | |]; subst.
  simpl in Hhi. assert (k = 6) as -> by lia.
  now apply digits_slice.
Qed.

Lemma findall_all_six_digits (s : str) :
  Forall six_digits (findall false (times [Digit] 6 6) s).
Proof.
  apply Forall_forall. intros x Hx. apply list_elem_of_In in Hx.
  now apply (findall_six_digits s).
Qed.

Lemma step_chunks_Some (chunks : list str) (iso : str) :
  Forall six_digits chunks ->
  step_chunks chunks = Some iso -> two_digit_year_date iso.
Proof.
  induction 1 as [|chunk rest [Hl Hf] _ IH]; [discriminate|].
  cbn [step_chunks].
  destruct chunk as [|x0 [|x1 [|x2 [|x3 [|x4 [|x5 [|]]]]]]]; try discriminate.
  repeat match goal with H : Forall _ (_ :: _) |- _ => inversion H; clear H; subst end.
  change (slice [x0; x1; x2; x3; x4; x5] 0 2) with [x0; x1].
  change (slice [x0; x1; x2; x3; x4; x5] 2 4) with [x2; x3].
  change (slice [x0; x1; x2; x3; x4; x5] 4 6) with [x4; x5].
  destruct (py_int_two_digits x0 x1) as (a & -> & Ha); [assumption..|].
  destruct (py_int_two_digits x2 x3) as (b & -> & Hb); [assumption..|].
  destruct (py_int_two_digits x4 x5) as (c & -> & Hc); [assumption..|].
  destruct (ddmmyy_or_yymmdd a b c) as [i|] eqn:E; [|exact IH].
  intros H. inversion H; subst. now apply (ddmmyy_or_yymmdd_Some a b c).
Qed.

Lemma step_4_2_2_Some (s iso : str) :
  step_4_2_2 s = Some iso -> iso_date iso.
Proof.
  unfold step_4_2_2. destruct (search false re_4_2_2 s) as [m|]; [|discriminate].
  destruct (int_groups m) as [[[y mo] d]|]; [|discriminate].
  intros H. apply date_iso_Some in H as [Hv ->]. now exists y, mo, d.
Qed.

Lemma two_digit_year_is_date (iso : str) : two_digit_year_date iso -> iso_date iso.
Proof. intros (yy & mo & d & _ & Hv & ->). now exists (2000 + yy)%Z, mo, d. Qed.

(** The filename tier never raises; what it resolves is the 4-2-2 date
    or a date with a two-digit year. *)
Lemma extract_date_from_filename_spec (filename : str) :
  exists res,
    extract_date_from_filename filename = Ok res
    /\ forall iso, res = Some iso ->
         step_4_2_2 (name_norm_of filename) = Some iso
         \/ (step_4_2_2 (name_norm_of filename) = None /\ two_digit_year_date iso).
Proof.
  unfold extract_date_from_filename.
  destruct (step_4_2_2 (name_norm_of filename)) as [i0|] eqn:E0.
  - eexists. split; [reflexivity|]. intros iso H. now left.
  - destruct (step_2_2_2_spec re_2_2_2 (name_norm_of filename)) as (r1 & -> & H1); [now left|].
    destruct r1 as [i1|].
    + eexists. split; [reflexivity|]. intros iso H. right. split; [reflexivity|].
      inversion H; subst. now apply H1.
    + destruct (step_2_2_2_spec re_6 (name_norm_of filename)) as (r2 & -> & H2); [now right|].
      destruct r2 as [i2|].
      * eexists. split; [reflexivity|]. intros iso H. right. split; [reflexivity|].
        inversion H; subst. now apply H2.
      * eexists. split; [reflexivity|]. intros iso H. right. split; [reflexivity|].
        apply (step_chunks_Some _ _ (findall_all_six_digits _) H).
Qed.

(** * Patterns without [\b] as languages *)

Lemma slice_one (s : str) (i : nat) (x : ascii) :
  nth_error s i = Some x -> slice s i (S i) = [x].
Proof.
  intros H. unfold slice. replace (S i - i) with 1 by lia.
  rewrite <- (Nat.add_0_r i), <- nth_error_skipn_add in H.
  destruct (skipn i s); [discriminate|]. simpl in H. now inversion H.
Qed.

Lemma slice_nil (s : str) (i : nat) : slice s i i = [].
Proof. unfold slice. now rewrite Nat.sub_diag. Qed.

Lemma matches_lang (icase : bool) (s : str) (r : regex) i c j c' :
  matches icase s r i c j c' ->
  boundary_free r = true -> i <= length s ->
  lang icase r (slice s i j).
Proof.
  induction 1 as [i c|p x i c Hx Hp|set x i c Hx Hp|set lo hi i c n Hlo Hhi Hall
                 |a b i c j c' k c'' Ha IHa Hb IHb|a b i c j c' Ha IHa|a b i c j c' Hb IHb
                 |n a i c j c' Ha IHa|i c Hbd];
    cbn [boundary_free lang]; intros Hbf Hi.
  - apply slice_nil.
  - exists x. split; [now apply slice_one | exact Hp].
  - exists x. split; [now apply slice_one | exact Hp].
  - destruct (slice_run (fun x => in_set icase set x = true) s i n Hall) as [Hl Hf].
    rewrite Hl. auto.
  - apply andb_true_iff in Hbf as [Hfa Hfb].
    pose proof (matches_bounds _ _ _ _ _ _ _ Ha Hi) as Bij.
    pose proof (matches_bounds _ _ _ _ _ _ _ Hb ltac:(lia)) as Bjk.
    exists (slice s i j), (slice s j k). split; [apply slice_cat; lia|].
    split; [apply IHa | apply IHb]; auto; lia.
  - apply andb_true_iff in Hbf as [Hfa Hfb]. left. auto.
  - apply andb_true_iff in Hbf as [Hfa Hfb]. right. auto.
  - auto.
  - discriminate.
Qed.

Lemma nth_error_mid (pre w post : str) (k : nat) (x : ascii) :
  nth_error w k = Some x -> nth_error (pre ++ w ++ post) (length pre + k) = Some x.
Proof.
  intros H. rewrite nth_error_app2 by lia.
  replace (length pre + k - length pre) with k by lia.
  rewrite nth_error_app1; [exact H|]. apply nth_error_Some. congruence.
Qed.

Lemma lang_matches (icase : bool) (r : regex) :
  forall w pre post c,
    lang icase r w ->
    exists c', matches icase (pre ++ w ++ post) r (length pre) c (length pre + length w) c'.
Proof.
  induction r as [|p|set|set lo hi|a IHa b IHb|a IHa b IHb|n a IHa|];
    intros w pre post c H; cbn [lang] in H.
  - subst w. cbn [length]. rewrite Nat.add_0_r. eexists. constructor.
  - destruct H as (x & -> & Hp). cbn [length]. rewrite Nat.add_1_r.
    eexists. econstructor; [|exact Hp].
    rewrite <- (Nat.add_0_r (length pre)). now apply nth_error_mid.
  - destruct H as (x & -> & Hp). cbn [length]. rewrite Nat.add_1_r.
    eexists. econstructor; [|exact Hp].
    rewrite <- (Nat.add_0_r (length pre)). now apply nth_error_mid.
  - destruct H as (Hlo & Hhi & Hf). eexists. constructor; [exact Hlo | exact Hhi |].
    intros k Hk. destruct (nth_error w k) as [x|] eqn:Hx.
    + exists x. split; [now apply nth_error_mid|].
      rewrite Forall_forall in Hf. apply Hf. apply list_elem_of_In.
      eapply nth_error_In; eauto.
    + apply nth_error_None in Hx. lia.
  - destruct H as (u & v & -> & Hu & Hv).
    destruct (IHa u pre (v ++ post) c Hu) as (c1 & M1).
    destruct (IHb v (pre ++ u) post c1 Hv) as (c2 & M2).
    exists c2. rewrite length_app in M2.
    rewrite <- !app_assoc in M2. rewrite <- app_assoc.
    rewrite length_app, Nat.add_assoc. econstructor; eauto.
  - destruct H as [H|H].
    + destruct (IHa w pre post c H) as (c1 & M1). exists c1. now apply M_alt_l.
    + destruct (IHb w pre post c H) as (c1 & M1). exists c1. now apply M_alt_r.
  - destruct (IHa w pre post c H) as (c1 & M1). eexists. constructor. eauto.
  - destruct H.
Qed.

(** Literal text under IGNORECASE. *)
Lemma lang_escape (p w : str) :
  lang true (escape p) w <-> map lower w = map lower p.
Proof.
  revert w. induction p as [|a p IH]; intros w; cbn [escape lang map].
  - split; [intros ->; reflexivity | intros H; now destruct w].
  - split.
    + intros (u & v & -> & (x & -> & Hx) & Hv). apply IH in Hv.
      unfold lit_match, ascii_eqb in Hx. apply Ascii.eqb_eq in Hx.
      cbn [app map]. now rewrite Hx, Hv.
    + intros H. destruct w as [|x w]; [discriminate|]. cbn [map] in H.
      inversion H as [[Hx Hw]]. exists [x], w. split; [reflexivity|]. split.
      * exists x. split; [reflexivity|]. unfold lit_match, ascii_eqb.
        now apply Ascii.eqb_eq.
      * now apply IH.
Qed.

(** The sets of the name pattern, character by character. *)
Lemma in_space (x : ascii) : in_set true [Space] x = isspace x.
Proof. each_char x. Qed.

Lemma in_letters (x : ascii) : in_set true letters x = is_letter x.
Proof. each_char x. Qed.

Lemma in_name_chars (x : ascii) : in_set true name_chars x = name_char x.
Proof. each_char x. Qed.

Lemma in_colon_dash (x : ascii) :
  in_set true colon_dash x = true <-> x = ":"%char \/ x = "-"%char.
Proof.
  split.
  - destruct x as [[] [] [] [] [] [] [] []]; vm_compute; try discriminate; auto.
  - intros [-> | ->]; reflexivity.
Qed.

Lemma name_char_not_space (x : ascii) : name_char x = true -> isspace x = false.
Proof. each_char x. Qed.

Lemma letter_not_space (x : ascii) : is_letter x = true -> isspace x = false.
Proof. each_char x. Qed.

Lemma Forall_ext_eq (f g : ascii -> bool) (w : str) :
  (forall x, f x = g x) ->
  Forall (fun x => f x = true) w <-> Forall (fun x => g x = true) w.
Proof.
  intros E. split; intros H.
  - eapply Forall_impl; [exact H|]. cbn. intros x Hx. now rewrite <- E.
  - eapply Forall_impl; [exact H|]. cbn. intros x Hx. now rewrite E.
Qed.

Lemma lang_star_space (w : str) : lang true (star [Space]) w <-> whitespace w.
Proof.
  unfold star, whitespace. cbn [lang within]. rewrite (Forall_ext_eq _ _ w in_space).
  split; [intros (_ & _ & H); exact H | intros H; repeat split; [lia | exact H]].
Qed.

Lemma lang_plus_space (w : str) : lang true (plus [Space]) w <-> w <> [] /\ whitespace w.
Proof.
  unfold plus, whitespace. cbn [lang within]. rewrite (Forall_ext_eq _ _ w in_space).
  split.
  - intros (Hl & _ & H). split; [|exact H]. intros ->. simpl in Hl. lia.
  - intros [Hn H]. repeat split; [|exact H]. destruct w; [congruence | simpl; lia].
Qed.

Lemma lang_opt_colon_dash (w : str) :
  lang true (opt colon_dash) w <-> w = [] \/ w = py ":" \/ w = py "-".
Proof.
  unfold opt. cbn [lang within]. split.
  - intros (_ & Hl & Hf). destruct w as [|x [|y w]]; [now left | | simpl in Hl; lia].
    inversion Hf as [|? ? Hx _]. apply in_colon_dash in Hx as [-> | ->]; auto.
  - intros [-> | [-> | ->]]; repeat split; simpl; try lia; repeat constructor.
Qed.

Lemma lang_name_token (w : str) :
  lang true (Seq (OneOf letters) (plus name_chars)) w <-> name_token w.
Proof.
  unfold plus, name_token. cbn [lang within]. split.
  - intros (u & v & -> & (x & -> & Hx) & Hl & _ & Hf).
    exists x, v. rewrite in_letters in Hx.
    rewrite (Forall_ext_eq _ _ v in_name_chars) in Hf.
    repeat split; auto. intros ->. simpl in Hl. lia.
  - intros (x & rest & -> & Hx & Hn & Hf). exists [x], rest. split; [reflexivity|].
    split; [exists x; split; [reflexivity | now rewrite in_letters]|].
    rewrite (Forall_ext_eq _ _ rest in_name_chars).
    repeat split; auto. destruct rest; [congruence | simpl; lia].
Qed.

Lemma lang_two_tokens (w : str) : lang true two_tokens w <-> two_token_name w.
Proof.
  unfold two_tokens, two_token_name. cbn [seqs].
  change (lang true (Seq (OneOf letters) (Seq (plus name_chars)
            (Seq (plus [Space]) (Seq (OneOf letters) (plus name_chars))))) w)
    with (exists u v, w = u ++ v /\ lang true (OneOf letters) u
            /\ exists u1 v1, v = u1 ++ v1 /\ lang true (plus name_chars) u1
            /\ exists u2 v2, v1 = u2 ++ v2 /\ lang true (plus [Space]) u2
            /\ lang true (Seq (OneOf letters) (plus name_chars)) v2).
  split.
  - intros (u & v & -> & Hu & u1 & v1 & -> & Hu1 & u2 & v2 & -> & Hu2 & Hv2).
    exists (u ++ u1), u2, v2. rewrite <- app_assoc. split; [reflexivity|].
    apply lang_plus_space in Hu2 as [Hne Hws]. apply lang_name_token in Hv2.
    repeat split; auto. apply lang_name_token. exists u, u1. auto.
  - intros (a & ws & b & -> & Ha & Hne & Hws & Hb).
    apply lang_name_token in Ha. cbn [lang] in Ha.
    destruct Ha as (u & u1 & -> & Hu & Hu1).
    exists u, (u1 ++ ws ++ b). rewrite <- app_assoc. split; [reflexivity|].
    split; [exact Hu|]. exists u1, (ws ++ b). split; [reflexivity|].
    split; [exact Hu1|]. exists ws, b. split; [reflexivity|].
    split; [now apply lang_plus_space | now apply lang_name_token].
Qed.

Lemma lang_name_label (w : str) :
  lang true (alts [literal "Patient Name"; literal "Name"]) w <-> name_label w.
Proof.
  unfold name_label. cbn [alts lang]. unfold literal. rewrite !lang_escape. reflexivity.
Qed.

Lemma two_token_name_strip (n : str) : two_token_name n -> strip n = n.
Proof.
  intros (a & ws & b & -> & (x & ra & -> & Hx & _ & _) & _ & _ & (y & rb & -> & _ & Hrb & Hfb)).
  destruct (exists_last Hrb) as (front & z & ->).
  apply Forall_app in Hfb as [_ Hz]. inversion Hz as [|? ? Hz' _].
  replace ((x :: ra) ++ ws ++ y :: front ++ [z])
    with (x :: (ra ++ ws ++ y :: front) ++ [z]) by (cbn; now rewrite <- !app_assoc).
  apply strip_nonspace; [now apply letter_not_space | now apply name_char_not_space].
Qed.

(** * The name extractor *)

(** The pattern of the name field matches exactly the labeled names. *)
Lemma lang_name_re (w : str) :
  lang true name_re w
  <-> exists label sep name, w = label ++ sep ++ name
        /\ name_label label /\ separator sep /\ two_token_name name.
Proof.
  unfold name_re. cbn [seqs].
  change (lang true (Seq (alts [literal "Patient Name"; literal "Name"])
            (Seq (star [Space]) (Seq (opt colon_dash) (Seq (star [Space])
               (Group 1 two_tokens))))) w)
    with (exists u v, w = u ++ v /\ lang true (alts [literal "Patient Name"; literal "Name"]) u
            /\ exists u1 v1, v = u1 ++ v1 /\ lang true (star [Space]) u1
            /\ exists u2 v2, v1 = u2 ++ v2 /\ lang true (opt colon_dash) u2
            /\ exists u3 v3, v2 = u3 ++ v3 /\ lang true (star [Space]) u3
            /\ lang true two_tokens v3).
  split.
  - intros (u & v & -> & Hu & u1 & v1 & -> & Hu1 & u2 & v2 & -> & Hu2 & u3 & v3 & -> & Hu3 & Hn).
    exists u, (u1 ++ u2 ++ u3), v3. rewrite <- !app_assoc. split; [reflexivity|].
    split; [now apply lang_name_label|]. split; [|now apply lang_two_tokens].
    exists u1, u2, u3. split; [reflexivity|].
    split; [now apply lang_star_space|]. split; [now apply lang_star_space|].
    now apply lang_opt_colon_dash.
  - intros (label & sep & name & -> & Hl & (a & b & c & -> & Ha & Hc & Hb) & Hn).
    exists label, (a ++ b ++ c ++ name). rewrite <- !app_assoc. split; [reflexivity|].
    split; [now apply lang_name_label|].
    exists a, (b ++ c ++ name). split; [reflexivity|]. split; [now apply lang_star_space|].
    exists b, (c ++ name). split; [reflexivity|]. split; [now apply lang_opt_colon_dash|].
    exists c, name. split; [reflexivity|]. split; [now apply lang_star_space|].
    now apply lang_two_tokens.
Qed.

Lemma name_re_boundary_free : boundary_free name_re = true.
Proof. reflexivity. Qed.

Lemma matches_caps (icase : bool) (s : str) (r : regex) i c j c' :
  matches icase s r i c j c' -> ngroups r = 0 -> c' = c.
Proof.
  induction 1; cbn [ngroups]; intros Hg; try reflexivity; try lia.
  - rewrite IHmatches2, IHmatches1 by lia. reflexivity.
  - apply IHmatches. lia.
  - apply IHmatches. lia.
Qed.

(** A match of the name pattern at [i] is a labeled name at [i], and
    its group 1 is the name. *)
Lemma name_re_match (text : str) (i j : nat) (cs : caps) :
  matches true text name_re i [] j cs -> i <= length text ->
  exists k, cs = [(1, (k, j))] /\ k <= j <= length text
            /\ labeled_name_at text (firstn i text) (slice text k j).
Proof.
  intros Hm Hi. unfold name_re in Hm. cbn [seqs] in Hm.
  inversion Hm as [| | | |? ? ? ? i1 c1 ? ? Hlab Hrest| | | |]; subst.
  inversion Hrest as [| | | |? ? ? ? i2 c2 ? ? Hs1 Hrest2| | | |]; subst.
  inversion Hrest2 as [| | | |? ? ? ? i3 c3 ? ? Hop Hrest3| | | |]; subst.
  inversion Hrest3 as [| | | |? ? ? ? k c4 ? ? Hs2 Hg| | | |]; subst.
  inversion Hg as [| | | | | | |? ? ? ? ? c5 Hn|]; subst.
  pose proof (matches_bounds _ _ _ _ _ _ _ Hlab Hi) as B1.
  pose proof (matches_bounds _ _ _ _ _ _ _ Hs1 ltac:(lia)) as B2.
  pose proof (matches_bounds _ _ _ _ _ _ _ Hop ltac:(lia)) as B3.
  pose proof (matches_bounds _ _ _ _ _ _ _ Hs2 ltac:(lia)) as B4.
  pose proof (matches_bounds _ _ _ _ _ _ _ Hn ltac:(lia)) as B5.
  apply matches_caps in Hlab as E1; [|reflexivity].
  apply matches_caps in Hs1 as E2; [|reflexivity].
  apply matches_caps in Hop as E3; [|reflexivity].
  apply matches_caps in Hs2 as E4; [|reflexivity].
  apply matches_caps in Hn as E5; [|reflexivity]. subst.
  apply matches_lang in Hlab; [|reflexivity | lia].
  apply matches_lang in Hs1; [|reflexivity | lia].
  apply matches_lang in Hop; [|reflexivity | lia].
  apply matches_lang in Hs2; [|reflexivity | lia].
  apply matches_lang in Hn; [|reflexivity | lia].
  exists k. split; [reflexivity|]. split; [lia|].
  exists (slice text i i1), (slice text i1 k), (skipn j text). split.
  - rewrite (slice_split text i j) at 1 by lia. f_equal.
    rewrite (slice_cat text i i1 j) by lia. rewrite <- app_assoc. f_equal.
    rewrite (slice_cat text i1 k j) by lia. now rewrite <- app_assoc.
  - split; [now apply lang_name_label|]. split; [|now apply lang_two_tokens].
    exists (slice text i1 i2), (slice text i2 i3), (slice text i3 k).
    split; [|split; [now apply lang_star_space|split;
                      [now apply lang_star_space | now apply lang_opt_colon_dash]]].
    rewrite (slice_cat text i1 i2 k) by lia. f_equal. apply slice_cat. lia.
Qed.

(** Conversely a labeled name at an offset is a match of the pattern
    from that offset. *)
Lemma labeled_name_matches (text pre name : str) :
  labeled_name_at text pre name ->
  exists j cs, matches true text name_re (length pre) [] j cs.
Proof.
  intros (label & sep & post & -> & Hl & Hs & Hn).
  destruct (lang_matches true name_re (label ++ sep ++ name) pre post []) as (cs & Hm).
  { apply lang_name_re. exists label, sep, name. auto. }
  rewrite <- !app_assoc in Hm. eauto.
Qed.

(** The name extractor returns the name of the leftmost labeled name of
    the text, and nothing only when the text holds no labeled name. *)
Lemma extract_name_spec (text : str) :
  match _extract_name text with
  | Some name =>
      exists pre, labeled_name_at text pre name
        /\ forall pre' name', labeled_name_at text pre' name' -> length pre <= length pre'
  | None => forall pre name, ~ labeled_name_at text pre name
  end.
Proof.
  unfold _extract_name. destruct (search true name_re text) as [m|] eqn:Hs.
  - apply search_Some in Hs as (Hstr & Hi & Hm & Hleft).
    destruct m as [ms i j cs]. cbn [m_string m_start m_end m_caps] in *. subst ms.
    destruct (name_re_match text i j cs Hm Hi) as (k & -> & Hk & Hlab).
    unfold group. cbn [span_of Nat.eqb m_caps m_string option_map].
    assert (Hst : strip (slice text k j) = slice text k j).
    { destruct Hlab as (? & ? & ? & _ & _ & _ & Hn). now apply two_token_name_strip. }
    rewrite Hst. exists (firstn i text). split; [exact Hlab|].
    intros pre' name' H'. rewrite length_firstn.
    destruct (Nat.le_gt_cases i (length pre')) as [Hle|Hlt]; [lia|].
    destruct (labeled_name_matches _ _ _ H') as (j' & cs' & Hm').
    exfalso. exact (Hleft _ _ _ Hlt Hm').
  - intros pre name H'.
    destruct (labeled_name_matches _ _ _ H') as (j' & cs' & Hm').
    apply (search_None _ _ _ Hs _ _ _) in Hm'; [exact Hm'|].
    destruct H' as (label & sep & post & -> & _). rewrite length_app. lia.
Qed.

(** * The shape of a token *)

Lemma be_bytes_byte (n : nat) (x : Z) : Forall byte (Sha256.be_bytes n x).
Proof.
  unfold Sha256.be_bytes. apply Forall_forall. intros b Hb.
  apply list_elem_of_In, in_map_iff in Hb as (i & <- & _).
  unfold byte. apply Z.mod_pos_bound. lia.
Qed.

Lemma be_bytes_length (n : nat) (x : Z) : length (Sha256.be_bytes n x) = n.
Proof. unfold Sha256.be_bytes. now rewrite length_map, length_rev, length_seq. Qed.

Lemma sha256_bytes (msg : list Z) :
  length (Sha256.sha256 msg) = 32 /\ Forall byte (Sha256.sha256 msg).
Proof.
  unfold Sha256.sha256. cbn [flat_map]. rewrite app_nil_r.
  split.
  - rewrite !length_app, !be_bytes_length. reflexivity.
  - repeat (apply Forall_app; split); apply be_bytes_byte.
Qed.

Lemma hex_digit_is_hex (n : Z) : (0 <= n < 16)%Z -> is_hex (Sha256.hex_digit n) = true.
Proof.
  intros H.
  replace n with (Z.of_nat (Z.to_nat n)) by lia.
  assert (Hk : Z.to_nat n < 16) by lia. revert Hk.
  generalize (Z.to_nat n) as k. intros k Hk.
  do 16 (destruct k as [|k]; [reflexivity|]). lia.
Qed.

Lemma hex_spec (bs : list Z) :
  Forall byte bs ->
  length (Sha256.hex bs) = 2 * length bs
  /\ Forall (fun c => is_hex c = true) (Sha256.hex bs).
Proof.
  induction 1 as [|b bs Hb _ [IHl IHf]]; [split; [reflexivity | constructor]|].
  unfold Sha256.hex in *. cbn [flat_map app length]. unfold byte in Hb. split.
  - rewrite IHl. lia.
  - repeat constructor; [| |exact IHf]; apply hex_digit_is_hex.
    + split; [apply Z.div_pos; lia | apply Z.div_lt_upper_bound; lia].
    + apply Z.mod_pos_bound. lia.
Qed.

Lemma hmac_hexdigest_spec (key msg : str) :
  length (Sha256.hmac_hexdigest key msg) = 64
  /\ Forall (fun c => is_hex c = true) (Sha256.hmac_hexdigest key msg).
Proof.
  unfold Sha256.hmac_hexdigest, Sha256.hmac.
  match goal with |- context [Sha256.hex (Sha256.sha256 ?m)] =>
    destruct (sha256_bytes m) as [Hl Hb]; destruct (hex_spec _ Hb) as [Hl' Hf];
    rewrite Hl in Hl' end.
  split; [exact Hl' | exact Hf].
Qed.

Lemma token_has_shape (salt base : str) :
  token_shape (py "PT_" ++ firstn 24 (Sha256.hmac_hexdigest salt base)).
Proof.
  destruct (hmac_hexdigest_spec salt base) as [Hl Hf].
  exists (firstn 24 (Sha256.hmac_hexdigest salt base)). split; [reflexivity|]. split.
  - rewrite length_firstn. lia.
  - now apply Forall_take.
Qed.

(** * Replacement templates *)

Lemma parse_plain (s : str) :
  Forall (fun c => ascii_eqb c "\" = false) s ->
  forall fuel, length s < fuel -> Template.parse fuel s = Ok (map Template.PChar s).
Proof.
  induction 1 as [|c s Hc _ IH]; intros fuel Hf.
  - destruct fuel; [simpl in Hf; lia | reflexivity].
  - destruct fuel as [|fuel]; [simpl in Hf; lia|]. cbn [Template.parse].
    rewrite Hc. cbn [negb]. rewrite IH by (simpl in Hf; lia). reflexivity.
Qed.

Lemma expand_plain (s : str) (m : Match) : Template.expand (map Template.PChar s) m = s.
Proof.
  unfold Template.expand. induction s as [|c s IH]; [reflexivity|].
  cbn [map flat_map app]. now rewrite IH.
Qed.

Lemma hex_not_backslash (c : ascii) : is_hex c = true -> ascii_eqb c "\" = false.
Proof. each_char c. Qed.

Lemma token_plain (t : str) :
  token_shape t -> Forall (fun c => ascii_eqb c "\" = false) t.
Proof.
  intros (h & -> & _ & Hf). repeat constructor.
  eapply Forall_impl; [exact Hf|]. intros c. apply hex_not_backslash.
Qed.

(** Substituting a token never fails to parse the replacement. *)
Lemma sub_escaped_token (old t s : str) :
  token_shape t ->
  exists out, Template.sub_escaped old t s = Ok out.
Proof.
  intros Ht. unfold Template.sub_escaped, Template.parse_template.
  rewrite (parse_plain t (token_plain t Ht)) by lia. eauto.
Qed.

(** * Running the handlers *)

Lemma log_more_nil (w : World) : log_more w [] = w.
Proof. destruct w. unfold log_more, with_state. cbn. now rewrite app_nil_r. Qed.

Lemma log_more_app (w : World) (a b : list LogLine) :
  log_more (log_more w a) b = log_more w (a ++ b).
Proof. unfold log_more, with_state. cbn. now rewrite app_assoc. Qed.

Lemma print_run (l : LogLine) (w : World) : print l w = (Ok tt, log_more w [l]).
Proof. reflexivity. Qed.

Lemma token_run (name dob : option str) (w : World) :
  exists t, _stable_patient_token name dob w = (Ok t, w)
            /\ t = py "PT_" ++ firstn 24 (Sha256.hmac_hexdigest (salt_of w) (composite_key name dob))
            /\ token_shape t.
Proof. eexists. split; [apply token_eq|]. split; [reflexivity | apply token_has_shape]. Qed.

Lemma vault_path_run (client : Vault) (name dob : option str) (scrubbed : str) (w : World) :
  exists s l, vault_path client name dob scrubbed w = (Ok s, log_more w l).
Proof.
  unfold vault_path, try_except, bind, lift, ret.
  destruct client as [insert|tokenize|].
  - destruct (insert (or_empty name) (or_empty dob)) as [[t|]|e].
    + destruct name as [n|].
      * destruct (truthy t && truthy n).
        -- destruct (Template.sub_escaped n t scrubbed);
             eexists _, []; now rewrite log_more_nil.
        -- eexists _, []; now rewrite log_more_nil.
      * eexists _, []; now rewrite log_more_nil.
    + eexists _, []; now rewrite log_more_nil.
    + rewrite print_run. eauto.
  - destruct (tokenize (or_empty name) (or_empty dob)) as [[]|e].
    + eexists _, []; now rewrite log_more_nil.
    + rewrite print_run. eauto.
  - eexists _, []; now rewrite log_more_nil.
Qed.

(** The redactor never raises; it returns the token of the extracted
    fields and leaves the world as it was, output apart. *)
Lemma scrub_pii_run (text : str) (w : World) :
  exists s l, scrub_pii text w = (Ok (s, patient_token_of w text), log_more w l).
Proof.
  unfold scrub_pii, patient_token_of.
  unfold bind at 1. rewrite token_eq.
  set (tok := py "PT_" ++ _).
  assert (Ht : token_shape tok) by apply token_has_shape.
  assert (Hsub : exists out,
             match _extract_name text with
             | Some n => if truthy n then lift (Template.sub_escaped n tok text) else ret text
             | None => ret text
             end w = (Ok out, w)).
  { destruct (_extract_name text) as [n|]; [|eexists; reflexivity].
    destruct (truthy n); [|eexists; reflexivity].
    destruct (sub_escaped_token n tok text Ht) as (out & ->). eexists; reflexivity. }
  destruct Hsub as (out & Hsub).
  unfold bind at 1. rewrite Hsub.
  unfold bind at 1. unfold ask at 1.
  destruct (skyflow_client w) as [client|].
  - destruct (SKYFLOW_ENABLED w).
    + unfold bind.
      match goal with |- context [vault_path client ?n ?d ?s w] =>
        destruct (vault_path_run client n d s w) as (s' & l & ->) end.
      unfold ret. eauto.
    + unfold bind, ret. eexists _, []. now rewrite log_more_nil.
  - unfold bind, ret. eexists _, []. now rewrite log_more_nil.
Qed.

Lemma gmtime_run (w : World) :
  gmtime w = (Ok (clock w (clock_reads w)),
              with_state w (redis_data w) (redis_calls w) (S (clock_reads w))
                (uuid_draws w) (stdout w)).
Proof. reflexivity. Qed.

(** Reading a history never raises: a failing store or a text that
    does not decode gives the empty list. *)
Lemma read_history_run (key : str) (w : World) :
  exists l,
    read_history key w
    = (Ok (if redis_fault w (redis_calls w) then JArr [] else stored_history w key),
       with_state w (redis_data w) (S (redis_calls w)) (clock_reads w) (uuid_draws w)
         (stdout w ++ l)).
Proof.
  unfold read_history, try_except, bind, redis_get, redis_call, stored_history.
  destruct (redis_fault w (redis_calls w)).
  - rewrite print_run. exists [LogRedisUnavailable RedisError]. reflexivity.
  - destruct (redis_data w !! key) as [[h|raw]|]; cbn [truthy_text].
    + exists []. unfold lift, json_loads, with_state. cbn. now rewrite app_nil_r.
    + destruct raw as [|c raw]; cbn [truthy].
      * exists []. unfold ret, with_state. cbn. now rewrite app_nil_r.
      * unfold lift, json_loads. rewrite print_run.
        exists [LogRedisUnavailable JSONDecodeError]. reflexivity.
    + exists []. unfold ret, with_state. cbn. now rewrite app_nil_r.
Qed.

(** Saving to a list never raises: a failing store is logged and
    skipped.  Anything but a list has no [append]. *)
Lemma save_history_run (key : str) (h : list JSON) (e : JSON) (w : World) :
  save_history key (JArr h) e w
  = (Ok (JArr (h ++ [e])),
     if redis_fault w (redis_calls w)
     then with_state w (redis_data w) (S (redis_calls w)) (clock_reads w) (uuid_draws w)
            (stdout w ++ [LogSaveSkipped RedisError])
     else with_state w (<[key := Dump (JArr (h ++ [e]))]> (redis_data w)) (S (redis_calls w))
            (clock_reads w) (uuid_draws w) (stdout w)).
Proof.
  unfold save_history, try_except, bind, lift, append_method, redis_set, redis_call,
    json_dumps, ret.
  destruct (redis_fault w (redis_calls w)); reflexivity.
Qed.

Lemma save_history_not_list (key : str) (h e : JSON) (w : World) :
  is_list h = false -> save_history key h e w = (Raise AttributeError, w).
Proof. destruct h; try discriminate; reflexivity. Qed.

Lemma search_medical_advice_run (b v d : JSON) (w : World) :
  exists l, search_medical_advice b v d w = (Ok (advice_of w b), log_more w l).
Proof.
  unfold search_medical_advice, advice_of, bind, ask.
  destruct (truthy_opt (PARALLEL_API_KEY w)); cbn [negb].
  - rewrite print_run. unfold ret. eauto.
  - unfold ret. exists []. now rewrite log_more_nil.
Qed.

Lemma high_or_low_not_null : high_or_low JNull = false.
Proof. reflexivity. Qed.

(** One turn of the research loop: a usable item gets its notes, any
    other item makes the loop raise. *)
Lemma annotate_run (item : JSON) (w : World) :
  exists o l,
    annotate item w = (o, log_more w l)
    /\ (item_usable item = true -> o = Ok (with_notes w item))
    /\ (item_usable item = false -> exists e, o = Raise e).
Proof.
  unfold annotate, bind, lift.
  destruct item as [| | | | |items|o];
    try (exists (Raise AttributeError), []; rewrite log_more_nil;
         split; [reflexivity | split; [discriminate | eauto]]).
  cbn [get_method subscript item_usable with_notes field].
  change (String.list_ascii_of_string "flag") with (py "flag").
  change (String.list_ascii_of_string "name") with (py "name").
  change (String.list_ascii_of_string "value") with (py "value").
  destruct (dict_get o (py "flag")) as [flag|] eqn:Ef; cbn [default from_option id].
  - destruct (high_or_low flag).
    + destruct (dict_get o (py "name")) as [name|]; cbn [default from_option id].
      * destruct (dict_get o (py "value")) as [value|].
        -- destruct (search_medical_advice_run name value flag w) as (l & ->).
           unfold setitem. do 2 eexists. split; [reflexivity|].
           split; [reflexivity | discriminate].
        -- exists (Raise KeyError), []. rewrite log_more_nil.
           split; [reflexivity | split; [discriminate | eauto]].
      * exists (Raise KeyError), []. rewrite log_more_nil.
        split; [reflexivity | split; [discriminate | eauto]].
    + unfold ret. eexists _, []. rewrite log_more_nil.
      split; [reflexivity | split; [reflexivity | discriminate]].
  - rewrite high_or_low_not_null. unfold ret. eexists _, []. rewrite log_more_nil.
    split; [reflexivity | split; [reflexivity | discriminate]].
Qed.

Lemma with_notes_log_more (w : World) (l : list LogLine) (item : JSON) :
  with_notes (log_more w l) item = with_notes w item.
Proof. reflexivity. Qed.

Lemma for_each_annotate_run (items : list JSON) :
  forall w, exists o l,
    for_each annotate items w = (o, log_more w l)
    /\ (forallb item_usable items = true -> o = Ok (map (with_notes w) items))
    /\ (forallb item_usable items = false -> exists e, o = Raise e).
Proof.
  induction items as [|x items IH]; intros w.
  - exists (Ok []), []. cbn. unfold ret. rewrite log_more_nil.
    split; [reflexivity | split; [reflexivity | discriminate]].
  - cbn [for_each forallb map]. unfold bind at 1.
    destruct (annotate_run x w) as (ox & l1 & -> & Hok & Hbad).
    destruct (item_usable x).
    + rewrite (Hok eq_refl). cbn [andb]. unfold bind at 1.
      destruct (IH (log_more w l1)) as (o & l2 & -> & Hok2 & Hbad2).
      rewrite log_more_app.
      destruct (forallb item_usable items).
      * rewrite (Hok2 eq_refl). unfold ret. do 2 eexists.
        split; [reflexivity | split; [reflexivity | discriminate]].
      * destruct (Hbad2 eq_refl) as (e & ->). do 2 eexists.
        split; [reflexivity | split; [discriminate | eauto]].
    + destruct (Hbad eq_refl) as (e & ->). do 2 eexists.
      split; [reflexivity | split; [discriminate | eauto]].
Qed.

(** Step E: on a usable analysis the loop ends and the analysis holds
    the notes; on any other analysis it raises, with [AttributeError]
    when the analysis is not a dict. *)
Lemma research_run (analysis : JSON) (w : World) :
  exists o l,
    research analysis w = (o, log_more w l)
    /\ (analysis_usable analysis = true -> o = Ok (researched w analysis))
    /\ (analysis_usable analysis = false -> exists e, o = Raise e)
    /\ (field "biomarkers" analysis = None -> analysis_usable analysis = false ->
        o = Raise AttributeError).
Proof.
  unfold research, researched, bind, lift.
  destruct analysis as [| | | | |items|o];
    try (exists (Raise AttributeError), []; rewrite log_more_nil;
         split; [reflexivity | split; [discriminate | split; [eauto | reflexivity]]]).
  cbn [get_method analysis_usable field].
  change (String.list_ascii_of_string "biomarkers") with (py "biomarkers").
  destruct (dict_get o (py "biomarkers")) as [b|] eqn:Eb; cbn [default from_option id].
  - destruct b as [| | | |s|items|o'];
      try (exists (Raise TypeError), []; rewrite log_more_nil;
           split; [reflexivity | split; [discriminate | split; [eauto | discriminate]]]).
    + destruct s as [|c s].
      * cbn. unfold ret. eexists _, []. rewrite log_more_nil.
        split; [reflexivity | split; [reflexivity | split; discriminate]].
      * exists (Raise AttributeError), []. rewrite log_more_nil.
        split; [reflexivity | split; [discriminate | split; [eauto | discriminate]]].
    + cbn [iterate entries].
      destruct (for_each_annotate_run items w) as (oi & l & -> & Hok & Hbad).
      destruct (forallb item_usable items).
      * rewrite (Hok eq_refl). unfold ret. do 2 eexists.
        split; [reflexivity | split; [reflexivity | split; discriminate]].
      * destruct (Hbad eq_refl) as (e & ->). do 2 eexists.
        split; [reflexivity | split; [discriminate | split; [eauto | discriminate]]].
    + destruct o' as [|[k v] o'].
      * cbn. unfold ret. eexists _, []. rewrite log_more_nil.
        split; [reflexivity | split; [reflexivity | split; discriminate]].
      * exists (Raise AttributeError), []. rewrite log_more_nil.
        split; [reflexivity | split; [discriminate | split; [eauto | discriminate]]].
  - cbn. unfold ret. eexists _, []. rewrite log_more_nil.
    split; [reflexivity | split; [reflexivity | split; discriminate]].
Qed.

Lemma lab_date_or_today_run (lab : option str) (w : World) :
  lab_date_or_today lab w
  = if truthy_opt lab
    then (Ok (or_empty lab), w)
    else (Ok (strftime_date (clock w (clock_reads w))),
          with_state w (redis_data w) (redis_calls w) (S (clock_reads w))
            (uuid_draws w) (stdout w)).
Proof.
  unfold lab_date_or_today. destruct lab as [d|]; [destruct d|]; reflexivity.
Qed.

#[local] Opaque Sha256.hmac_hexdigest.

Lemma isoformat_truthy (y m d : Z) : truthy (isoformat y m d) = true.
Proof. unfold isoformat. destruct (pad_num 4 y); reflexivity. Qed.

Lemma first_date_truthy (pats : list regex) (text d : str) :
  first_date pats text = Some d -> truthy d = true.
Proof.
  induction pats as [|pat pats IH]; [discriminate|]. cbn [first_date].
  destruct (search true pat text) as [m|]; [|exact IH].
  destruct (if 0 <? ngroups pat then group m 1 else group m 0) as [c|]; [|exact IH].
  destruct (_parse_date_string c) as [iso|]; [|exact IH].
  destruct (truthy iso) eqn:E; [|exact IH].
  intros H. now inversion H; subst.
Qed.

Lemma iso_date_truthy (iso : str) : iso_date iso -> truthy iso = true.
Proof. intros (y & m & d & _ & ->). apply isoformat_truthy. Qed.

Lemma filename_date_truthy (filename iso : str) :
  extract_date_from_filename filename = Ok (Some iso) -> truthy iso = true.
Proof.
  intros H. destruct (extract_date_from_filename_spec filename) as (res & E & Hres).
  rewrite E in H. inversion H; subst res.
  destruct (Hres iso eq_refl) as [H1 | [_ H2]].
  - apply iso_date_truthy. eapply step_4_2_2_Some; eauto.
  - apply iso_date_truthy. now apply two_digit_year_is_date.
Qed.

Lemma text_or_filename_date_truthy (raw filename d : str) :
  text_or_filename_date raw filename = Some d -> truthy d = true.
Proof.
  unfold text_or_filename_date, extract_lab_date.
  destruct (first_date patterns raw) as [d0|] eqn:E.
  - intros H. inversion H; subst. eapply first_date_truthy; eauto.
  - destruct (extract_date_from_filename filename) as [[r|]|] eqn:F; try discriminate.
    intros H. inversion H; subst. eapply filename_date_truthy; eauto.
Qed.

Lemma resolve_run (raw filename : str) (w : World) :
  (if negb (truthy_opt (extract_lab_date raw))
   then lift (extract_date_from_filename filename)
   else ret (extract_lab_date raw)) w
  = (Ok (text_or_filename_date raw filename), w).
Proof.
  unfold text_or_filename_date.
  destruct (extract_lab_date raw) as [d|] eqn:E.
  - unfold extract_lab_date in E. apply first_date_truthy in E.
    cbn [truthy_opt]. rewrite E. reflexivity.
  - cbn [truthy_opt negb].
    destruct (extract_date_from_filename_spec filename) as (res & -> & _). reflexivity.
Qed.

Lemma analysis_run (safe : str) (prev : option JSON) (w : World) :
  exists l,
    try_except (w0 <- ask ;; lift (anthropic w0 safe prev))
               (fun e => print (LogAnalysisUnavailable e) ;; ret mock_analysis) w
    = (Ok (reply_of w safe prev), log_more w l).
Proof.
  unfold try_except, bind, ask, lift, reply_of.
  destruct (anthropic w safe prev) as [a|e].
  - exists []. now rewrite log_more_nil.
  - rewrite print_run. unfold ret. eauto.
Qed.

Ltac norm_world :=
  cbn [with_state log_more PATIENT_TOKEN_SALT PARALLEL_API_KEY SKYFLOW_ENABLED
       skyflow_client anthropic redis_data redis_fault redis_calls clock clock_reads
       uuid_source uuid_draws stdout].

Lemma with_state_log_more (w : World) (l : list LogLine) d c r u o :
  with_state (log_more w l) d c r u o = with_state w d c r u o.
Proof. reflexivity. Qed.

Lemma with_state_with_state (w : World) d' c' r' u' o' d c r u o :
  with_state (with_state w d' c' r' u' o') d c r u o = with_state w d c r u o.
Proof. reflexivity. Qed.

Lemma log_more_with_state (w : World) d c r u o (l : list LogLine) :
  log_more (with_state w d c r u o) l = with_state w d c r u (o ++ l).
Proof. reflexivity. Qed.

Ltac flat_world :=
  norm_world;
  repeat (rewrite log_more_app || rewrite log_more_with_state
          || rewrite with_state_log_more || rewrite with_state_with_state);
  rewrite <- ?app_assoc.

(** ** Dicts *)

Lemma str_eqb_refl (a : str) : str_eqb a a = true.
Proof.
  induction a as [|c a IH]; [reflexivity|]. cbn [str_eqb].
  unfold ascii_eqb. now rewrite Ascii.eqb_refl.
Qed.

Lemma str_eqb_eq (a b : str) : str_eqb a b = true -> a = b.
Proof.
  revert b. induction a as [|c a IH]; intros [|d b]; cbn [str_eqb]; try discriminate.
  - reflexivity.
  - unfold ascii_eqb. destruct (Ascii.eqb c d) eqn:E; [|discriminate].
    apply Ascii.eqb_eq in E. intros H. now rewrite E, (IH b H).
Qed.

Lemma dict_get_set_eq (o : list (str * JSON)) (k : str) (v : JSON) :
  dict_get (dict_set o k v) k = Some v.
Proof.
  induction o as [|[k' v'] o IH]; cbn [dict_set dict_get].
  - now rewrite str_eqb_refl.
  - destruct (str_eqb k' k) eqn:E; cbn [dict_get]; rewrite E; [reflexivity | exact IH].
Qed.

Lemma dict_get_set_ne (o : list (str * JSON)) (k k' : str) (v : JSON) :
  k' <> k -> dict_get (dict_set o k v) k' = dict_get o k'.
Proof.
  intros Hne. induction o as [|[k0 v0] o IH]; cbn [dict_set dict_get].
  - destruct (str_eqb k k') eqn:E; [|reflexivity].
    apply str_eqb_eq in E. congruence.
  - destruct (str_eqb k0 k) eqn:E; cbn [dict_get].
    + apply str_eqb_eq in E. subst k0.
      destruct (str_eqb k k') eqn:E'; [|reflexivity].
      apply str_eqb_eq in E'. congruence.
    + destruct (str_eqb k0 k'); [reflexivity | exact IH].
Qed.

(** The analysis step E returns is a dict, and its biomarkers are the
    annotated items. *)
Lemma researched_dict (w : World) (analysis : JSON) :
  analysis_usable analysis = true ->
  exists o, researched w analysis = JObj o
            /\ (field "biomarkers" analysis = None -> dict_get o (py "biomarkers") = None)
            /\ (forall items, field "biomarkers" analysis = Some (JArr items) ->
                dict_get o (py "biomarkers") = Some (JArr (map (with_notes w) items))).
Proof.
  destruct analysis as [| | | | |items|o]; try discriminate.
  unfold researched, analysis_usable, with_items, field.
  change (String.list_ascii_of_string "biomarkers") with (py "biomarkers").
  destruct (dict_get o (py "biomarkers")) as [b|] eqn:Eb.
  - destruct b as [| | | |s|items|o']; try discriminate; intros _.
    + exists o. split; [reflexivity|]. split; intros; congruence.
    + eexists. split; [reflexivity|]. split; [discriminate|].
      intros items' H. inversion H; subst items'. cbn [default from_option id entries].
      apply dict_get_set_eq.
    + exists o. split; [reflexivity|]. split; intros; congruence.
  - intros _. exists o. split; [reflexivity|]. split; [auto | discriminate].
Qed.

Lemma history_usable_spec (h : JSON) :
  history_usable h = true ->
  exists l prev, h = JArr l /\ previous_biomarkers h = Ok prev.
Proof.
  destruct h as [| | | | |l|o]; try discriminate. cbn [history_usable].
  intros H. exists l. unfold previous_biomarkers, subscript_last. cbn [truthy_json].
  destruct l as [|x l]; [eexists; split; reflexivity|].
  destruct (last (x :: l)) as [e|] eqn:El.
  - destruct e as [| | | | |items|o]; try discriminate.
    cbn [field subscript] in *.
    change (String.list_ascii_of_string "biomarkers") with (py "biomarkers") in H.
    destruct (dict_get o (py "biomarkers")); [|discriminate].
    eexists; split; reflexivity.
  - apply last_None in El. discriminate.
Qed.

(** ** One run of [analyze], by its two parts *)

Lemma analyze_A_to_E_run (file_filename : option str) (raw_text : str) (w : World) :
  let orig := original_filename_of file_filename in
  let lab := text_or_filename_date raw_text orig in
  let tok := patient_token_of w raw_text in
  let h0 := if redis_fault w (redis_calls w) then JArr []
            else stored_history w (history_key_of tok) in
  let stamp := strftime_stamp (clock w (clock_reads w)) in
  exists safe o l,
    analyze_A_to_E file_filename raw_text w
    = (o, with_state w (redis_data w) (S (redis_calls w)) (S (clock_reads w))
            (uuid_draws w) (stdout w ++ l))
    /\ match previous_biomarkers h0 with
       | Raise e => o = Raise e
       | Ok prev =>
           (analysis_usable (reply_of w safe prev) = true ->
            o = Ok (mkAnalyzed lab stamp orig tok h0 (researched w (reply_of w safe prev))))
           /\ (analysis_usable (reply_of w safe prev) = false -> exists e, o = Raise e)
           /\ (field "biomarkers" (reply_of w safe prev) = None ->
               analysis_usable (reply_of w safe prev) = false -> o = Raise AttributeError)
       end.
Proof.
  intros orig lab tok h0 stamp.
  unfold analyze_A_to_E. fold (original_filename_of file_filename). fold orig.
  unfold bind at 1. rewrite resolve_run. fold lab.
  unfold bind at 1. rewrite gmtime_run.
  unfold bind at 1.
  match goal with |- context [scrub_pii raw_text ?w1] =>
    destruct (scrub_pii_run raw_text w1) as (safe & l1 & ->) end.
  cbn [fst snd].
  change (patient_token_of (with_state _ _ _ _ _ _) raw_text) with tok.
  unfold bind at 1. rewrite print_run.
  unfold bind at 1.
  match goal with |- context [read_history ?k ?w1] =>
    destruct (read_history_run k w1) as (l2 & ->) end.
  norm_world.
  change (stored_history _ (history_key_of tok)) with (stored_history w (history_key_of tok)).
  fold h0.
  unfold bind at 1. unfold lift at 1.
  exists safe.
  destruct (previous_biomarkers h0) as [prev|e].
  - unfold bind at 1. rewrite print_run.
    unfold bind at 1.
    match goal with
    | |- context [try_except (bind ask (fun w0 => lift (anthropic w0 ?s ?p))) _ ?w1] =>
        destruct (analysis_run s p w1) as (l3 & ->)
    end.
    unfold bind at 1.
    match goal with |- context [research ?a ?w1] =>
      destruct (research_run a w1) as (o & l4 & -> & Hok & Hbad & Hattr) end.
    change (reply_of _ safe prev) with (reply_of w safe prev) in *.
    destruct o as [a|e].
    + unfold ret. do 2 eexists. split.
      * flat_world. reflexivity.
      * split; [|split].
        -- intros Hu. specialize (Hok Hu). inversion Hok. reflexivity.
        -- intros Hu. destruct (Hbad Hu) as (e & He). discriminate.
        -- intros Hf Hu. specialize (Hattr Hf Hu). discriminate.
    + do 2 eexists. split.
      * flat_world. reflexivity.
      * split; [|split].
        -- intros Hu. specialize (Hok Hu). discriminate.
        -- eauto.
        -- intros Hf Hu. specialize (Hattr Hf Hu). now inversion Hattr.
  - do 2 eexists. split; [|reflexivity].
    flat_world. reflexivity.
Qed.

(** Step F on a list and a dict: the entry is appended and written
    unless the store fails, and the response is built either way. *)
Lemma analyze_F_run (stored_filename : str) (a : Analyzed) (w : World)
    (h : list JSON) (o : list (str * JSON)) :
  an_history_list a = JArr h ->
  an_analysis a = JObj o ->
  let lab := an_lab_date a in
  let key := history_key_of (an_patient_token a) in
  let entry :=
    JObj [(py "lab_date",
           JStr (if truthy_opt lab then or_empty lab
                 else strftime_date (clock w (clock_reads w))));
          (py "uploaded_at", JStr (an_uploaded_at a));
          (py "original_filename", JStr (an_original_filename a));
          (py "file_url", JStr (py "/files/" ++ stored_filename));
          (py "biomarkers", default (JArr []) (dict_get o (py "biomarkers")))] in
  analyze_F stored_filename a w
  = (Ok (mkResponse (an_patient_token a) (an_analysis a) (py "Report Generated & Encrypted")
           (an_original_filename a) (an_uploaded_at a)
           (if truthy_opt lab then or_empty lab
            else strftime_date (clock w (S (clock_reads w))))
           (py "/files/" ++ stored_filename)),
     with_state w
       (if redis_fault w (redis_calls w) then redis_data w
        else <[key := Dump (JArr (h ++ [entry]))]> (redis_data w))
       (S (redis_calls w))
       (if truthy_opt lab then clock_reads w else S (S (clock_reads w)))
       (uuid_draws w)
       (stdout w ++ if redis_fault w (redis_calls w) then [LogSaveSkipped RedisError] else [])).
Proof.
  intros Hh Ha lab key entry. unfold analyze_F. rewrite Hh, Ha.
  unfold bind at 1. rewrite lab_date_or_today_run. fold lab.
  destruct (truthy_opt lab) eqn:Et.
  - unfold bind at 1. unfold lift at 1. cbn [get_method].
    unfold bind at 1. rewrite save_history_run.
    unfold bind at 1. rewrite lab_date_or_today_run. fold lab.
    destruct (redis_fault w (redis_calls w)); norm_world; rewrite Et; unfold ret;
      subst entry key; cbn [default from_option id]; rewrite ?app_nil_r; reflexivity.
  - unfold bind at 1. unfold lift at 1. cbn [get_method].
    unfold bind at 1. rewrite save_history_run. norm_world.
    unfold bind at 1. rewrite lab_date_or_today_run. fold lab.
    destruct (redis_fault w (redis_calls w)); norm_world; rewrite Et; unfold ret;
      subst entry key; cbn [default from_option id]; rewrite ?app_nil_r; reflexivity.
Qed.

(** Step F raises before it calls the store when the history is not a
    list. *)
Lemma analyze_F_not_list (stored_filename : str) (a : Analyzed) (w : World)
    (o : list (str * JSON)) :
  is_list (an_history_list a) = false ->
  an_analysis a = JObj o ->
  exists reads,
    analyze_F stored_filename a w
    = (Raise AttributeError,
       with_state w (redis_data w) (redis_calls w) reads (uuid_draws w) (stdout w)).
Proof.
  intros Hh Ha. unfold analyze_F. rewrite Ha.
  unfold bind at 1. rewrite lab_date_or_today_run.
  destruct (truthy_opt (an_lab_date a)).
  - unfold bind at 1. unfold lift at 1. cbn [get_method].
    unfold bind at 1. rewrite save_history_not_list by exact Hh.
    exists (clock_reads w). destruct w; reflexivity.
  - unfold bind at 1. unfold lift at 1. cbn [get_method].
    unfold bind at 1. rewrite save_history_not_list by exact Hh.
    eexists. reflexivity.
Qed.

(** * The date-string normalizer *)

Lemma parse_with_Some (fmts : list (list directive)) (s iso : str) :
  parse_with fmts s = Some iso ->
  exists pre fmt post y m d,
    fmts = pre ++ fmt :: post
    /\ (forall f, In f pre -> strptime (strip s) f = None)
    /\ strptime (strip s) fmt = Some (y, m, d)
    /\ valid_date y m d = true /\ iso = isoformat y m d.
Proof.
  induction fmts as [|f fmts IH]; [discriminate|]. cbn [parse_with].
  destruct (strptime (strip s) f) as [[[y m] d]|] eqn:E.
  - intros H. inversion H; subst. exists [], f, fmts, y, m, d.
    repeat split; [intros ? [] | exact E |].
    unfold strptime in E. destruct (match_ true (pattern f) (strip s)); [|discriminate].
    destruct (negb _); [discriminate|].
    destruct (int_field _ gY _); [|discriminate].
    destruct (month_of _); [|discriminate].
    destruct (int_field _ gd _); [|discriminate].
    destruct (valid_date z z0 z1) eqn:V; [|discriminate]. now inversion E; subst.
  - intros H. destruct (IH H) as (pre & fmt & post & y & m & d & -> & Hpre & Hf & Hv & Hi).
    exists (f :: pre), fmt, post, y, m, d. repeat split; auto.
    intros f' [<- | Hin]; auto.
Qed.

Lemma parse_with_None (fmts : list (list directive)) (s : str) :
  parse_with fmts s = None <-> forall f, In f fmts -> strptime (strip s) f = None.
Proof.
  induction fmts as [|f fmts IH]; cbn [parse_with].
  - split; [intros _ ? [] | reflexivity].
  - destruct (strptime (strip s) f) as [[[y m] d]|] eqn:E.
    + split; [discriminate|]. intros H. rewrite (H f) in E; [discriminate | now left].
    + rewrite IH. split.
      * intros H f' [<- | Hin]; auto.
      * intros H f' Hin. apply H. now right.
Qed.

Lemma parse_date_string_is_date (s iso : str) :
  _parse_date_string s = Some iso -> iso_date iso.
Proof.
  intros H. apply parse_with_Some in H as (_ & _ & _ & y & m & d & _ & _ & _ & Hv & ->).
  now exists y, m, d.
Qed.

(** * The claims *)

(** C1 (the code breaks it).  On the text "DOB: 01/02/1990" the
    identity extractor matches the substring "01/02/1990" and returns
    its normalized form "1990-01-02"; the redactor replaces the
    normalized form, which does not occur in the text, so in every world
    (vault or not) the sanitized text is the input itself and still
    holds the matched date of birth. *)
Theorem scrub_pii_leaves_matched_dob (w : World) :
  option_map (fun m => group m 1) (search true dob_re (py "DOB: 01/02/1990"))
  = Some (Some (py "01/02/1990"))
  /\ _extract_dob (py "DOB: 01/02/1990") = Some (py "1990-01-02")
  /\ contains (py "01/02/1990") (py "DOB: 01/02/1990") = true
  /\ exists tok w', scrub_pii (py "DOB: 01/02/1990") w = (Ok (py "DOB: 01/02/1990", tok), w').
Proof.
  split; [vm_compute; reflexivity|]. split; [vm_compute; reflexivity|].
  split; [vm_compute; reflexivity|].
  destruct (scrub_pii_no_name (py "DOB: 01/02/1990") w) as (tok & w' & H);
    [vm_compute; reflexivity|].
  assert (E : redact_dob (_extract_dob (py "DOB: 01/02/1990")) (py "DOB: 01/02/1990")
              = py "DOB: 01/02/1990") by (vm_compute; reflexivity).
  rewrite E in H. eauto.
Qed.

(** C2 (the code breaks it).  With both fields absent the composite
    key is "|", which is not empty, so the random fallback is never
    taken: the token is the keyed hash of "|" under the salt, no random
    value is drawn, and under the default salt the token is always
    PT_26905723e029773b3ebd6e20. *)
Theorem anonymous_token_is_fixed (w : World) :
  _stable_patient_token None None w
  = (Ok (py "PT_" ++ firstn 24 (Sha256.hmac_hexdigest (salt_of w) (py "|"))), w)
  /\ uuid_draws (snd (_stable_patient_token None None w)) = uuid_draws w
  /\ fst (_stable_patient_token None None sample_world)
     = Ok (py "PT_26905723e029773b3ebd6e20").
Proof.
  rewrite !token_eq. split; [reflexivity|]. split; [reflexivity|].
  cbv [fst]. vm_compute. reflexivity.
Qed.

(** C4.  The token deriver is deterministic: for every pair of optional
    name and date of birth (in particular every non-empty pair), two
    calls in any two worlds with the same salt return the same token. *)
Theorem token_deterministic (name dob : option str) (w1 w2 : World) :
  PATIENT_TOKEN_SALT w1 = PATIENT_TOKEN_SALT w2 ->
  fst (_stable_patient_token name dob w1) = fst (_stable_patient_token name dob w2).
Proof.
  intros Hs. rewrite !token_eq. unfold salt_of. rewrite Hs. reflexivity.
Qed.

Lemma token_deterministic_witness :
  fst (_stable_patient_token (Some (py "John Smith")) (Some (py "1990-01-02")) sample_world)
  = fst (_stable_patient_token (Some (py "John Smith")) (Some (py "1990-01-02"))
           (log_more sample_world [LogSending])).
Proof.
  apply (token_deterministic (Some (py "John Smith")) (Some (py "1990-01-02"))
           sample_world (log_more sample_world [LogSending])).
  reflexivity.
Defined.

(** C5, counterexample.  The claim wants each token of the name to
    start with an upper-case letter; the extractor returns
    "john smith". *)
Lemma extract_name_lower_case :
  _extract_name (py "Name: john smith") = Some (py "john smith")
  /\ starts_upper (py "john smith") = false.
Proof. split; vm_compute; reflexivity. Qed.

(** C5, amended.  The name extractor returns the name of the leftmost
    labeled name of the text: a label "Patient Name" or "Name" in any
    case, an optional separator (white space, at most one colon or
    hyphen, white space), then two tokens separated by white space, each
    a letter of either case followed by one or more letters, apostrophes
    or hyphens.  It returns nothing exactly when the text holds no such
    labeled name, and it never raises. *)
Theorem extract_name_leftmost_labeled (text : str) :
  match _extract_name text with
  | Some name =>
      exists pre, labeled_name_at text pre name
        /\ forall pre' name', labeled_name_at text pre' name' -> length pre <= length pre'
  | None => forall pre name, ~ labeled_name_at text pre name
  end.
Proof. exact (extract_name_spec text). Qed.

(** C6.  The date-string normalizer returns the parse of the first
    format of its list, in the order of the list, that parses the
    stripped text to a valid calendar date, and nothing when none does.
    A candidate that is no calendar date is rejected and the next format,
    pattern or tier is tried: "13/01/2024" is read as day 13 of month 1,
    month 13 is no date, a labeled date that does not parse gives way to
    a later pattern, and the filename report_20241345.pdf resolves to
    nothing, like 20241345.pdf whose 8-digit candidate 2024-13-45 is
    matched and refused. *)
Theorem parse_date_string_first_valid :
  (forall s iso,
     _parse_date_string s = Some iso ->
     exists pre fmt post y m d,
       date_formats = pre ++ fmt :: post
       /\ (forall f, In f pre -> strptime (strip s) f = None)
       /\ strptime (strip s) fmt = Some (y, m, d)
       /\ valid_date y m d = true /\ iso = isoformat y m d)
  /\ (forall s, _parse_date_string s = None
                <-> forall f, In f date_formats -> strptime (strip s) f = None)
  /\ _parse_date_string (py "13/01/2024") = Some (py "2024-01-13")
  /\ _parse_date_string (py "01/02/2024") = Some (py "2024-01-02")
  /\ _parse_date_string (py "2024-13-45") = None
  /\ _parse_date_string (py "02/30/2024") = None
  /\ extract_lab_date (py "Date: 31/31/2024, drawn 2020-01-01") = Some (py "2020-01-01")
  /\ extract_date_from_filename (py "report_20241345.pdf") = Ok None
  /\ option_map int_groups (search false re_4_2_2 (py "20241345"))
     = Some (Some (2024, 13, 45)%Z)
  /\ extract_date_from_filename (py "20241345.pdf") = Ok None.
Proof.
  split; [intros s iso; apply parse_with_Some|].
  split; [intros s; apply parse_with_None|].
  repeat split; vm_compute; reflexivity.
Qed.

Lemma parse_date_string_first_valid_witness :
  exists pre fmt post y m d,
    date_formats = pre ++ fmt :: post
    /\ (forall f, In f pre -> strptime (strip (py "13/01/2024")) f = None)
    /\ strptime (strip (py "13/01/2024")) fmt = Some (y, m, d)
    /\ valid_date y m d = true /\ py "2024-01-13" = isoformat y m d.
Proof.
  apply (proj1 parse_date_string_first_valid (py "13/01/2024") (py "2024-01-13")).
  vm_compute. reflexivity.
Defined.

(** C10.  Whatever the filename tier resolves without the 4-2-2 form
    comes from two digits [yy] read as the year [2000 + yy]: it is the
    ISO text of a valid date whose year lies between 2000 and 2099. *)
Theorem filename_two_digit_year (filename iso : str) :
  extract_date_from_filename filename = Ok (Some iso) ->
  step_4_2_2 (name_norm_of filename) = None ->
  exists yy mo d : Z,
    (0 <= yy <= 99)%Z /\ valid_date (2000 + yy) mo d = true
    /\ iso = isoformat (2000 + yy) mo d.
Proof.
  intros H H0. destruct (extract_date_from_filename_spec filename) as (res & E & Hres).
  rewrite E in H. inversion H; subst res.
  destruct (Hres iso eq_refl) as [H1 | [_ H2]]; [congruence | exact H2].
Qed.

Lemma filename_two_digit_year_witness :
  extract_date_from_filename (py "991231.pdf") = Ok (Some (py "2099-12-31"))
  /\ exists yy mo d : Z,
       (0 <= yy <= 99)%Z /\ valid_date (2000 + yy) mo d = true
       /\ py "2099-12-31" = isoformat (2000 + yy) mo d.
Proof.
  split; [vm_compute; reflexivity|].
  apply (filename_two_digit_year (py "991231.pdf") (py "2099-12-31"));
    vm_compute; reflexivity.
Defined.

Lemma get_history_run (tok : str) (w : World) :
  exists l,
    get_history tok w
    = (Ok (tok, if redis_fault w (redis_calls w) then JArr []
                else stored_history w (history_key_of tok)),
       with_state w (redis_data w) (S (redis_calls w)) (clock_reads w) (uuid_draws w)
         (stdout w ++ l)).
Proof.
  unfold get_history, bind.
  destruct (read_history_run (history_key_of tok) w) as (l & ->).
  unfold ret. eauto.
Qed.

Lemma is_list_entries (h : JSON) : is_list h = true -> h = JArr (entries h).
Proof. destruct h; try discriminate; reflexivity. Qed.

Lemma append_entry_run (tok : str) (e : JSON) (w : World) :
  redis_fault w (redis_calls w) = false ->
  redis_fault w (S (redis_calls w)) = false ->
  is_list (stored_history w (history_key_of tok)) = true ->
  exists l,
    append_entry tok e w
    = (Ok (JArr (entries (stored_history w (history_key_of tok)) ++ [e])),
       with_state w
         (<[history_key_of tok
            := Dump (JArr (entries (stored_history w (history_key_of tok)) ++ [e]))]>
            (redis_data w))
         (S (S (redis_calls w))) (clock_reads w) (uuid_draws w) (stdout w ++ l)).
Proof.
  intros F0 F1 Hl. unfold append_entry, bind.
  destruct (read_history_run (history_key_of tok) w) as (l & ->).
  rewrite F0.
  destruct (stored_history w (history_key_of tok)) as [| | | | |h|]; try discriminate.
  cbn [entries]. rewrite save_history_run. norm_world. rewrite F1. eauto.
Qed.

Lemma stored_history_insert (w : World) (key : str) (h : JSON)
    (calls reads draws : nat) (out : list LogLine) :
  stored_history (with_state w (<[key := Dump h]> (redis_data w)) calls reads draws out) key
  = h.
Proof. unfold stored_history. norm_world. now rewrite lookup_insert_eq. Qed.

(** C7.  With the store answering and a list (or nothing, or a text
    that does not decode) stored under the token's key, reading the
    history, appending an entry and reading again gives the first list
    with the entry added at its end: the last element is the entry and
    the length grew by one.  A token with nothing stored reads as the
    empty list. *)
Theorem append_then_read (tok : str) (e : JSON) (w : World) :
  redis_up w 4 ->
  is_list (stored_history w (history_key_of tok)) = true ->
  exists before w1 stored w2 after w3,
    get_history tok w = (Ok (tok, JArr before), w1)
    /\ append_entry tok e w1 = (Ok stored, w2)
    /\ get_history tok w2 = (Ok (tok, JArr after), w3)
    /\ after = before ++ [e]
    /\ last after = Some e
    /\ length after = S (length before)
    /\ (redis_data w !! history_key_of tok = None -> before = []).
Proof.
  intros Hup Hl.
  assert (F0 : redis_fault w (redis_calls w) = false)
    by (rewrite <- (Nat.add_0_r (redis_calls w)); apply Hup; lia).
  assert (F1 : redis_fault w (S (redis_calls w)) = false)
    by (rewrite <- Nat.add_1_r; apply Hup; lia).
  assert (F2 : redis_fault w (S (S (redis_calls w))) = false)
    by (replace (S (S (redis_calls w))) with (redis_calls w + 2) by lia; apply Hup; lia).
  assert (F3 : redis_fault w (S (S (S (redis_calls w)))) = false)
    by (replace (S (S (S (redis_calls w)))) with (redis_calls w + 3) by lia; apply Hup; lia).
  destruct (get_history_run tok w) as (l0 & H0). rewrite F0 in H0.
  rewrite (is_list_entries _ Hl) in H0 at 1.
  set (w1 := with_state w (redis_data w) (S (redis_calls w)) (clock_reads w)
               (uuid_draws w) (stdout w ++ l0)) in *.
  destruct (append_entry_run tok e w1 F1 F2 Hl) as (l1 & H1).
  set (w2 := with_state w1 _ _ _ _ _) in H1.
  destruct (get_history_run tok w2) as (l2 & H2).
  change (redis_fault w2 (redis_calls w2)) with (redis_fault w (S (S (S (redis_calls w))))) in H2.
  rewrite F3 in H2.
  assert (E1 : stored_history w1 (history_key_of tok) = stored_history w (history_key_of tok))
    by reflexivity.
  assert (E2 : stored_history w2 (history_key_of tok)
               = JArr (entries (stored_history w (history_key_of tok)) ++ [e])).
  { subst w2. rewrite stored_history_insert. now rewrite E1. }
  rewrite E2 in H2.
  do 6 eexists. split; [exact H0|]. split; [exact H1|]. split; [exact H2|].
  split; [reflexivity|]. split; [apply last_snoc|].
  split; [rewrite length_app; simpl; lia|].
  intros Hnone. unfold stored_history. now rewrite Hnone.
Qed.

Lemma append_then_read_witness :
  exists before w1 stored w2 after w3,
    get_history (py "PT_26905723e029773b3ebd6e20") sample_world
    = (Ok (py "PT_26905723e029773b3ebd6e20", JArr before), w1)
    /\ append_entry (py "PT_26905723e029773b3ebd6e20")
         (JObj [(py "lab_date", JStr (py "2024-03-05")); (py "biomarkers", JArr [])]) w1
       = (Ok stored, w2)
    /\ get_history (py "PT_26905723e029773b3ebd6e20") w2
       = (Ok (py "PT_26905723e029773b3ebd6e20", JArr after), w3)
    /\ after = before ++ [JObj [(py "lab_date", JStr (py "2024-03-05"));
                                (py "biomarkers", JArr [])]]
    /\ last after = Some (JObj [(py "lab_date", JStr (py "2024-03-05"));
                                (py "biomarkers", JArr [])])
    /\ length after = S (length before)
    /\ (redis_data sample_world !! history_key_of (py "PT_26905723e029773b3ebd6e20") = None
        -> before = []).
Proof.
  apply (append_then_read (py "PT_26905723e029773b3ebd6e20")
           (JObj [(py "lab_date", JStr (py "2024-03-05")); (py "biomarkers", JArr [])])
           sample_world).
  - intros i Hi. reflexivity.
  - reflexivity.
Defined.

(** What steps A to E hand to step F when they do not raise: the
    analysis is a dict. *)
Lemma analyze_A_to_E_dict (file_filename : option str) (raw_text : str) (w : World)
    (a : Analyzed) (w1 : World) :
  analyze_A_to_E file_filename raw_text w = (Ok a, w1) ->
  (exists o, an_analysis a = JObj o)
  /\ an_patient_token a = patient_token_of w raw_text
  /\ redis_data w1 = redis_data w
  /\ redis_fault w1 = redis_fault w
  /\ redis_calls w1 = S (redis_calls w).
Proof.
  intros H.
  destruct (analyze_A_to_E_run file_filename raw_text w) as (safe & o & l & E & Hcase).
  rewrite E in H. inversion H; subst o w1. clear H E.
  split; [|repeat split].
  destruct (previous_biomarkers _) as [prev|e]; [|discriminate].
  destruct Hcase as (Hok & Hbad & _).
  destruct (analysis_usable (reply_of w safe prev)) eqn:Hu.
  - specialize (Hok eq_refl). inversion Hok. cbn [an_analysis].
    destruct (researched_dict w _ Hu) as (o & -> & _). eauto.
  - destruct (Hbad eq_refl) as (e & He). discriminate.
  - destruct (previous_biomarkers _) as [prev|e]; [|discriminate].
    destruct Hcase as (Hok & Hbad & _).
    destruct (analysis_usable (reply_of w safe prev)) eqn:Hu.
    + specialize (Hok eq_refl). inversion Hok. reflexivity.
    + destruct (Hbad eq_refl) as (e & He). discriminate.
Qed.

(** C8.  Reading a history never raises: it returns the empty list
    when the store fails and when nothing is stored under the key.  When
    steps A to E of [analyze] have computed the analysis and the write
    of step F fails, the failure is logged and skipped, the store is
    left as it was, and the caller gets a response that carries that
    analysis. *)
Theorem history_failures_absorbed :
  (forall tok w,
     exists h w',
       get_history tok w = (Ok (tok, h), w')
       /\ (redis_fault w (redis_calls w) = true -> h = JArr [])
       /\ (redis_data w !! history_key_of tok = None -> h = JArr []))
  /\ (forall file_filename stored_filename raw_text w a w1 h,
        analyze_A_to_E file_filename raw_text w = (Ok a, w1) ->
        an_history_list a = JArr h ->
        redis_fault w1 (redis_calls w1) = true ->
        exists resp w',
          analyze file_filename stored_filename raw_text w = (Ok resp, w')
          /\ r_analysis resp = an_analysis a
          /\ r_patient resp = an_patient_token a
          /\ r_uploaded_at resp = an_uploaded_at a
          /\ redis_data w' = redis_data w
          /\ last (stdout w') = Some (LogSaveSkipped RedisError)).
Proof.
  split.
  - intros tok w. destruct (get_history_run tok w) as (l & H).
    do 2 eexists. split; [exact H|]. split.
    + intros ->. reflexivity.
    + intros Hn. unfold stored_history. rewrite Hn. now destruct (redis_fault _ _).
  - intros ff sf raw w a w1 h HA Hh Hf.
    destruct (analyze_A_to_E_dict ff raw w a w1 HA) as ((o & Ho) & _ & Hd & _ & _).
    unfold analyze, bind. rewrite HA.
    rewrite (analyze_F_run sf a w1 h o Hh Ho). rewrite Hf.
    do 2 eexists. split; [reflexivity|]. cbn [r_analysis r_patient r_uploaded_at].
    norm_world. repeat split; [exact Hd | apply last_snoc].
Qed.

Lemma history_failures_absorbed_witness :
  exists a w1,
    analyze_A_to_E None (py "Ferritin 15 ng/mL LOW")
      (mkWorld None None false None (fun _ _ => Raise (ServiceError (py "down")))
         ∅ (fun n => Nat.eqb n 1) 0 (fun _ => mkTime 2024 3 5 12 0 0) 0
         (fun _ => py "x") 0 []) = (Ok a, w1)
    /\ exists resp w',
         analyze None (py "1-a.pdf") (py "Ferritin 15 ng/mL LOW")
           (mkWorld None None false None (fun _ _ => Raise (ServiceError (py "down")))
              ∅ (fun n => Nat.eqb n 1) 0 (fun _ => mkTime 2024 3 5 12 0 0) 0
              (fun _ => py "x") 0 []) = (Ok resp, w')
         /\ r_analysis resp = an_analysis a
         /\ r_patient resp = an_patient_token a
         /\ r_uploaded_at resp = an_uploaded_at a
         /\ redis_data w' = ∅
         /\ last (stdout w') = Some (LogSaveSkipped RedisError).
Proof.
  do 2 eexists. split; [vm_compute; reflexivity|].
  eapply (proj2 history_failures_absorbed None (py "1-a.pdf") (py "Ferritin 15 ng/mL LOW")).
  - vm_compute. reflexivity.
  - reflexivity.
  - reflexivity.
Defined.

(** C9, counterexample.  A text with two labeled names: the first pass
    redacts the first name only, the second pass finds the second name
    and changes the text again. *)
Lemma scrub_pii_second_pass_changes :
  exists t1 w1 t2 w2,
    scrub_pii (py "Name: John Smith, Name: Jane Doe") sample_world
    = (Ok (py "Name: PT_f6ee95feaf9b72b6c83104ff, Name: Jane Doe", t1), w1)
    /\ scrub_pii (py "Name: PT_f6ee95feaf9b72b6c83104ff, Name: Jane Doe") w1
       = (Ok (py "Name: PT_f6ee95feaf9b72b6c83104ff, Name: PT_822f546264a0b858fb5888ea", t2), w2)
    /\ str_eqb (py "Name: PT_f6ee95feaf9b72b6c83104ff, Name: Jane Doe")
               (py "Name: PT_f6ee95feaf9b72b6c83104ff, Name: PT_822f546264a0b858fb5888ea")
       = false.
Proof.
  do 4 eexists. split; [vm_compute; reflexivity|].
  split; [vm_compute; reflexivity | vm_compute; reflexivity].
Qed.

(** C9, amended.  When the identity extractor finds no labeled name
    and no labeled date of birth in the sanitized text of a first pass,
    a second pass returns that text unchanged.  This does not hold for
    every input: there is a text whose sanitized text a second pass
    changes. *)
Theorem scrub_pii_idempotent_once_clean :
  (forall t w s tok w1,
     scrub_pii t w = (Ok (s, tok), w1) ->
     _extract_name s = None ->
     _extract_dob s = None ->
     exists tok' w2, scrub_pii s w1 = (Ok (s, tok'), w2))
  /\ (exists t w s tok w1 s' tok' w2,
        scrub_pii t w = (Ok (s, tok), w1)
        /\ scrub_pii s w1 = (Ok (s', tok'), w2)
        /\ str_eqb s s' = false).
Proof.
  split.
  - intros t w s tok w1 _ Hn Hd.
    destruct (scrub_pii_no_name s w1 Hn) as (tok' & w2 & H).
    rewrite Hd in H. eauto.
  - exists (py "Name: John Smith, Name: Jane Doe"), sample_world.
    do 6 eexists. split; [vm_compute; reflexivity|].
    split; vm_compute; reflexivity.
Qed.

Lemma scrub_pii_idempotent_once_clean_witness :
  exists tok' w2,
    scrub_pii (py "Name: PT_66d5c329aa3ff5c86695bebf, DOB: DOB_REDACTED") sample_world
    = (Ok (py "Name: PT_66d5c329aa3ff5c86695bebf, DOB: DOB_REDACTED", tok'), w2).
Proof.
  eapply (proj1 scrub_pii_idempotent_once_clean
            (py "Name: John Smith, DOB: 13/13/1990") sample_world).
  - vm_compute. reflexivity.
  - vm_compute. reflexivity.
  - vm_compute. reflexivity.
Defined.

(** C3 (the code breaks it).  With no date in the text and none in the
    filename, the fallback reads the clock again instead of taking the
    date of [uploaded_at]: an upload stamped 2024-03-05T23:59:59Z gets
    the lab date 2024-03-06, in the stored entry and in the response. *)
Theorem lab_date_fallback_rereads_clock :
  exists resp w',
    analyze (Some (py "scan.pdf")) (py "1-a.pdf") (py "Vitamin D 20 ng/mL") sample_world
    = (Ok resp, w')
    /\ r_uploaded_at resp = py "2024-03-05T23:59:59Z"
    /\ r_lab_date resp = py "2024-03-06"
    /\ map (field "lab_date") (entries (stored_history w' (history_key_of (r_patient resp))))
       = [Some (JStr (py "2024-03-06"))]
    /\ map (field "uploaded_at")
         (entries (stored_history w' (history_key_of (r_patient resp))))
       = [Some (JStr (py "2024-03-05T23:59:59Z"))].
Proof.
  do 2 eexists. split; [vm_compute; reflexivity|].
  repeat split; vm_compute; reflexivity.
Qed.

(** * Further properties of the code *)

Lemma first_date_app (a b : list regex) (text : str) :
  first_date (a ++ b) text
  = match first_date a text with
    | Some d => Some d
    | None => first_date b text
    end.
Proof.
  induction a as [|pat a IH]; [reflexivity|]. cbn [app first_date].
  destruct (search true pat text) as [m|]; [|exact IH].
  destruct (if 0 <? ngroups pat then group m 1 else group m 0) as [c|]; [|exact IH].
  destruct (_parse_date_string c) as [iso|]; [|exact IH].
  destruct (truthy iso); [reflexivity | exact IH].
Qed.

(** One run of [analyze] when the stored history and the replies of
    the service are usable. *)
Lemma analyze_run (file_filename : option str) (stored_filename raw_text : str) (w : World) :
  let orig := original_filename_of file_filename in
  let lab := text_or_filename_date raw_text orig in
  let tok := patient_token_of w raw_text in
  let key := history_key_of tok in
  let h0 := if redis_fault w (redis_calls w) then JArr [] else stored_history w key in
  let stamp := strftime_stamp (clock w (clock_reads w)) in
  history_usable (stored_history w key) = true ->
  replies_usable w ->
  exists analysis l reads,
    let entry :=
      JObj [(py "lab_date",
             JStr (match lab with
                   | Some d => d
                   | None => strftime_date (clock w (S (clock_reads w)))
                   end));
            (py "uploaded_at", JStr stamp);
            (py "original_filename", JStr orig);
            (py "file_url", JStr (py "/files/" ++ stored_filename));
            (py "biomarkers", default (JArr []) (field "biomarkers" analysis))] in
    analyze file_filename stored_filename raw_text w
    = (Ok (mkResponse tok analysis (py "Report Generated & Encrypted") orig stamp
             (match lab with
              | Some d => d
              | None => strftime_date (clock w (S (S (clock_reads w))))
              end)
             (py "/files/" ++ stored_filename)),
       with_state w
         (if redis_fault w (S (redis_calls w)) then redis_data w
          else <[key := Dump (JArr (entries h0 ++ [entry]))]> (redis_data w))
         (S (S (redis_calls w))) reads (uuid_draws w) (stdout w ++ l))
    /\ (exists safe prev, analysis = researched w (reply_of w safe prev)).
Proof.
  intros orig lab tok key h0 stamp Hh Hrep.
  pose proof (text_or_filename_date_truthy raw_text orig) as Htruthy. fold lab in Htruthy.
  assert (Hh0 : history_usable h0 = true).
  { subst h0. destruct (redis_fault w (redis_calls w)); [reflexivity | exact Hh]. }
  destruct (history_usable_spec h0 Hh0) as (hl & prev & Eh & Ep).
  destruct (analyze_A_to_E_run file_filename raw_text w) as (safe & o & l & E & Hcase).
  fold orig lab tok key h0 stamp in Hcase. rewrite Ep in Hcase.
  destruct Hcase as (Hok & _). specialize (Hok (Hrep safe prev)). subst o.
  destruct (researched_dict w _ (Hrep safe prev)) as (ob & Er & _).
  unfold analyze, bind. rewrite E.
  rewrite (analyze_F_run stored_filename _ _ hl ob) by (cbn [an_history_list an_analysis]; assumption).
  cbn [an_lab_date an_uploaded_at an_original_filename an_patient_token an_analysis].
  norm_world. fold key.
  exists (researched w (reply_of w safe prev)).
  rewrite Er. cbn [field].
  change (String.list_ascii_of_string "biomarkers") with (py "biomarkers").
  rewrite Eh. cbn [entries].
  destruct lab as [d|] eqn:Elab.
  - cbn [truthy_opt or_empty]. rewrite (Htruthy d eq_refl).
    do 2 eexists. split; [|eauto]. rewrite <- app_assoc. reflexivity.
  - cbn [truthy_opt or_empty].
    do 2 eexists. split; [|eauto]. rewrite <- app_assoc. reflexivity.
Qed.

(** What one run of [analyze] does to the store, whatever its
    outcome: one or two calls, and at most one write, of a list that
    ends with an entry holding biomarkers, under the history key of the
    patient token. *)
Lemma analyze_store_run (file_filename : option str) (stored_filename raw_text : str)
    (w : World) :
  let key := history_key_of (patient_token_of w raw_text) in
  exists o w',
    analyze file_filename stored_filename raw_text w = (o, w')
    /\ (redis_data w' = redis_data w
        \/ exists h e b,
             redis_data w' = <[key := Dump (JArr (h ++ [e]))]> (redis_data w)
             /\ field "biomarkers" e = Some b)
    /\ (redis_calls w' = S (redis_calls w) \/ redis_calls w' = S (S (redis_calls w)))
    /\ (forall resp, o = Ok resp -> redis_calls w' = S (S (redis_calls w))).
Proof.
  intros key.
  destruct (analyze_A_to_E_run file_filename raw_text w) as (safe & o & l & E & Hcase).
  unfold analyze, bind. rewrite E. destruct o as [a|e].
  - destruct (analyze_A_to_E_dict _ _ _ _ _ E) as ((ob & Ho) & Htok & _).
    destruct (an_history_list a) as [| | | | |hl|] eqn:Eh;
      try (destruct (analyze_F_not_list stored_filename a
                       (with_state w (redis_data w) (S (redis_calls w)) (S (clock_reads w))
                          (uuid_draws w) (stdout w ++ l)) ob) as (reads & ->);
           [rewrite Eh; reflexivity | exact Ho |];
           do 2 eexists; split; [reflexivity|]; norm_world;
           split; [left; reflexivity | split; [left; reflexivity | discriminate]]).
    rewrite (analyze_F_run stored_filename a _ hl ob Eh Ho). rewrite Htok. fold key.
    do 2 eexists. split; [reflexivity|]. norm_world.
    split; [|split; [right; reflexivity | reflexivity]].
    destruct (redis_fault w (S (redis_calls w))); [left; reflexivity|].
    right. do 3 eexists. split; [reflexivity|]. reflexivity.
  - do 2 eexists. split; [reflexivity|]. norm_world.
    split; [left; reflexivity | split; [left; reflexivity | discriminate]].
Qed.

(** X1.  When the stored history and the replies of the analysis
    service are usable, [analyze] answers, and the lab date of its
    response follows the fallback chain: the first labeled pattern of
    the text whose first match parses, else the first bare pattern whose
    first match parses, else the date inferred from the original
    filename, else the date of the clock at the time the response is
    built. *)
Theorem lab_date_priority (file_filename : option str) (stored_filename raw_text : str)
    (w : World) :
  history_usable (stored_history w (history_key_of (patient_token_of w raw_text))) = true ->
  replies_usable w ->
  exists resp w',
    analyze file_filename stored_filename raw_text w = (Ok resp, w')
    /\ r_lab_date resp
       = match first_date labeled_patterns raw_text with
         | Some d => d
         | None =>
             match first_date bare_patterns raw_text with
             | Some d => d
             | None =>
                 match extract_date_from_filename (original_filename_of file_filename) with
                 | Ok (Some d) => d
                 | _ => strftime_date (clock w (S (S (clock_reads w))))
                 end
             end
         end.
Proof.
  intros Hh Hrep.
  destruct (analyze_run file_filename stored_filename raw_text w Hh Hrep)
    as (a & l & reads & H & _).
  do 2 eexists. split; [exact H|]. cbn [r_lab_date].
  unfold text_or_filename_date, extract_lab_date, patterns. rewrite first_date_app.
  destruct (first_date labeled_patterns raw_text); [reflexivity|].
  destruct (first_date bare_patterns raw_text); [reflexivity|].
  destruct (extract_date_from_filename _) as [[d|]|]; reflexivity.
Qed.

Lemma sample_replies_usable : replies_usable sample_world.
Proof. intros safe prev. reflexivity. Qed.

Lemma lab_date_priority_witness :
  exists resp w',
    analyze (Some (py "scan 2024-03-05.pdf")) (py "1-a.pdf") (py "Ferritin 15 ng/mL LOW")
      sample_world = (Ok resp, w')
    /\ r_lab_date resp
       = match first_date labeled_patterns (py "Ferritin 15 ng/mL LOW") with
         | Some d => d
         | None =>
             match first_date bare_patterns (py "Ferritin 15 ng/mL LOW") with
             | Some d => d
             | None =>
                 match extract_date_from_filename
                         (original_filename_of (Some (py "scan 2024-03-05.pdf"))) with
                 | Ok (Some d) => d
                 | _ => strftime_date (clock sample_world (S (S (clock_reads sample_world))))
                 end
             end
         end.
Proof.
  apply (lab_date_priority (Some (py "scan 2024-03-05.pdf")) (py "1-a.pdf")
           (py "Ferritin 15 ng/mL LOW") sample_world).
  - reflexivity.
  - exact sample_replies_usable.
Defined.

(** X2.  The token deriver never raises, draws nothing and changes
    nothing, and its token is always [PT_] followed by 24 lower-case
    hexadecimal digits. *)
Theorem token_is_well_formed (name dob : option str) (w : World) :
  exists t, _stable_patient_token name dob w = (Ok t, w) /\ token_shape t.
Proof. destruct (token_run name dob w) as (t & H & _ & Hs). eauto. Qed.

Lemma filename_date_is_valid_aux (filename : str) :
  exists res,
    extract_date_from_filename filename = Ok res
    /\ forall iso, res = Some iso -> iso_date iso.
Proof.
  destruct (extract_date_from_filename_spec filename) as (res & E & Hres).
  exists res. split; [exact E|]. intros iso Hi.
  destruct (Hres iso Hi) as [H1 | [_ H2]].
  - eapply step_4_2_2_Some; eauto.
  - now apply two_digit_year_is_date.
Qed.

(** X3.  The filename tier never raises, and a date it resolves is the
    ISO text of a valid calendar date. *)
Theorem filename_date_is_valid (filename : str) :
  exists res,
    extract_date_from_filename filename = Ok res
    /\ forall iso, res = Some iso -> iso_date iso.
Proof. exact (filename_date_is_valid_aux filename). Qed.

(** X4.  The redactor never raises, whatever the vault does; the token
    it returns is the locally derived one, and it leaves the store, the
    clock and the random source untouched (it only prints). *)
Theorem scrub_pii_total (text : str) (w : World) :
  exists s l,
    scrub_pii text w = (Ok (s, patient_token_of w text), log_more w l)
    /\ token_shape (patient_token_of w text).
Proof.
  destruct (scrub_pii_run text w) as (s & l & H).
  exists s, l. split; [exact H | apply token_has_shape].
Qed.

Lemma splice_ext (s : str) (f g : Match -> str) :
  (forall m, f m = g m) ->
  forall ms pos, splice s f pos ms = splice s g pos ms.
Proof.
  intros E. induction ms as [|m ms IH]; intros pos; [reflexivity|].
  cbn [splice]. now rewrite E, IH.
Qed.

Lemma sub_escaped_plain (old t s : str) :
  token_shape t ->
  Template.sub_escaped old t s = Ok (sub_with false (escape old) (fun _ => t) s).
Proof.
  intros Ht. unfold Template.sub_escaped, Template.parse_template.
  rewrite (parse_plain t (token_plain t Ht)) by lia. f_equal.
  unfold sub_with. apply splice_ext. intros m. apply expand_plain.
Qed.

Lemma vault_path_silent (client : Vault) (name dob : option str) (scrubbed : str) (w : World) :
  match client with
  | VaultInsert insert =>
      match insert (or_empty name) (or_empty dob) with
      | Ok (Some t) => truthy t = false
      | _ => True
      end
  | _ => True
  end ->
  exists l, vault_path client name dob scrubbed w = (Ok scrubbed, log_more w l).
Proof.
  unfold vault_path, try_except, bind, lift, ret.
  destruct client as [insert|tokenize|].
  - destruct (insert (or_empty name) (or_empty dob)) as [[t|]|e]; intros H.
    + rewrite H. destruct name; exists []; now rewrite log_more_nil.
    + exists []; now rewrite log_more_nil.
    + rewrite print_run. eauto.
  - intros _. destruct (tokenize (or_empty name) (or_empty dob)) as [[]|e].
    + exists []; now rewrite log_more_nil.
    + rewrite print_run. eauto.
  - intros _. exists []; now rewrite log_more_nil.
Qed.

(** X5.  When the vault is out of play (no client, switched off, a
    call that raises, an answer without a token) the sanitized text is
    exactly the local redaction: a vault failure never alters it. *)
Theorem scrub_pii_local_when_vault_silent (text : str) (w : World) :
  vault_silent w text ->
  exists l,
    scrub_pii text w
    = (Ok (locally_redacted w text, patient_token_of w text), log_more w l).
Proof.
  intros Hv. unfold scrub_pii, locally_redacted.
  unfold bind at 1. rewrite token_eq. fold (patient_token_of w text).
  assert (Hsub : match _extract_name text with
                 | Some n => if truthy n
                             then lift (Template.sub_escaped n (patient_token_of w text) text)
                             else ret text
                 | None => ret text
                 end w
                 = (Ok match _extract_name text with
                       | Some n => if truthy n
                                   then sub_with false (escape n)
                                          (fun _ => patient_token_of w text) text
                                   else text
                       | None => text
                       end, w)).
  { destruct (_extract_name text) as [n|]; [|reflexivity].
    destruct (truthy n); [|reflexivity].
    unfold lift. now rewrite sub_escaped_plain by apply token_has_shape. }
  unfold bind at 1. rewrite Hsub.
  unfold bind at 1. unfold ask at 1.
  fold (redact_dob (_extract_dob text)
          match _extract_name text with
          | Some n => if truthy n
                      then sub_with false (escape n) (fun _ => patient_token_of w text) text
                      else text
          | None => text
          end).
  unfold vault_silent in Hv.
  destruct (skyflow_client w) as [client|].
  - destruct (SKYFLOW_ENABLED w).
    + destruct Hv as [Hv|Hv]; [discriminate|]. unfold bind.
      match goal with |- context [vault_path client ?n ?d ?s w] =>
        destruct (vault_path_silent client n d s w Hv) as (l & ->) end.
      unfold ret. eauto.
    + unfold bind, ret. exists []. now rewrite log_more_nil.
  - unfold bind, ret. exists []. now rewrite log_more_nil.
Qed.

Lemma scrub_pii_local_when_vault_silent_witness :
  exists l,
    scrub_pii (py "Name: John Smith, DOB: 13/13/1990") sample_world
    = (Ok (locally_redacted sample_world (py "Name: John Smith, DOB: 13/13/1990"),
           patient_token_of sample_world (py "Name: John Smith, DOB: 13/13/1990")),
       log_more sample_world l).
Proof.
  apply (scrub_pii_local_when_vault_silent (py "Name: John Smith, DOB: 13/13/1990")
           sample_world).
  exact I.
Defined.

(** X6.  Whatever its outcome, one run of [analyze] calls the store
    once or twice (twice whenever it answers) and leaves it as it was
    or with one write, under the history key of the patient token, of a
    list that ends with an entry holding biomarkers. *)
Theorem analyze_touches_one_key (file_filename : option str)
    (stored_filename raw_text : str) (w : World) :
  exists o w',
    analyze file_filename stored_filename raw_text w = (o, w')
    /\ (redis_data w' = redis_data w
        \/ exists h e b,
             redis_data w'
             = <[history_key_of (patient_token_of w raw_text) := Dump (JArr (h ++ [e]))]>
                 (redis_data w)
             /\ field "biomarkers" e = Some b)
    /\ (redis_calls w' = S (redis_calls w) \/ redis_calls w' = S (S (redis_calls w)))
    /\ (forall resp, o = Ok resp -> redis_calls w' = S (S (redis_calls w))).
Proof. exact (analyze_store_run file_filename stored_filename raw_text w). Qed.

(** X7.  With the store answering and a usable history and service,
    one run of [analyze] answers and adds exactly one entry at the end
    of the patient's history, as [get_history] then reads it; the entry
    carries the upload stamp, the filename, the file reference and the
    biomarkers of the response, and its lab date whenever a date was
    resolved from the text or the filename; the history is usable
    again. *)
Theorem analyze_appends_one_entry (file_filename : option str)
    (stored_filename raw_text : str) (w : World) :
  redis_up w 3 ->
  history_usable (stored_history w (history_key_of (patient_token_of w raw_text))) = true ->
  replies_usable w ->
  exists resp w' e h w'',
    analyze file_filename stored_filename raw_text w = (Ok resp, w')
    /\ get_history (r_patient resp) w' = (Ok (r_patient resp, JArr h), w'')
    /\ h = entries (stored_history w (history_key_of (r_patient resp))) ++ [e]
    /\ field "uploaded_at" e = Some (JStr (r_uploaded_at resp))
    /\ field "original_filename" e = Some (JStr (r_original_filename resp))
    /\ field "file_url" e = Some (JStr (r_file_url resp))
    /\ field "biomarkers" e = Some (default (JArr []) (field "biomarkers" (r_analysis resp)))
    /\ (text_or_filename_date raw_text (r_original_filename resp) <> None ->
        field "lab_date" e = Some (JStr (r_lab_date resp)))
    /\ history_usable (JArr h) = true.
Proof.
  intros Hup Hh Hrep.
  assert (F0 : redis_fault w (redis_calls w) = false)
    by (rewrite <- (Nat.add_0_r (redis_calls w)); apply Hup; lia).
  assert (F1 : redis_fault w (S (redis_calls w)) = false)
    by (rewrite <- Nat.add_1_r; apply Hup; lia).
  assert (F2 : redis_fault w (S (S (redis_calls w))) = false)
    by (replace (S (S (redis_calls w))) with (redis_calls w + 2) by lia; apply Hup; lia).
  destruct (analyze_run file_filename stored_filename raw_text w Hh Hrep)
    as (a & l & reads & H & _).
  rewrite F0, F1 in H.
  match type of H with
  | context [Dump (JArr (_ ++ [?e0]))] => set (e := e0) in *
  end.
  match type of H with _ = (Ok ?r, ?w1) => set (resp := r) in *; set (w' := w1) in * end.
  destruct (get_history_run (r_patient resp) w') as (l' & Hg).
  change (redis_fault w' (redis_calls w')) with (redis_fault w (S (S (redis_calls w)))) in Hg.
  rewrite F2 in Hg.
  assert (E : stored_history w' (history_key_of (r_patient resp))
              = JArr (entries (stored_history w (history_key_of (patient_token_of w raw_text)))
                      ++ [e])).
  { subst w' resp. cbn [r_patient]. apply stored_history_insert. }
  rewrite E in Hg.
  exists resp, w', e. do 2 eexists. split; [exact H|]. split; [exact Hg|].
  split; [reflexivity|]. split; [reflexivity|]. split; [reflexivity|].
  split; [reflexivity|]. split; [reflexivity|]. split.
  - subst resp e. cbn [r_original_filename r_lab_date].
    destruct (text_or_filename_date raw_text (original_filename_of file_filename));
      [reflexivity | congruence].
  - cbn [history_usable]. rewrite last_snoc. reflexivity.
Qed.

Lemma analyze_appends_one_entry_witness :
  exists resp w' e h w'',
    analyze (Some (py "lab 2024-03-05.pdf")) (py "1-a.pdf") (py "Ferritin 15 ng/mL LOW")
      sample_world = (Ok resp, w')
    /\ get_history (r_patient resp) w' = (Ok (r_patient resp, JArr h), w'')
    /\ h = entries (stored_history sample_world (history_key_of (r_patient resp))) ++ [e]
    /\ field "uploaded_at" e = Some (JStr (r_uploaded_at resp))
    /\ field "original_filename" e = Some (JStr (r_original_filename resp))
    /\ field "file_url" e = Some (JStr (r_file_url resp))
    /\ field "biomarkers" e = Some (default (JArr []) (field "biomarkers" (r_analysis resp)))
    /\ (text_or_filename_date (py "Ferritin 15 ng/mL LOW") (r_original_filename resp) <> None ->
        field "lab_date" e = Some (JStr (r_lab_date resp)))
    /\ history_usable (JArr h) = true.
Proof.
  apply (analyze_appends_one_entry (Some (py "lab 2024-03-05.pdf")) (py "1-a.pdf")
           (py "Ferritin 15 ng/mL LOW") sample_world).
  - intros i Hi. reflexivity.
  - reflexivity.
  - exact sample_replies_usable.
Defined.

(** X8.  [get_history] echoes the token, calls the store once and
    never writes to it. *)
Theorem get_history_read_only (patient_token : str) (w : World) :
  exists h w',
    get_history patient_token w = (Ok (patient_token, h), w')
    /\ redis_data w' = redis_data w
    /\ redis_calls w' = S (redis_calls w).
Proof.
  destruct (get_history_run patient_token w) as (l & H).
  do 2 eexists. split; [exact H|]. split; reflexivity.
Qed.








(** * The research step *)

Lemma key_ne (k k0 : String.string) :
  k <> k0 -> String.list_ascii_of_string k <> String.list_ascii_of_string k0.
Proof.
  intros Hne E. apply Hne.
  rewrite <- (String.string_of_list_ascii_of_string k),
          <- (String.string_of_list_ascii_of_string k0).
  now rewrite E.
Qed.

Lemma with_notes_spec (w : World) (item : JSON) :
  if high_or_low (default JNull (field "flag" item))
  then field "research_notes" (with_notes w item)
       = Some (advice_of w (default JNull (field "name" item)))
       /\ forall k : String.string,
            k <> "research_notes"%string -> field k (with_notes w item) = field k item
  else with_notes w item = item.
Proof.
  destruct item as [| | | | |items|o]; try reflexivity.
  unfold with_notes. destruct (high_or_low _); [|reflexivity].
  split.
  - cbn [field]. apply dict_get_set_eq.
  - intros k Hk. cbn [field]. apply dict_get_set_ne. now apply key_ne.
Qed.

Lemma with_notes_all (w : World) (items : list JSON) :
  Forall2
    (fun item item' =>
       if high_or_low (default JNull (field "flag" item))
       then field "research_notes" item'
            = Some (advice_of w (default JNull (field "name" item)))
            /\ forall k : String.string,
                 k <> "research_notes"%string -> field k item' = field k item
       else item' = item)
    items (map (with_notes w) items).
Proof.
  induction items as [|x items IH]; constructor; [apply with_notes_spec | exact IH].
Qed.

(** X9.  The research step ends exactly on a usable analysis, and
    raises on any other.  When it ends, the analysis keeps every member
    but its biomarkers, and the biomarkers keep their number and order:
    an item flagged HIGH or LOW gets the research notes for its name
    and keeps its other members, any other item is left as it was. *)
Theorem research_notes_only_on_abnormal (analysis : JSON) (w : World) :
  exists o l,
    research analysis w = (o, log_more w l)
    /\ (analysis_usable analysis = false -> exists e, o = Raise e)
    /\ (analysis_usable analysis = true ->
        exists analysis',
          o = Ok analysis'
          /\ (forall k : String.string,
                k <> "biomarkers"%string -> field k analysis' = field k analysis)
          /\ Forall2
               (fun item item' =>
                  if high_or_low (default JNull (field "flag" item))
                  then field "research_notes" item'
                       = Some (advice_of w (default JNull (field "name" item)))
                       /\ forall k : String.string,
                            k <> "research_notes"%string -> field k item' = field k item
                  else item' = item)
               (entries (default (JArr []) (field "biomarkers" analysis)))
               (entries (default (JArr []) (field "biomarkers" analysis')))).
Proof.
  destruct (research_run analysis w) as (o & l & H & Hok & Hbad & _).
  exists o, l. split; [exact H|]. split; [exact Hbad|].
  intros Hu. exists (researched w analysis). split; [exact (Hok Hu)|].
  destruct analysis as [| | | | |items|ob]; try discriminate.
  unfold researched, with_items. cbn [field].
  change (String.list_ascii_of_string "biomarkers") with (py "biomarkers").
  cbn [analysis_usable] in Hu.
  destruct (dict_get ob (py "biomarkers")) as [b|] eqn:Eb.
  - destruct b as [| | | |s|items|o']; try discriminate.
    + destruct s; [|discriminate]. split; [reflexivity|].
      cbn [field]. change (String.list_ascii_of_string "biomarkers") with (py "biomarkers").
      rewrite Eb. constructor.
    + split.
      * intros k Hk. cbn [field]. apply dict_get_set_ne.
        now apply (key_ne k "biomarkers").
      * cbn [field default from_option id entries].
        change (String.list_ascii_of_string "biomarkers") with (py "biomarkers").
        rewrite dict_get_set_eq. cbn [default from_option id entries].
        apply with_notes_all.
    + destruct o'; [|discriminate]. split; [reflexivity|].
      cbn [field]. change (String.list_ascii_of_string "biomarkers") with (py "biomarkers").
      rewrite Eb. constructor.
  - split; [reflexivity|].
    cbn [field]. change (String.list_ascii_of_string "biomarkers") with (py "biomarkers").
    rewrite Eb. constructor.
Qed.

Lemma research_notes_only_on_abnormal_witness :
  exists o l,
    research mock_analysis sample_world = (o, log_more sample_world l)
    /\ (analysis_usable mock_analysis = false -> exists e, o = Raise e)
    /\ (analysis_usable mock_analysis = true ->
        exists analysis',
          o = Ok analysis'
          /\ (forall k : String.string,
                k <> "biomarkers"%string -> field k analysis' = field k mock_analysis)
          /\ Forall2
               (fun item item' =>
                  if high_or_low (default JNull (field "flag" item))
                  then field "research_notes" item'
                       = Some (advice_of sample_world (default JNull (field "name" item)))
                       /\ forall k : String.string,
                            k <> "research_notes"%string -> field k item' = field k item
                  else item' = item)
               (entries (default (JArr []) (field "biomarkers" mock_analysis)))
               (entries (default (JArr []) (field "biomarkers" analysis')))).
Proof. exact (research_notes_only_on_abnormal mock_analysis sample_world). Defined.

(** * The date of birth *)

Lemma contains_app (sub pre post : str) : contains sub (pre ++ sub ++ post) = true.
Proof.
  induction pre as [|c pre IH].
  - apply startswith_contains. cbn [app].
    induction sub as [|x sub IHs]; [reflexivity|].
    cbn [app startswith]. unfold ascii_eqb. rewrite Ascii.eqb_refl. exact IHs.
  - cbn [app contains]. rewrite IH. apply orb_true_r.
Qed.

Lemma contains_slice (s : str) (i j : nat) : contains (slice s i j) s = true.
Proof.
  unfold slice.
  rewrite <- (firstn_skipn i s) at 2.
  rewrite <- (firstn_skipn (j - i) (skipn i s)) at 2.
  apply contains_app.
Qed.

Lemma group_is_slice (m : Match) (n : nat) (g : str) :
  group m n = Some g -> exists i j, g = slice (m_string m) i j.
Proof.
  unfold group. destruct n as [|n].
  - intros H. inversion H. eauto.
  - destruct (span_of (S n) (m_caps m)) as [[i j]|]; [|discriminate].
    intros H. inversion H. eauto.
Qed.

(** X10.  A date of birth returned by the extractor is either the ISO
    text of a valid calendar date (the match normalized) or the matched
    text itself, which then occurs verbatim in the input. *)
Theorem extract_dob_normalized_or_raw (text d : str) :
  _extract_dob text = Some d -> iso_date d \/ contains d text = true.
Proof.
  unfold _extract_dob. destruct (search true dob_re text) as [m|] eqn:Hs; [|discriminate].
  apply search_Some in Hs as (Hstr & _).
  destruct (group m 1) as [g|] eqn:Hg; [|discriminate].
  apply group_is_slice in Hg as (i & j & ->). rewrite Hstr.
  unfold or_else. destruct (_parse_date_string (slice text i j)) as [iso|] eqn:Hp.
  - cbn [truthy_opt]. destruct (truthy iso).
    + intros H. inversion H; subst. left. eapply parse_date_string_is_date; eauto.
    + intros H. inversion H; subst. right. apply contains_slice.
  - cbn [truthy_opt]. intros H. inversion H; subst. right. apply contains_slice.
Qed.

Lemma extract_dob_normalized_or_raw_witness :
  iso_date (py "1990-01-02") \/ contains (py "1990-01-02") (py "DOB: 01/02/1990") = true.
Proof.
  apply (extract_dob_normalized_or_raw (py "DOB: 01/02/1990") (py "1990-01-02")).
  vm_compute. reflexivity.
Defined.

(** * White space around a date string *)

Lemma lstrip_whitespace (a s : str) : whitespace a -> lstrip (a ++ s) = lstrip s.
Proof.
  induction 1 as [|c a Hc _ IH]; [reflexivity|]. cbn [app lstrip]. now rewrite Hc.
Qed.

Lemma lstrip_app_nonempty (s b : str) : lstrip s <> [] -> lstrip (s ++ b) = lstrip s ++ b.
Proof.
  induction s as [|c s IH]; cbn [app lstrip]; [intros H; now destruct H|].
  destruct (isspace c); [exact IH | reflexivity].
Qed.

Lemma lstrip_all_space (s : str) : lstrip s = [] -> whitespace s.
Proof.
  unfold whitespace. induction s as [|c s IH]; [intros _; constructor|]. cbn [lstrip].
  destruct (isspace c) eqn:E; [|discriminate]. intros H. constructor; [exact E | auto].
Qed.

Lemma rstrip_whitespace (t b : str) : whitespace b -> rstrip (t ++ b) = rstrip t.
Proof.
  intros Hb. unfold rstrip. rewrite rev_app_distr. f_equal.
  apply lstrip_whitespace. unfold whitespace in *. now apply Forall_rev.
Qed.

Lemma strip_padding (a s b : str) :
  whitespace a -> whitespace b -> strip (a ++ s ++ b) = strip s.
Proof.
  intros Ha Hb. unfold strip. rewrite lstrip_whitespace by exact Ha.
  destruct (lstrip s) as [|c t] eqn:E.
  - apply lstrip_all_space in E.
    assert (Hsb : whitespace (s ++ b)) by (apply Forall_app; split; assumption).
    rewrite <- (app_nil_r (s ++ b)), lstrip_whitespace by exact Hsb. reflexivity.
  - rewrite lstrip_app_nonempty by congruence. rewrite E. now apply rstrip_whitespace.
Qed.

Lemma parse_with_strip (fmts : list (list directive)) (s s' : str) :
  strip s = strip s' -> parse_with fmts s = parse_with fmts s'.
Proof.
  intros E. induction fmts as [|f fmts IH]; [reflexivity|].
  cbn [parse_with]. now rewrite E, IH.
Qed.

(** X11.  White space around a date string does not change what the
    normalizer returns. *)
Theorem parse_date_string_ignores_padding (a s b : str) :
  whitespace a -> whitespace b ->
  _parse_date_string (a ++ s ++ b) = _parse_date_string s.
Proof.
  intros Ha Hb. apply parse_with_strip. now apply strip_padding.
Qed.

Lemma parse_date_string_ignores_padding_witness :
  _parse_date_string (py "  " ++ py "March 5, 2024" ++ [chr 10])
  = _parse_date_string (py "March 5, 2024").
Proof.
  apply (parse_date_string_ignores_padding (py "  ") (py "March 5, 2024") [chr 10]);
    repeat constructor.
Defined.

(** * The shape of a resolved date *)

Lemma digits_rev_decimal (fuel : nat) :
  forall n, forallb isdecimal (digits_rev fuel n) = true.
Proof.
  induction fuel as [|f IH]; intros n; [reflexivity|].
  cbn [digits_rev forallb].
  assert (Hd : isdecimal (chr (48 + n mod 10)) = true).
  { pose proof (Nat.mod_upper_bound n 10 ltac:(lia)) as Hm.
    unfold isdecimal, between, ord, chr.
    rewrite nat_ascii_embedding by lia.
    apply andb_true_iff. split; apply Nat.leb_le; lia. }
  rewrite Hd. destruct (n / 10 =? 0); [reflexivity | apply IH].
Qed.

Lemma digits_rev_length (k : nat) :
  forall fuel n, n < 10 ^ S k -> length (digits_rev fuel n) <= S k.
Proof.
  induction k as [|k IH]; intros fuel n Hn.
  - destruct fuel as [|f]; cbn [digits_rev length]; [lia|].
    change (10 ^ 1) with 10 in Hn.
    rewrite (Nat.div_small n 10) by lia. cbn. lia.
  - destruct fuel as [|f]; cbn [digits_rev length]; [lia|].
    destruct (n / 10 =? 0); cbn [length]; [lia|].
    assert (Hq : n / 10 < 10 ^ S k).
    { apply Nat.Div0.div_lt_upper_bound. rewrite <- Nat.pow_succ_r'. exact Hn. }
    specialize (IH f (n / 10) Hq). lia.
Qed.

(** A number below [10 ^ width] is padded to exactly [width] decimal
    digits. *)
Lemma pad_num_padded (k : nat) (n : Z) :
  Z.to_nat n < 10 ^ S k -> padded (S k) n = true.
Proof.
  intros Hn. unfold padded, pad_num, zfill.
  pose proof (digits_rev_length k (S (Z.to_nat n)) (Z.to_nat n) Hn) as Hl.
  pose proof (digits_rev_decimal (S (Z.to_nat n)) (Z.to_nat n)) as Hd.
  apply andb_true_iff. split.
  - apply Nat.eqb_eq. rewrite length_app, repeat_length, length_rev. lia.
  - rewrite forallb_app. apply andb_true_iff. split.
    + apply forallb_forall. intros c Hc. apply repeat_spec in Hc. now subst c.
    + apply forallb_forall. intros c Hc. apply in_rev in Hc.
      rewrite forallb_forall in Hd. now apply Hd.
Qed.

Lemma to_nat_below (n : Z) (k : nat) :
  (0 <= n < 10 ^ Z.of_nat k)%Z -> Z.to_nat n < 10 ^ k.
Proof.
  intros H. apply Nat2Z.inj_lt. rewrite Z2Nat.id by lia.
  rewrite Nat2Z.inj_pow. exact (proj2 H).
Qed.

Lemma padded_digits (width : nat) (n : Z) :
  padded width n = true ->
  length (pad_num width n) = width
  /\ forallb isdecimal (pad_num width n) = true.
Proof.
  unfold padded. intros H. apply andb_true_iff in H as [H1 H2].
  apply Nat.eqb_eq in H1. auto.
Qed.

Lemma valid_date_bounds (y m d : Z) :
  valid_date y m d = true -> (1 <= y <= 9999 /\ 1 <= m <= 12 /\ 1 <= d <= 31)%Z.
Proof.
  unfold valid_date, days_in_month. intros H.
  repeat (apply andb_true_iff in H as [H ?]).
  repeat match goal with H : (_ <=? _)%Z = true |- _ => apply Z.leb_le in H end.
  repeat split; try lia.
  destruct (m =? 2)%Z; [destruct (is_leap y); lia|].
  destruct (_ || _); lia.
Qed.

Lemma isoformat_shape (y m d : Z) :
  valid_date y m d = true -> iso_shape (isoformat y m d) = true.
Proof.
  intros H. apply valid_date_bounds in H as (Hy & Hm & Hd).
  destruct (padded_digits 4 y (pad_num_padded 3 y (to_nat_below y 4 ltac:(cbn; lia))))
    as [Ly Fy].
  destruct (padded_digits 2 m (pad_num_padded 1 m (to_nat_below m 2 ltac:(cbn; lia))))
    as [Lm Fm].
  destruct (padded_digits 2 d (pad_num_padded 1 d (to_nat_below d 2 ltac:(cbn; lia))))
    as [Ld Fd].
  unfold isoformat.
  destruct (pad_num 4 y) as [|y1 [|y2 [|y3 [|y4 [|]]]]]; try discriminate.
  destruct (pad_num 2 m) as [|m1 [|m2 [|]]]; try discriminate.
  destruct (pad_num 2 d) as [|d1 [|d2 [|]]]; try discriminate.
  cbn [forallb] in Fy, Fm, Fd.
  repeat match goal with H : _ && _ = true |- _ => apply andb_true_iff in H as [? H] end.
  change (String.list_ascii_of_string "-") with ["-"%char].
  cbn [app iso_shape forallb].
  repeat match goal with H : isdecimal _ = true |- _ => rewrite H; clear H end.
  reflexivity.
Qed.

(** X12.  Every date the resolver takes from the text or from the
    filename is a valid calendar date written [dddd-dd-dd]. *)
Theorem resolved_date_is_iso (raw_text filename d : str) :
  text_or_filename_date raw_text filename = Some d ->
  iso_date d /\ iso_shape d = true.
Proof.
  intros H.
  assert (Hd : iso_date d).
  { unfold text_or_filename_date, extract_lab_date in H.
    destruct (first_date patterns raw_text) as [d0|] eqn:E.
    - inversion H; subst. clear H. revert E. generalize patterns as pats.
      induction pats as [|pat pats IH]; [discriminate|]. cbn [first_date].
      destruct (search true pat raw_text) as [m|]; [|exact IH].
      destruct (if 0 <? ngroups pat then group m 1 else group m 0) as [c|]; [|exact IH].
      destruct (_parse_date_string c) as [iso|] eqn:P; [|exact IH].
      destruct (truthy iso); [|exact IH].
      intros H. inversion H; subst. eapply parse_date_string_is_date; eauto.
    - destruct (filename_date_is_valid_aux filename) as (res & F & Hres).
      rewrite F in H. now apply Hres. }
  split; [exact Hd|]. destruct Hd as (y & m & dd & Hv & ->). now apply isoformat_shape.
Qed.

Lemma resolved_date_is_iso_witness :
  iso_date (py "2024-03-05") /\ iso_shape (py "2024-03-05") = true.
Proof.
  apply (resolved_date_is_iso (py "Collected: March 5, 2024") (py "scan.pdf") (py "2024-03-05")).
  vm_compute. reflexivity.
Defined.

(** * Start-up *)

Lemma init_skyflow_unconfigured (flag : option str) (sdk : option SkyflowSdk)
    (cfg : SkyflowSettings) :
  vault_unconfigured flag sdk cfg ->
  fst (init_skyflow (env_flag flag) sdk cfg) = None.
Proof.
  unfold vault_unconfigured, init_skyflow.
  destruct (env_flag flag); [|reflexivity].
  destruct sdk as [build|]; [|reflexivity].
  destruct (pick_credentials cfg) as [c|]; [|reflexivity].
  destruct (truthy_opt (cfg_vault_id cfg)); [|reflexivity].
  destruct (truthy_opt (cfg_cluster_id cfg)); [|reflexivity].
  intros [H|[H|[H|[H|H]]]]; discriminate.
Qed.

Lemma init_skyflow_build_failure (sdk : option SkyflowSdk) (cfg : SkyflowSettings) (e : exn) :
  snd (init_skyflow true sdk cfg) = InitFailed e -> fst (init_skyflow true sdk cfg) = None.
Proof.
  unfold init_skyflow. destruct sdk as [build|]; [|reflexivity].
  destruct (pick_credentials cfg) as [c|]; [|reflexivity].
  destruct (_ && _); [|reflexivity].
  destruct (build _ _ _ _); [discriminate | reflexivity].
Qed.

Lemma scrub_pii_no_client (text : str) (w : World) :
  skyflow_client w = None ->
  scrub_pii text w = (Ok (locally_redacted w text, patient_token_of w text), w).
Proof.
  intros Hc. unfold scrub_pii, locally_redacted.
  unfold bind at 1. rewrite token_eq. fold (patient_token_of w text).
  unfold bind at 1.
  destruct (_extract_name text) as [n|].
  - destruct (truthy n).
    + unfold lift. rewrite sub_escaped_plain by apply token_has_shape.
      unfold bind, ask, ret. now rewrite Hc.
    + unfold bind, ask, ret. now rewrite Hc.
  - unfold bind, ask, ret. now rewrite Hc.
Qed.

(** X13.  When start-up finds the vault unconfigured (flag not one of
    1, true, yes, on in any case; SDK absent; no credential, vault id or
    cluster id) or the client fails to build, no client is left, and the
    redactor then returns exactly the local redaction with the local
    token and prints nothing. *)
Theorem no_vault_means_local_redaction (flag : option str) (sdk : option SkyflowSdk)
    (cfg : SkyflowSettings) (w : World) (text : str) :
  vault_unconfigured flag sdk cfg
  \/ (exists e, snd (init_skyflow (env_flag flag) sdk cfg) = InitFailed e) ->
  fst (init_skyflow (env_flag flag) sdk cfg) = None
  /\ scrub_pii text (started w flag sdk cfg)
     = (Ok (locally_redacted (started w flag sdk cfg) text,
            patient_token_of w text),
        started w flag sdk cfg).
Proof.
  intros H.
  assert (Hn : fst (init_skyflow (env_flag flag) sdk cfg) = None).
  { destruct H as [H | [e H]]; [now apply init_skyflow_unconfigured|].
    destruct (env_flag flag); [now apply (init_skyflow_build_failure sdk cfg e) | reflexivity]. }
  split; [exact Hn|].
  rewrite scrub_pii_no_client by exact Hn. reflexivity.
Qed.

Lemma no_vault_means_local_redaction_witness :
  fst (init_skyflow (env_flag (Some (py "Off"))) None
         (mkSettings None None (py "SANDBOX") None None None None)) = None
  /\ scrub_pii (py "Name: John Smith")
       (started sample_world (Some (py "Off")) None
          (mkSettings None None (py "SANDBOX") None None None None))
     = (Ok (locally_redacted
              (started sample_world (Some (py "Off")) None
                 (mkSettings None None (py "SANDBOX") None None None None))
              (py "Name: John Smith"),
            patient_token_of sample_world (py "Name: John Smith")),
        started sample_world (Some (py "Off")) None
          (mkSettings None None (py "SANDBOX") None None None None)).
Proof.
  apply (no_vault_means_local_redaction (Some (py "Off")) None
           (mkSettings None None (py "SANDBOX") None None None None) sample_world
           (py "Name: John Smith")).
  left. left. reflexivity.
Defined.
